(** * client_bank_exchange_1c: the 1CClientBankExchange codec

    A shallow embedding of [client_bank_exchange_1c.py]: the value codecs
    ([Cast]), the field descriptor ([Field]), the schema-driven section
    engine ([Section.from_text], [Section.to_text]), the document composer
    and the statement aggregate, followed by the properties checked against
    the specification.

    Conventions.
    - A Python [str] is a list of Unicode code points ([str := list N]);
      literals are written [u "..."] and decoded from UTF-8.
    - A Python exception is a value of [exn]; a call that may raise returns
      [result A].
    - An object is the map from attribute names to values that
      [getattr(self, key, None)] reads. *)

From Stdlib Require Import String Ascii.
From Stdlib Require Import List NArith ZArith Bool Lia.
Import ListNotations.

Set Implicit Arguments.

(** ** Text *)

(** A character is its code point. *)
Notation char := N (only parsing).

Definition str := list char.

(** UTF-8 decoding of a source literal into code points. *)
Fixpoint utf8_go (pending : nat) (acc : N) (bs : list N) : str :=
  match bs with
  | [] => []
  | b :: bs' =>
      match pending with
      | O =>
          if (b <? 128)%N then b :: utf8_go 0 0%N bs'
          else if (b <? 224)%N then utf8_go 1 (b - 192)%N bs'
          else if (b <? 240)%N then utf8_go 2 (b - 224)%N bs'
          else utf8_go 3 (b - 240)%N bs'
      | S O => (acc * 64 + (b - 128))%N :: utf8_go 0 0%N bs'
      | S p => utf8_go p (acc * 64 + (b - 128))%N bs'
      end
  end.

Definition u (s : string) : str :=
  utf8_go 0 0%N (map N_of_ascii (list_ascii_of_string s)).

Arguments u s%_string.

Definition c_nl : char := 10%N.      (* "\n" *)
Definition c_space : char := 32%N.   (* " "  *)
Definition c_apos : char := 39%N.    (* "'"  *)
Definition c_comma : char := 44%N.   (* ","  *)
Definition c_minus : char := 45%N.   (* "-"  *)
Definition c_dot : char := 46%N.     (* "."  *)
Definition c_colon : char := 58%N.   (* ":"  *)
Definition c_eq : char := 61%N.      (* "="  *)
Definition c_0 : char := 48%N.       (* "0"  *)

Definition str_eqb (a b : str) : bool :=
  if list_eq_dec N.eq_dec a b then true else false.

(** [str.isspace] for one code point: the characters [str.strip()] removes. *)
Definition is_space (c : char) : bool :=
  ((9 <=? c) && (c <=? 13) || (28 <=? c) && (c <=? 32)
   || (c =? 133) || (c =? 160) || (c =? 5760)
   || (8192 <=? c) && (c <=? 8202)
   || (c =? 8232) || (c =? 8233) || (c =? 8239) || (c =? 8287)
   || (c =? 12288))%N.

Fixpoint lstrip (s : str) : str :=
  match s with
  | [] => []
  | c :: t => if is_space c then lstrip t else s
  end.

Definition rstrip (s : str) : str := rev (lstrip (rev s)).

(** [s.strip()] *)
Definition strip (s : str) : str := rstrip (lstrip s).

(** [sep.join(parts)] *)
Fixpoint join (sep : str) (parts : list str) : str :=
  match parts with
  | [] => []
  | [p] => p
  | p :: rest => p ++ sep ++ join sep rest
  end.

(** [s.split("\n")]: the lines a MULTILINE pattern sees. *)
Fixpoint split_lines (s : str) : list str :=
  match s with
  | [] => [[]]
  | c :: t =>
      if (c =? c_nl)%N then [] :: split_lines t
      else match split_lines t with
           | [] => [[c]]
           | l :: ls => (c :: l) :: ls
           end
  end.

(** [s.startswith(p)], returning the remainder. *)
Fixpoint strip_prefix (p s : str) : option str :=
  match p, s with
  | [], _ => Some s
  | _ :: _, [] => None
  | a :: p', b :: s' => if (a =? b)%N then strip_prefix p' s' else None
  end.

(** The first occurrence of [pat] in [s]: what precedes and what follows it. *)
Fixpoint find_sub (pat s : str) : option (str * str) :=
  match strip_prefix pat s with
  | Some rest => Some ([], rest)
  | None =>
      match s with
      | [] => None
      | c :: t =>
          match find_sub pat t with
          | Some (before, rest) => Some (c :: before, rest)
          | None => None
          end
      end
  end.

(** [s.count(c)] for a one-character needle. *)
Definition count_char (c : char) (s : str) : Z :=
  Z.of_nat (length (filter (N.eqb c) s)).

Fixpoint replace_all (old : char) (new : str) (s : str) : str :=
  match s with
  | [] => []
  | c :: t => if (c =? old)%N then new ++ replace_all old new t
              else c :: replace_all old new t
  end.

Fixpoint replace_first (n : nat) (old : char) (new : str) (s : str) : str :=
  match n, s with
  | O, _ => s
  | _, [] => []
  | S n', c :: t => if (c =? old)%N then new ++ replace_first n' old new t
                    else c :: replace_first n old new t
  end.

(** [s.replace(old, new, count)] for a one-character [old]: a negative
    [count] replaces every occurrence, as [str.replace] documents. *)
Definition str_replace (old : char) (new : str) (count : Z) (s : str) : str :=
  if (count <? 0)%Z then replace_all old new s
  else replace_first (Z.to_nat count) old new s.

(** ** Decimal digits *)

Definition is_digit (c : char) : bool := ((48 <=? c) && (c <=? 57))%N.

(** [int(s)] on a string of ASCII digits. *)
Definition int_of_digits (s : str) : N :=
  fold_left (fun acc c => (acc * 10 + (c - 48))%N) s 0%N.

Fixpoint digits_fuel (fuel : nat) (n : N) (acc : str) : str :=
  match fuel with
  | O => acc
  | S f =>
      if (n <? 10)%N then (48 + n)%N :: acc
      else digits_fuel f (n / 10)%N ((48 + n mod 10)%N :: acc)
  end.

(** [str(n)] for a non-negative integer. *)
Definition digits_of (n : N) : str :=
  digits_fuel (S (N.to_nat (N.log2 n))) n [].

(** [s.zfill(w)]-style zero padding used by [%d], [%m], [%H], [%M], [%S]. *)
Definition pad_left (w : nat) (s : str) : str :=
  repeat c_0 (w - length s) ++ s.

Definition pad2 (n : N) : str := pad_left 2 (digits_of n).

(** The longest prefix of digits, and the rest. *)
Fixpoint span_digits (s : str) : str * str :=
  match s with
  | [] => ([], [])
  | c :: t =>
      if is_digit c then let (d, r) := span_digits t in (c :: d, r)
      else ([], s)
  end.

(** ** Exceptions *)

Inductive exn : Type :=
| ValueError_multiple (key : str) (found : nat)
    (* Field.get_value_from_text: the spec's SchemaViolation *)
| ValueError_required (name : str)
    (* Section.to_text / validate_attr: the spec's ValidationError *)
| ValueError_one_bank
    (* Statement.from_documents: the spec's ValidationError *)
| ValueError_strptime
    (* datetime.strptime: the spec's FormatError *)
| ValueError_no_regex
    (* Section.extract_section_text without Meta.regex *)
| ValueError_empty_sequence
    (* min() / max() of an empty list *)
| InvalidOperation
    (* decimal.Decimal(text): the spec's FormatError for amounts *)
| TypeError
| AttributeError.

Inductive result (A : Type) : Type :=
| Ok (a : A)
| Raise (e : exn).

Arguments Ok {A} a.
Arguments Raise {A} e.

Definition bind {A B} (r : result A) (k : A -> result B) : result B :=
  match r with
  | Ok a => k a
  | Raise e => Raise e
  end.

Notation "x <- r ;; k" := (bind r (fun x => k))
  (at level 61, r at next level, right associativity).

Fixpoint mapM {A B} (f : A -> result B) (l : list A) : result (list B) :=
  match l with
  | [] => Ok []
  | a :: t => b <- f a ;; bs <- mapM f t ;; Ok (b :: bs)
  end.

(** ** decimal.Decimal *)

(** A finite [Decimal]: sign, coefficient and exponent, as [as_tuple()]
    shows them.  [Decimal('1.50')] is [mkDecimal false 150 (-2)]. *)
Record Decimal : Type := mkDecimal
  { dsign : bool; dcoeff : N; dexp : Z }.

(** [Decimal(s)] for [s] over the alphabet [0-9], [.], [-], the only
    characters [Cast.str_to_amount] lets through: an optional sign, then
    digits with an optional fractional part and at least one digit; anything
    else raises [InvalidOperation]. *)
Definition Decimal_of_str (s : str) : result Decimal :=
  let '(sign, body) :=
    match s with
    | c :: r => if (c =? c_minus)%N then (true, r) else (false, s)
    | [] => (false, s)
    end in
  let '(ip, r1) := span_digits body in
  match r1 with
  | [] =>
      match ip with
      | [] => Raise InvalidOperation
      | _ => Ok (mkDecimal sign (int_of_digits ip) 0)
      end
  | c :: r2 =>
      if (c =? c_dot)%N then
        let '(fp, r3) := span_digits r2 in
        match r3, ip ++ fp with
        | [], _ :: _ =>
            Ok (mkDecimal sign (int_of_digits (ip ++ fp))
                  (- Z.of_nat (length fp)))
        | _, _ => Raise InvalidOperation
        end
      else Raise InvalidOperation
  end.

(** [str(d)], after [Decimal.__str__]: plain notation when the exponent is
    not positive and the number is not too small, scientific otherwise. *)
Definition Decimal_to_str (d : Decimal) : str :=
  let digits := digits_of (dcoeff d) in
  let len := Z.of_nat (length digits) in
  let leftdigits := (dexp d + len)%Z in
  let dotplace :=
    if ((dexp d <=? 0) && (-6 <? leftdigits))%Z then leftdigits else 1%Z in
  let intpart :=
    if (dotplace <=? 0)%Z then [c_0]
    else if (len <=? dotplace)%Z
         then digits ++ repeat c_0 (Z.to_nat (dotplace - len))
         else firstn (Z.to_nat dotplace) digits in
  let fracpart :=
    if (dotplace <=? 0)%Z
    then c_dot :: repeat c_0 (Z.to_nat (- dotplace)) ++ digits
    else if (len <=? dotplace)%Z then []
         else c_dot :: skipn (Z.to_nat dotplace) digits in
  let e := (leftdigits - dotplace)%Z in
  let exp :=
    if (e =? 0)%Z then []
    else 69%N :: (if (e <? 0)%Z then c_minus else 43%N)
                 :: digits_of (Z.to_N (Z.abs e)) in
  (if dsign d then [c_minus] else []) ++ intpart ++ fracpart ++ exp.

(** Numeric equality of two decimals ([Decimal.__eq__]): [1.0 == 1]. *)
Definition Decimal_eqb (a b : Decimal) : bool :=
  let m := Z.min (dexp a) (dexp b) in
  let va := (Z.of_N (dcoeff a) * 10 ^ (dexp a - m))%Z in
  let vb := (Z.of_N (dcoeff b) * 10 ^ (dexp b - m))%Z in
  ((va =? vb)%Z && (Bool.eqb (dsign a) (dsign b) || (va =? 0)%Z)).

Definition Decimal_ltb (a b : Decimal) : bool :=
  let m := Z.min (dexp a) (dexp b) in
  let va := (Z.of_N (dcoeff a) * 10 ^ (dexp a - m))%Z in
  let vb := (Z.of_N (dcoeff b) * 10 ^ (dexp b - m))%Z in
  ((if dsign a then - va else va) <? (if dsign b then - vb else vb))%Z.

(** ** datetime.date, datetime.time *)

Record date : Type := mkdate { year : N; month : N; day : N }.

Record time : Type := mktime
  { hour : N; minute : N; second : N; microsecond : N }.

Definition is_leap (y : N) : bool :=
  ((y mod 4 =? 0) && (negb (y mod 100 =? 0) || (y mod 400 =? 0)))%N.

Definition days_in_month (y m : N) : N :=
  (if m =? 2 then (if is_leap y then 29 else 28)
   else if (m =? 4) || (m =? 6) || (m =? 9) || (m =? 11) then 30
   else 31)%N.

(** The range checks of the [date] and [time] constructors. *)
Definition date_valid (d : date) : bool :=
  ((1 <=? year d) && (year d <=? 9999) && (1 <=? month d) && (month d <=? 12)
   && (1 <=? day d) && (day d <=? days_in_month (year d) (month d)))%N.

Definition time_valid (t : time) : bool :=
  ((hour t <? 24) && (minute t <? 60) && (second t <? 60)
   && (microsecond t <? 1000000))%N.

Definition date_ltb (a b : date) : bool :=
  ((year a <? year b)
   || (year a =? year b)
      && ((month a <? month b) || (month a =? month b) && (day a <? day b)))%N.

Definition time_ltb (a b : time) : bool :=
  ((((hour a * 60 + minute a) * 60 + second a) * 1000000 + microsecond a)
   <? (((hour b * 60 + minute b) * 60 + second b) * 1000000 + microsecond b))%N.

Definition midnight : time := mktime 0 0 0 0.
Definition epoch_1900 : date := mkdate 1900 1 1.

(** ** The regular expressions of [_strptime]

    [datetime.strptime] compiles the format into a regular expression with
    one named group per directive, takes the first match in backtracking
    order, refuses input left over after it, and converts the groups with
    [int].  [rx r s] lists the ways [r] matches a prefix of [s], in that
    order.  [\d] is taken over the ASCII digits. *)

Inductive regex : Type :=
| Eps
| Lit (c : char)
| Digit
| Range (lo hi : char)
| Cat (a b : regex)
| Alt (a b : regex)
| Group (name : char) (r : regex).

Definition groups := list (char * str).

(** One way of matching: the groups, the text matched, what follows. *)
Record rmatch : Type := mkmatch
  { m_groups : groups; m_text : str; m_rest : str }.

Definition one_char (p : char -> bool) (s : str) : list rmatch :=
  match s with
  | x :: t => if p x then [mkmatch [] [x] t] else []
  | [] => []
  end.

Fixpoint rx (r : regex) (s : str) : list rmatch :=
  match r with
  | Eps => [mkmatch [] [] s]
  | Lit c => one_char (N.eqb c) s
  | Digit => one_char is_digit s
  | Range lo hi => one_char (fun x => (lo <=? x) && (x <=? hi))%N s
  | Cat a b =>
      flat_map (fun m1 =>
                  map (fun m2 => mkmatch (m_groups m1 ++ m_groups m2)
                                         (m_text m1 ++ m_text m2)
                                         (m_rest m2))
                      (rx b (m_rest m1)))
               (rx a s)
  | Alt a b => rx a s ++ rx b s
  | Group name a =>
      map (fun m => mkmatch ((name, m_text m) :: m_groups m)
                            (m_text m) (m_rest m))
          (rx a s)
  end.

Definition d0 : char := 48%N.
Definition d1 : char := 49%N.
Definition d2 : char := 50%N.
Definition d3 : char := 51%N.
Definition d5 : char := 53%N.
Definition d6 : char := 54%N.
Definition d9 : char := 57%N.

Definition g_d : char := 100%N.  (* d *)
Definition g_m : char := 109%N.  (* m *)
Definition g_Y : char := 89%N.   (* Y *)
Definition g_H : char := 72%N.   (* H *)
Definition g_M : char := 77%N.   (* M *)
Definition g_S : char := 83%N.   (* S *)

(** The entries of [TimeRE] the two formats use. *)
Definition directive (c : char) : regex :=
  if (c =? g_d)%N then
    (* (?P<d>3[0-1]|[1-2]\d|0[1-9]|[1-9]| [1-9]) *)
    Group g_d (Alt (Cat (Lit d3) (Range d0 d1))
              (Alt (Cat (Range d1 d2) Digit)
              (Alt (Cat (Lit d0) (Range d1 d9))
              (Alt (Range d1 d9)
                   (Cat (Lit c_space) (Range d1 d9))))))
  else if (c =? g_m)%N then
    (* (?P<m>1[0-2]|0[1-9]|[1-9]) *)
    Group g_m (Alt (Cat (Lit d1) (Range d0 d2))
              (Alt (Cat (Lit d0) (Range d1 d9))
                   (Range d1 d9)))
  else if (c =? g_Y)%N then
    (* (?P<Y>\d\d\d\d) *)
    Group g_Y (Cat Digit (Cat Digit (Cat Digit Digit)))
  else if (c =? g_H)%N then
    (* (?P<H>2[0-3]|[0-1]\d|\d) *)
    Group g_H (Alt (Cat (Lit d2) (Range d0 d3))
              (Alt (Cat (Range d0 d1) Digit)
                   Digit))
  else if (c =? g_M)%N then
    (* (?P<M>[0-5]\d|\d) *)
    Group g_M (Alt (Cat (Range d0 d5) Digit) Digit)
  else if (c =? g_S)%N then
    (* (?P<S>6[0-1]|[0-5]\d|\d) *)
    Group g_S (Alt (Cat (Lit d6) (Range d0 d1))
              (Alt (Cat (Range d0 d5) Digit)
                   Digit))
  else Lit c.

(** [TimeRE.pattern(format)]: a directive becomes its group, any other
    character stands for itself. *)
Fixpoint pattern (fmt : str) : regex :=
  match fmt with
  | [] => Eps
  | c :: rest =>
      match rest with
      | d :: rest' =>
          if (c =? 37)%N then Cat (directive d) (pattern rest')
          else Cat (Lit c) (pattern rest)
      | [] => Cat (Lit c) Eps
      end
  end.

(** [int(text)] of a matched group: surrounding blanks are ignored. *)
Definition py_int (s : str) : N := int_of_digits (strip s).

Fixpoint group_int (name : char) (default : N) (g : groups) : N :=
  match g with
  | [] => default
  | (n, v) :: g' => if (n =? name)%N then py_int v else group_int name default g'
  end.

(** [datetime.strptime(data, fmt)]: every failure is a [ValueError]. *)
Definition strptime (data fmt : str) : result (date * time) :=
  match rx (pattern fmt) data with
  | [] => Raise ValueError_strptime          (* does not match format *)
  | found :: _ =>
      match m_rest found with
      | _ :: _ => Raise ValueError_strptime  (* unconverted data remains *)
      | [] =>
          let g := m_groups found in
          let d := mkdate (group_int g_Y 1900 g) (group_int g_m 1 g)
                          (group_int g_d 1 g) in
          let t := mktime (group_int g_H 0 g) (group_int g_M 0 g)
                          (group_int g_S 0 g) 0 in
          if date_valid d && time_valid t then Ok (d, t)
          else Raise ValueError_strptime     (* out of range *)
      end
  end.

(** [strftime] for the directives of the two formats.  [%Y] is rendered
    without padding, as the C library does for years below 1000. *)
Definition strftime_directive (c : char) (d : date) (t : time) : str :=
  if (c =? g_d)%N then pad2 (day d)
  else if (c =? g_m)%N then pad2 (month d)
  else if (c =? g_Y)%N then digits_of (year d)
  else if (c =? g_H)%N then pad2 (hour t)
  else if (c =? g_M)%N then pad2 (minute t)
  else if (c =? g_S)%N then pad2 (second t)
  else [c].

Fixpoint strftime (fmt : str) (d : date) (t : time) : str :=
  match fmt with
  | [] => []
  | c :: rest =>
      match rest with
      | x :: rest' =>
          if (c =? 37)%N then strftime_directive x d t ++ strftime rest' d t
          else c :: strftime rest d t
      | [] => [c]
      end
  end.

Definition DATE_FORMAT : str := u "%d.%m.%Y".
Definition TIME_FORMAT : str := u "%H:%M:%S".

(** ** Values

    What an attribute can hold: [None], a [str], a [date], a [time], a
    [datetime], a [Decimal], or a list or a set of those. *)

Inductive atom : Type :=
| ANone
| AStr (s : str)
| ADate (d : date)
| ATime (t : time)
| ADateTime (d : date) (t : time)
| ADec (d : Decimal).

Inductive value : Type :=
| Atom (a : atom)
| VList (items : list atom)
| VSet (items : list atom).

Coercion Atom : atom >-> value.

Definition VNone : value := Atom ANone.
Definition VStr (s : str) : value := Atom (AStr s).

(** [bool(v)] *)
Definition truthy (v : value) : bool :=
  match v with
  | Atom ANone => false
  | Atom (AStr s) => match s with [] => false | _ => true end
  | Atom (ADec d) => negb (dcoeff d =? 0)%N
  | Atom _ => true
  | VList l | VSet l => match l with [] => false | _ => true end
  end.

Definition isoformat_date (d : date) : str :=
  pad_left 4 (digits_of (year d)) ++ [c_minus] ++ pad2 (month d)
  ++ [c_minus] ++ pad2 (day d).

Definition isoformat_time (t : time) : str :=
  pad2 (hour t) ++ [c_colon] ++ pad2 (minute t) ++ [c_colon]
  ++ pad2 (second t)
  ++ (if (microsecond t =? 0)%N then []
      else c_dot :: pad_left 6 (digits_of (microsecond t))).

(** [str(a)] *)
Definition atom_str (a : atom) : str :=
  match a with
  | ANone => u "None"
  | AStr s => s
  | ADate d => isoformat_date d
  | ATime t => isoformat_time t
  | ADateTime d t => isoformat_date d ++ [c_space] ++ isoformat_time t
  | ADec d => Decimal_to_str d
  end.

(** [str(v)].  For a list or a set this is the bracketed [repr] of the
    items; the items are shown with [str] between quotes, which leaves out
    the escapes of [repr].  The section engine only tests this text for
    emptiness. *)
Definition py_str (v : value) : str :=
  match v with
  | Atom a => atom_str a
  | VList l =>
      [91%N] ++ join (u ", ") (map (fun a => [c_apos] ++ atom_str a ++ [c_apos]) l)
      ++ [93%N]
  | VSet l =>
      match l with
      | [] => u "set()"
      | _ => [123%N]
             ++ join (u ", ") (map (fun a => [c_apos] ++ atom_str a ++ [c_apos]) l)
             ++ [125%N]
      end
  end.

(** [iter(v)]: the items of a list or a set, the characters of a string;
    nothing else here is iterable. *)
Definition py_iter (v : value) : result (list atom) :=
  match v with
  | VList l | VSet l => Ok l
  | Atom (AStr s) => Ok (map (fun c => AStr [c]) s)
  | Atom _ => Raise TypeError
  end.

(** [a == b] on atoms. *)
Definition atom_eqb (a b : atom) : bool :=
  match a, b with
  | ANone, ANone => true
  | AStr x, AStr y => str_eqb x y
  | ADate x, ADate y =>
      ((year x =? year y) && (month x =? month y) && (day x =? day y))%N
  | ATime x, ATime y =>
      ((hour x =? hour y) && (minute x =? minute y) && (second x =? second y)
       && (microsecond x =? microsecond y))%N
  | ADateTime x s, ADateTime y t =>
      ((year x =? year y) && (month x =? month y) && (day x =? day y)
       && (hour s =? hour t) && (minute s =? minute t)
       && (second s =? second t) && (microsecond s =? microsecond t))%N
  | ADec x, ADec y => Decimal_eqb x y
  | _, _ => false
  end.

Fixpoint str_ltb (a b : str) : bool :=
  match a, b with
  | _, [] => false
  | [], _ :: _ => true
  | x :: a', y :: b' => ((x <? y) || (x =? y) && str_ltb a' b')%N
  end.

(** [a < b] on atoms: defined between two values of one kind, a
    [TypeError] otherwise ([None] is not ordered, a [date] does not compare
    with a [datetime]). *)
Definition atom_lt (a b : atom) : result bool :=
  match a, b with
  | AStr x, AStr y => Ok (str_ltb x y)
  | ADate x, ADate y => Ok (date_ltb x y)
  | ATime x, ATime y => Ok (time_ltb x y)
  | ADateTime x s, ADateTime y t =>
      Ok (date_ltb x y || atom_eqb (ADate x) (ADate y) && time_ltb s t)
  | ADec x, ADec y => Ok (Decimal_ltb x y)
  | _, _ => Raise TypeError
  end.

(** [a < b] on values; the ordering of two lists or two sets is not
    modelled. *)
Definition py_lt (a b : value) : result bool :=
  match a, b with
  | Atom x, Atom y => atom_lt x y
  | _, _ => Raise TypeError
  end.

(** [min(items)] and [max(items)]: one pass, keeping the first of equal
    candidates; a single item is returned without a comparison. *)
Fixpoint min_from (cur : value) (rest : list value) : result value :=
  match rest with
  | [] => Ok cur
  | x :: t => b <- py_lt x cur ;; min_from (if b then x else cur) t
  end.

Fixpoint max_from (cur : value) (rest : list value) : result value :=
  match rest with
  | [] => Ok cur
  | x :: t => b <- py_lt cur x ;; max_from (if b then x else cur) t
  end.

Definition py_min (l : list value) : result value :=
  match l with
  | [] => Raise ValueError_empty_sequence
  | x :: t => min_from x t
  end.

Definition py_max (l : list value) : result value :=
  match l with
  | [] => Raise ValueError_empty_sequence
  | x :: t => max_from x t
  end.

(** [set(items)]: the distinct items, kept here in order of first
    appearance (Python leaves the iteration order of a set open; nothing
    below depends on it).  A list or a set is not hashable. *)
Fixpoint dedup (l : list atom) : list atom :=
  match l with
  | [] => []
  | x :: t => x :: filter (fun y => negb (atom_eqb x y)) (dedup t)
  end.

Definition as_atom (v : value) : result atom :=
  match v with
  | Atom a => Ok a
  | _ => Raise TypeError
  end.

Definition py_set (l : list value) : result (list atom) :=
  items <- mapM as_atom l ;; Ok (dedup items).

(** ** class Required *)

Inductive Required : Type := NONE | TO_BANK | FROM_BANK | BOTH.

(** [Required.TO_BANK in r] *)
Definition to_bank_in (r : Required) : bool :=
  match r with
  | TO_BANK | BOTH => true
  | NONE | FROM_BANK => false
  end.

(** ** class Cast *)

Module Cast.

Definition str_to_text (obj : str) : value :=
  match obj with
  | [] => VNone
  | _ => match strip obj with
         | [] => VNone
         | s => VStr s
         end
  end.

Definition str_to_date (obj : str) : result value :=
  match obj with
  | [] => Ok VNone
  | _ => dt <- strptime obj DATE_FORMAT ;; Ok (Atom (ADate (fst dt)))
  end.

Definition str_to_time (obj : str) : result value :=
  match obj with
  | [] => Ok VNone
  | _ => dt <- strptime obj TIME_FORMAT ;; Ok (Atom (ATime (snd dt)))
  end.

(** [re.sub(r'[^0-9,.\-]', '', s)] *)
Definition re_sub_amount (s : str) : str :=
  filter (fun c => is_digit c || (c =? c_comma) || (c =? c_dot)
                   || (c =? c_minus))%N s.

Definition str_to_amount (obj : str) : result value :=
  d <- Decimal_of_str
         (str_replace c_dot [] (count_char c_dot obj - 1)
            (replace_all c_comma [c_dot]
               (replace_all c_space []
                  (replace_all c_apos []
                     (re_sub_amount obj))))) ;;
  Ok (Atom (ADec d)).

Definition text_to_str (obj : value) : result str :=
  if truthy obj then Ok (strip (py_str obj)) else Ok [].

(** [obj.strftime(fmt)]: a [date] has no time of day and a [time] no day;
    a string, a number or a list has no [strftime] at all. *)
Definition py_strftime (fmt : str) (obj : value) : result str :=
  match obj with
  | Atom (ADate d) => Ok (strftime fmt d midnight)
  | Atom (ATime t) => Ok (strftime fmt epoch_1900 t)
  | Atom (ADateTime d t) => Ok (strftime fmt d t)
  | _ => Raise AttributeError
  end.

Definition date_to_str (obj : value) : result str :=
  if truthy obj then py_strftime DATE_FORMAT obj else Ok [].

Definition time_to_str (obj : value) : result str :=
  if truthy obj then py_strftime TIME_FORMAT obj else Ok [].

Definition amount_to_str (obj : value) : result str :=
  Ok (replace_all c_comma [c_dot] (py_str obj)).

End Cast.

(** ** class Type *)

Inductive FType : Type := TEXT | DATE | TIME | AMOUNT | ARRAY | FLAG.

Definition FType_eqb (a b : FType) : bool :=
  match a, b with
  | TEXT, TEXT | DATE, DATE | TIME, TIME | AMOUNT, AMOUNT
  | ARRAY, ARRAY | FLAG, FLAG => true
  | _, _ => false
  end.

(** [t.value.cast_from_text] *)
Definition cast_from_text (t : FType) (text : str) : result value :=
  match t with
  | TEXT | ARRAY | FLAG => Ok (Cast.str_to_text text)
  | DATE => Cast.str_to_date text
  | TIME => Cast.str_to_time text
  | AMOUNT => Cast.str_to_amount text
  end.

(** [t.value.cast_to_text] *)
Definition cast_to_text (t : FType) (v : value) : result str :=
  match t with
  | TEXT | ARRAY | FLAG => Cast.text_to_str v
  | DATE => Cast.date_to_str v
  | TIME => Cast.time_to_str v
  | AMOUNT => Cast.amount_to_str v
  end.

(** ** class Field

    The [description] of a field is a label no code reads; it is left out. *)

Record Field : Type := mkField
  { key : str; required : Required; type : FType }.

(** What [extract_section_text] hands to the parser: [None], one span, or
    the list of spans. *)
Inductive span : Type :=
| SNone
| SText (text : str)
| SMany (texts : list str).

Module Field.

(** [re.findall(r'^' + key + '=(.*?)$', text, re.MULTILINE)]: the rest of
    every line that starts with [key=].  The keys of all schemas are letters
    and digits, so the key stands for itself in the pattern. *)
Definition findall (key : str) (text : str) : list str :=
  flat_map (fun line =>
              match strip_prefix (key ++ [c_eq]) line with
              | Some v => [v]
              | None => []
              end)
           (split_lines text).

Definition as_items (l : list value) : result (list atom) := mapM as_atom l.

Definition get_value_from_text (self : Field) (source_text : span)
  : result value :=
  match source_text with
  | SText text =>
      let found := findall (key self) text in
      if (1 <? length found)%nat && negb (FType_eqb (type self) ARRAY)
      then Raise (ValueError_multiple (key self) (length found))
      else
        match found with
        | [] => Ok VNone
        | first :: _ =>
            if FType_eqb (type self) ARRAY && (1 <? length found)%nat
            then
              vs <- mapM (cast_from_text (type self)) found ;;
              items <- as_items vs ;;
              Ok (VList items)
            else cast_from_text (type self) first
        end
  | _ => Raise TypeError   (* re.findall on None or on a list *)
  end.

End Field.

(** ** class Schema, class Section *)

(** [Schema.to_dict()]: attribute name and field, in declaration order. *)
Definition schema := list (string * Field).

(** An instance: what [getattr(self, name, None)] returns. *)
Definition obj := string -> value.

Definition new_obj : obj := fun _ => VNone.

Definition setattr (o : obj) (name : string) (v : value) : obj :=
  fun n => if String.eqb n name then v else o n.

Definition getattr (o : obj) (name : string) : value := o name.

Arguments setattr o name%_string v.
Arguments getattr o name%_string.

Definition nonempty (s : str) : bool :=
  match s with [] => false | _ => true end.

Module Section_.

(** [regex.findall] for a pattern [open(.*?)close] under [re.S]: the
    leftmost [open], then the nearest [close] after it, then on from
    there.  [keep_open] says whether the capture starts before [open]
    (Document) or after it (Balance). *)
Fixpoint findall_between (fuel : nat) (keep_open : bool) (open close : str)
  (s : str) : list str :=
  match fuel with
  | O => []
  | S fuel' =>
      match find_sub open s with
      | None => []
      | Some (_, after_open) =>
          match find_sub close after_open with
          | None => []
          | Some (body, rest) =>
              (if keep_open then open ++ body else body)
                :: findall_between fuel' keep_open open close rest
          end
      end
  end.

(** [regex.findall] for [^(.*?)close] under [re.S]: what precedes the
    first [close], if there is one. *)
Definition findall_before (close : str) (s : str) : list str :=
  match find_sub close s with
  | Some (before, _) => [before]
  | None => []
  end.

(** [Meta.regex], as its [findall]; [None] when the class declares none. *)
Definition Meta := option (str -> list str).

Definition extract_section_text (regex : Meta) (source_text : str)
  : result span :=
  match regex with
  | None => Raise ValueError_no_regex
  | Some findall =>
      match findall source_text with
      | [] => Ok SNone
      | [one] => Ok (SText one)
      | many => Ok (SMany many)
      end
  end.

Fixpoint from_text_loop (fields : schema) (section_text : span) (o : obj)
  : result obj :=
  match fields with
  | [] => Ok o
  | (name, field) :: rest =>
      v <- Field.get_value_from_text field section_text ;;
      from_text_loop rest section_text (setattr o name v)
  end.

Definition from_text (Schema : schema) (section_text : span) : result obj :=
  from_text_loop Schema section_text new_obj.

Definition get_line (field : Field) (attr : value) : result str :=
  let is_flag := FType_eqb (type field) FLAG in
  let name := key field in
  value <- cast_to_text (type field) attr ;;
  let req := to_bank_in (required field) in
  if negb req && negb (nonempty value) then Ok []
  else Ok (if is_flag then name else name ++ [c_eq] ++ value).

Definition get_text (field : Field) (attr : value) : result str :=
  if truthy attr && FType_eqb (type field) ARRAY then
    items <- py_iter attr ;;
    lines <- mapM (fun item => get_line field (Atom item)) items ;;
    Ok (join [c_nl] lines)
  else get_line field attr.

Definition validate_attr (field : Field) (attr : value) : result unit :=
  let is_flag := FType_eqb (type field) FLAG in
  let name := key field in
  value <- cast_to_text (type field) attr ;;
  let req := to_bank_in (required field) in
  if req && negb is_flag && negb (nonempty value)
  then Raise (ValueError_required name)
  else Ok tt.

Fixpoint to_text_loop (fields : schema) (self : obj) (validate : bool)
  (acc : list str) : result (list str) :=
  match fields with
  | [] => Ok acc
  | (name, field) :: rest =>
      let attr := getattr self name in
      _ <- (if validate then validate_attr field attr else Ok tt) ;;
      text <- get_text field attr ;;
      to_text_loop rest self validate (acc ++ [text])
  end.

Definition to_text (Schema : schema) (self : obj) (validate : bool)
  : result str :=
  texts <- to_text_loop Schema self validate [] ;;
  Ok (join [c_nl] (filter nonempty texts)).

(** [str(self)] *)
Definition to_str (Schema : schema) (self : obj) : result str :=
  to_text Schema self false.

End Section_.

(** The attributes the engine can render: a date or time field needs a
    value with [strftime] (or a false one, rendered as the empty text), an
    array field a list or a set (or a false value).  The text and amount
    codecs take anything. *)
Definition renders (t : FType) (v : value) : bool :=
  match t with
  | TEXT | FLAG | AMOUNT => true
  | DATE | TIME =>
      negb (truthy v)
      || match v with
         | Atom (ADate _) | Atom (ATime _) | Atom (ADateTime _ _) => true
         | _ => false
         end
  | ARRAY =>
      negb (truthy v)
      || match v with
         | VList _ | VSet _ => true
         | _ => false
         end
  end.

Definition well_typed (Schema : schema) (self : obj) : bool :=
  forallb (fun nf => renders (type (snd nf)) (getattr self (fst nf))) Schema.


(** ** The sections *)

Definition fld (name key : string) (req : Required) (ty : FType)
  : string * Field := (name, mkField (u key) req ty).

Arguments fld (name key)%_string req ty.

Module Header.

(** [re.compile(r'^(.*?)Секция', re.S)] *)
Definition regex : Section_.Meta :=
  Some (Section_.findall_before (u "Секция")).

Definition Schema : schema :=
  [ fld "format_name" "1CClientBankExchange" BOTH FLAG;
    fld "format_version" "ВерсияФормата" BOTH TEXT;
    fld "encoding" "Кодировка" BOTH TEXT;
    fld "sender" "Отправитель" TO_BANK TEXT;
    fld "receiver" "Получатель" FROM_BANK TEXT;
    fld "creation_date" "ДатаСоздания" NONE DATE;
    fld "creation_time" "ВремяСоздания" NONE TIME;
    fld "filter_date_since" "ДатаНачала" BOTH DATE;
    fld "filter_date_till" "ДатаКонца" BOTH DATE;
    fld "filter_account_numbers" "РасчСчет" BOTH ARRAY;
    fld "filter_document_types" "Документ" NONE ARRAY ].

Definition from_text (source_text : str) : result obj :=
  section_text <- Section_.extract_section_text regex source_text ;;
  Section_.from_text Schema section_text.

Definition to_text : obj -> bool -> result str := Section_.to_text Schema.

End Header.

Module Balance.

Definition tag_open : str := u "СекцияРасчСчет".
Definition tag_close : str := u "КонецРасчСчет".

(** [re.compile(r'СекцияРасчСчет(.*?)КонецРасчСчет', re.S)] *)
Definition regex : Section_.Meta :=
  Some (fun s => Section_.findall_between (length s) false tag_open tag_close s).

Definition Schema : schema :=
  [ fld "tag_begin" "СекцияРасчСчет" NONE FLAG;
    fld "date_since" "ДатаНачала" FROM_BANK DATE;
    fld "date_till" "ДатаКонца" NONE DATE;
    fld "account_number" "РасчСчет" FROM_BANK TEXT;
    fld "initial_balance" "НачальныйОстаток" FROM_BANK AMOUNT;
    fld "total_income" "ВсегоПоступило" NONE AMOUNT;
    fld "total_expense" "ВсегоСписано" NONE AMOUNT;
    fld "final_balance" "КонечныйОстаток" NONE AMOUNT;
    fld "tag_end" "КонецРасчСчет" NONE FLAG ].

Definition to_text (self : obj) (validate : bool) : result str :=
  content <- Section_.to_text Schema self validate ;;
  Ok (tag_open ++ [c_nl] ++ content ++ [c_nl] ++ tag_close).

Definition from_text (source_text : str) : result obj :=
  section_text <- Section_.extract_section_text regex source_text ;;
  Section_.from_text Schema section_text.

End Balance.

Module Receipt.

Definition regex : Section_.Meta := None.

Definition Schema : schema :=
  [ fld "date" "КвитанцияДата" NONE DATE;
    fld "time" "КвитанцияВремя" NONE TIME;
    fld "content" "КвитанцияСодержание" NONE TEXT ].

Definition from_text (section_text : span) : result obj :=
  Section_.from_text Schema section_text.

Definition to_text : obj -> bool -> result str := Section_.to_text Schema.

End Receipt.

Module Payer.

Definition regex : Section_.Meta := None.

Definition Schema : schema :=
  [ fld "account" "ПлательщикСчет" BOTH TEXT;
    fld "date_charged" "ДатаСписано" FROM_BANK DATE;
    fld "name" "Плательщик" TO_BANK TEXT;
    fld "inn" "ПлательщикИНН" BOTH TEXT;
    fld "l1_name" "Плательщик1" TO_BANK TEXT;
    fld "l2_account_number" "Плательщик2" NONE TEXT;
    fld "l3_bank" "Плательщик3" NONE TEXT;
    fld "l4_city" "Плательщик4" NONE TEXT;
    fld "account_number" "ПлательщикРасчСчет" TO_BANK TEXT;
    fld "bank_1_name" "ПлательщикБанк1" TO_BANK TEXT;
    fld "bank_2_city" "ПлательщикБанк2" TO_BANK TEXT;
    fld "bank_bic" "ПлательщикБИК" TO_BANK TEXT;
    fld "bank_corr_account" "ПлательщикКорсчет" TO_BANK TEXT ].

Definition from_text (section_text : span) : result obj :=
  Section_.from_text Schema section_text.

Definition to_text : obj -> bool -> result str := Section_.to_text Schema.

End Payer.

Module Receiver.

Definition regex : Section_.Meta := None.

Definition Schema : schema :=
  [ fld "account" "ПолучательСчет" BOTH TEXT;
    fld "date_received" "ДатаПоступило" FROM_BANK TEXT;
    fld "name" "Получатель" TO_BANK TEXT;
    fld "inn" "ПолучательИНН" BOTH TEXT;
    fld "l1_name" "Получатель1" TO_BANK TEXT;
    fld "l2_account_number" "Получатель2" NONE TEXT;
    fld "l3_bank" "Получатель3" NONE TEXT;
    fld "l4_city" "Получатель4" NONE TEXT;
    fld "account_number" "ПолучательРасчСчет" TO_BANK TEXT;
    fld "bank_1_name" "ПолучательБанк1" TO_BANK TEXT;
    fld "bank_2_city" "ПолучательБанк2" TO_BANK TEXT;
    fld "bank_bic" "ПолучательБИК" TO_BANK TEXT;
    fld "bank_corr_account" "ПолучательКорсчет" TO_BANK TEXT ].

Definition from_text (section_text : span) : result obj :=
  Section_.from_text Schema section_text.

Definition to_text : obj -> bool -> result str := Section_.to_text Schema.

End Receiver.

Module Payment.

Definition regex : Section_.Meta := None.

Definition Schema : schema :=
  [ fld "payment_type" "ВидПлатежа" NONE TEXT;
    fld "operation_type" "ВидОплаты" TO_BANK TEXT;
    fld "code" "Код" NONE TEXT;
    fld "purpose" "НазначениеПлатежа" NONE TEXT;
    fld "purpose_l1" "НазначениеПлатежа1" NONE TEXT;
    fld "purpose_l2" "НазначениеПлатежа2" NONE TEXT;
    fld "purpose_l3" "НазначениеПлатежа3" NONE TEXT;
    fld "purpose_l4" "НазначениеПлатежа4" NONE TEXT;
    fld "purpose_l5" "НазначениеПлатежа5" NONE TEXT;
    fld "purpose_l6" "НазначениеПлатежа6" NONE TEXT ].

Definition from_text (section_text : span) : result obj :=
  Section_.from_text Schema section_text.

Definition to_text : obj -> bool -> result str := Section_.to_text Schema.

End Payment.

Module Tax.

Definition regex : Section_.Meta := None.

Definition Schema : schema :=
  [ fld "originator_status" "СтатусСоставителя" BOTH TEXT;
    fld "payer_kpp" "ПлательщикКПП" BOTH TEXT;
    fld "receiver_kpp" "ПолучательКПП" BOTH TEXT;
    fld "kbk" "ПоказательКБК" BOTH TEXT;
    fld "okato" "ОКАТО" BOTH TEXT;
    fld "basis" "ПоказательОснования" BOTH TEXT;
    fld "period" "ПоказательПериода" BOTH TEXT;
    fld "number" "ПоказательНомера" BOTH TEXT;
    fld "date" "ПоказательДаты" BOTH TEXT;
    fld "type" "ПоказательТипа" NONE TEXT ].

Definition from_text (section_text : span) : result obj :=
  Section_.from_text Schema section_text.

Definition to_text : obj -> bool -> result str := Section_.to_text Schema.

End Tax.

Module Special.

Definition regex : Section_.Meta := None.

Definition Schema : schema :=
  [ fld "priority" "Очередность" NONE TEXT;
    fld "term_of_acceptance" "СрокАкцепта" NONE TEXT;
    fld "letter_of_credit_type" "ВидАккредитива" NONE TEXT;
    fld "maturity" "СрокПлатежа" NONE TEXT;
    fld "payment_condition_1" "УсловиеОплаты1" NONE TEXT;
    fld "payment_condition_2" "УсловиеОплаты2" NONE TEXT;
    fld "payment_condition_3" "УсловиеОплаты3" NONE TEXT;
    fld "by_submission" "ПлатежПоПредст" NONE TEXT;
    fld "extra_conditions" "ДополнУсловия" NONE TEXT;
    fld "supplier_account_number" "НомерСчетаПоставщика" NONE TEXT;
    fld "docs_sent_date" "ДатаОтсылкиДок" NONE TEXT ].

Definition from_text (section_text : span) : result obj :=
  Section_.from_text Schema section_text.

Definition to_text : obj -> bool -> result str := Section_.to_text Schema.

End Special.

(** ** class Document *)

(** A document: its own four attributes and the six attached sections,
    each [None] or an instance. *)
Record Document : Type := mkDocument
  { attrs : obj;
    receipt : option obj;
    payer : option obj;
    receiver : option obj;
    payment : option obj;
    tax : option obj;
    special : option obj }.

Module Document.

Definition tag_open : str := u "СекцияДокумент".
Definition tag_close : str := u "КонецДокумента".

(** [re.compile(r'(СекцияДокумент.*?)КонецДокумента', re.S)] *)
Definition regex : Section_.Meta :=
  Some (fun s => Section_.findall_between (length s) true tag_open tag_close s).

Definition Schema : schema :=
  [ fld "document_type" "СекцияДокумент" NONE TEXT;
    fld "number" "Номер" BOTH TEXT;
    fld "date" "Дата" BOTH DATE;
    fld "amount" "Сумма" BOTH AMOUNT ].

(** [Subsections], with the attached instance of each. *)
Definition subsections (self : Document) : list (schema * option obj) :=
  [ (Receipt.Schema, receipt self);
    (Payer.Schema, payer self);
    (Receiver.Schema, receiver self);
    (Payment.Schema, payment self);
    (Tax.Schema, tax self);
    (Special.Schema, special self) ].

Definition from_span (section_text : span) : result Document :=
  o <- Section_.from_text Schema section_text ;;
  receipt <- Receipt.from_text section_text ;;
  payer <- Payer.from_text section_text ;;
  receiver <- Receiver.from_text section_text ;;
  payment <- Payment.from_text section_text ;;
  tax <- Tax.from_text section_text ;;
  special <- Special.from_text section_text ;;
  Ok (mkDocument o (Some receipt) (Some payer) (Some receiver)
        (Some payment) (Some tax) (Some special)).

Definition from_text (source_text : str) : result (list Document) :=
  extracted <- Section_.extract_section_text regex source_text ;;
  let extracted :=
    match extracted with
    | SMany texts => map SText texts
    | one => [one]
    end in
  mapM from_span extracted.

(** [filter(None, [self.receipt, ..., self.special])] *)
Fixpoint present (l : list (schema * option obj)) : list (schema * obj) :=
  match l with
  | [] => []
  | (sch, Some o) :: rest => (sch, o) :: present rest
  | (_, None) :: rest => present rest
  end.

Definition to_text (self : Document) (validate : bool) : result str :=
  content <- Section_.to_text Schema (attrs self) validate ;;
  sections <- mapM (fun x => Section_.to_str (fst x) (snd x))
                   (present (subsections self)) ;;
  Ok (content ++ [c_nl] ++ join [c_nl] (sections ++ [tag_close])).

End Document.

(** ** class Statement *)

Record Statement : Type := mkStatement
  { header : obj; balance : option obj; documents : list Document }.

Module Statement.

Definition from_text (source_text : str) : result Statement :=
  header <- Header.from_text source_text ;;
  balance <- Balance.from_text source_text ;;
  documents <- Document.from_text source_text ;;
  Ok (mkStatement header (Some balance) documents).

(** [Header(format_version=..., ...)]: the keyword arguments, over the
    defaults of [__init__]. *)
Definition new_header (format_version encoding sender creation_date
  creation_time filter_date_since filter_date_till filter_account_numbers
  : value) : obj :=
  setattr (setattr (setattr (setattr (setattr (setattr (setattr (setattr
    new_obj
    "format_version" format_version)
    "encoding" encoding)
    "sender" sender)
    "creation_date" creation_date)
    "creation_time" creation_time)
    "filter_date_since" filter_date_since)
    "filter_date_till" filter_date_till)
    "filter_account_numbers" filter_account_numbers.

(** [d.payer.<name>]: an [AttributeError] when no payer is attached. *)
Definition payer_attr (name : string) (d : Document) : result value :=
  match payer d with
  | Some p => Ok (getattr p name)
  | None => Raise AttributeError
  end.

(** [from_documents]; [today] and [now] are what [date.today()] and
    [datetime.now()] return at the call. *)
Definition from_documents (today : date) (now : date * time) (sender : str)
  (documents : list Document) : result Statement :=
  bics <- mapM (payer_attr "bank_bic") documents ;;
  banks <- py_set bics ;;
  let payments_from_the_only_bank := (length banks =? 1)%nat in
  if negb payments_from_the_only_bank then Raise ValueError_one_bank
  else
    let dates := map (fun doc => getattr (attrs doc) "date") documents in
    since <- py_min dates ;;
    till <- py_max dates ;;
    accounts <- mapM (payer_attr "account_number") documents ;;
    account_set <- py_set accounts ;;
    Ok (mkStatement
          (new_header (VStr (u "1.02")) (VStr (u "Windows")) (VStr sender)
             (Atom (ADate today)) (Atom (ADateTime (fst now) (snd now)))
             since till (VSet account_set))
          None documents).

Definition to_text (self : Statement) (validate : bool) : result str :=
  h <- Header.to_text (header self) validate ;;
  b <- match balance self with
       | Some b => Balance.to_text b validate
       | None => Ok []
       end ;;
  docs <- mapM (fun doc => Document.to_text doc validate) (documents self) ;;
  Ok (join [c_nl; c_nl]
        (filter nonempty ([h; b] ++ docs ++ [u "КонецФайла"]))).

Definition count (self : Statement) : nat := length (documents self).

End Statement.

(** ** Instances used below *)

(** [cls(name=value, ...)]: the keyword arguments over the [None]
    defaults. *)
Definition init (kwargs : list (string * value)) : obj :=
  fold_left (fun o nv => setattr o (fst nv) (snd nv)) kwargs new_obj.

Definition kw (name : string) (text : string) : string * value :=
  (name, VStr (u text)).

Arguments kw (name text)%_string.

(** A payer with every field required to the bank filled in. *)
Definition payer_full : obj :=
  init [ kw "account" "40702810000000000001";
         kw "name" "ООО Ромашка";
         kw "inn" "7701000001";
         kw "l1_name" "ООО Ромашка";
         kw "account_number" "40702810000000000001";
         kw "bank_1_name" "АО Банк";
         kw "bank_2_city" "г. Москва";
         kw "bank_bic" "044525225";
         kw "bank_corr_account" "30101810400000000225" ].

(** The same payer with [account_number] absent. *)
Definition payer_no_account : obj :=
  setattr payer_full "account_number" VNone.

(** A payment order with its four attributes and that payer attached. *)
Definition order_attrs : obj :=
  init [ kw "document_type" "Платежное поручение";
         kw "number" "17";
         ("date"%string, Atom (ADate (mkdate 2020 2 1)));
         ("amount"%string, Atom (ADec (mkDecimal false 10050 (-2)))) ].

Definition order_no_account : Document :=
  mkDocument order_attrs None (Some payer_no_account) None None None None.

(** Two orders of one payer, and a third with no date. *)
Definition order_dated (number : string) (d : date) : Document :=
  mkDocument
    (init [ kw "document_type" "Платежное поручение";
            ("number"%string, VStr (u number));
            ("date"%string, Atom (ADate d));
            ("amount"%string, Atom (ADec (mkDecimal false 10050 (-2)))) ])
    None (Some payer_full) None None None None.

Definition order_a : Document := order_dated "17" (mkdate 2020 2 1).
Definition order_b : Document := order_dated "18" (mkdate 2020 1 15).

Definition order_undated : Document :=
  mkDocument
    (init [ kw "document_type" "Платежное поручение"; kw "number" "19" ])
    None (Some payer_full) None None None None.

Definition a_day : date := mkdate 2020 3 1.
Definition a_moment : date * time := (a_day, mktime 12 0 0 0).

(** ** Predicates of the statements *)

(** The spellings [strptime] accepts for a number below 100: two digits,
    or the bare digit below ten; a day may also be padded with a blank. *)
Definition two_digit_texts (n : N) : list str :=
  pad2 n :: (if (n <? 10)%N then [digits_of n] else []).

Definition day_texts (n : N) : list str :=
  two_digit_texts n
  ++ (if (n <? 10)%N then [c_space :: digits_of n] else []).

Definition year_text (y : N) : str := pad_left 4 (digits_of y).

Definition date_texts (d : date) : list str :=
  flat_map (fun dd =>
              map (fun mm => dd ++ [c_dot] ++ mm ++ [c_dot]
                             ++ year_text (year d))
                  (two_digit_texts (month d)))
           (day_texts (day d)).

Definition time_texts (t : time) : list str :=
  flat_map (fun hh =>
              flat_map (fun mm =>
                          map (fun ss => hh ++ [c_colon] ++ mm ++ [c_colon]
                                         ++ ss)
                              (two_digit_texts (second t)))
                       (two_digit_texts (minute t)))
           (two_digit_texts (hour t)).

(** The fixed formats read strictly: DD.MM.YYYY and HH:MM:SS, digits
    only. *)
Definition exact_date_text (s : str) : bool :=
  match s with
  | [a; b; p; c; d; q; e; f; g; h] =>
      forallb is_digit [a; b; c; d; e; f; g; h]
      && (p =? c_dot)%N && (q =? c_dot)%N
  | _ => false
  end.

Definition exact_time_text (s : str) : bool :=
  match s with
  | [a; b; p; c; d; q; e; f] =>
      forallb is_digit [a; b; c; d; e; f]
      && (p =? c_colon)%N && (q =? c_colon)%N
  | _ => false
  end.

Definition is_text_or_none (v : value) : bool :=
  match v with
  | Atom ANone | Atom (AStr _) => true
  | _ => false
  end.

Definition is_date (v : value) : bool :=
  match v with
  | Atom (ADate _) => true
  | _ => false
  end.

(** [d.payer.<name>] where a payer is attached. *)
Definition payer_field (name : string) (d : Document) : value :=
  match payer d with
  | Some p => getattr p name
  | None => VNone
  end.

Arguments payer_field name%_string d.

Definition doc_date (d : Document) : value := getattr (attrs d) "date".

(** A document [from_documents] can work on: a payer is attached, its
    bank identifier and account number are texts (or absent), and the
    document has a date. *)
Definition outbound_ready (d : Document) : bool :=
  match payer d with
  | Some p => is_text_or_none (getattr p "bank_bic")
              && is_text_or_none (getattr p "account_number")
  | None => false
  end
  && is_date (doc_date d).

Definition date_leb (a b : date) : bool := negb (date_ltb b a).

(** ** Predicates of the round trips

    What follows is not code of the library: these are the values, keys
    and texts the round-trip properties are stated on. *)

(** [pat] does not occur in [s]. *)
Definition no_sub (pat s : str) : Prop := find_sub pat s = None.

(** A decimal [str] writes in plain notation, without an exponent. *)
Definition plain_decimal (d : Decimal) : bool :=
  ((dexp d <=? 0)
   && (-6 <? dexp d + Z.of_nat (length (digits_of (dcoeff d)))))%Z.

Definition sign_text (d : Decimal) : str :=
  if dsign d then [c_minus] else [].

(** The characters of dates, times and plain amounts: digits, period,
    colon, minus. *)
Definition numeric_char (c : char) : bool :=
  is_digit c || (c =? c_dot)%N || (c =? c_colon)%N || (c =? c_minus)%N.

Definition single_line (s : str) : bool := negb (existsb (N.eqb c_nl) s).

Definition free_of (pat s : str) : bool :=
  match find_sub pat s with
  | None => true
  | Some _ => false
  end.

(** A text that survives a line of the format: not empty, no white space
    around it, no line break, and the end marker of a document nowhere in
    it. *)
Definition clean_text (s : str) : bool :=
  nonempty s && str_eqb (strip s) s && single_line s
  && free_of Document.tag_close s.

(** A value its codec writes and reads back: an absent text, date or time;
    a clean text; a date from the year 1000 on; a time of whole seconds; an
    amount in plain notation. *)
Definition clean (t : FType) (v : value) : bool :=
  match t, v with
  | TEXT, Atom ANone | DATE, Atom ANone | TIME, Atom ANone => true
  | TEXT, Atom (AStr s) => clean_text s
  | DATE, Atom (ADate d) => date_valid d && (1000 <=? year d)%N
  | TIME, Atom (ATime t) => time_valid t && (microsecond t =? 0)%N
  | AMOUNT, Atom (ADec d) => plain_decimal d
  | _, _ => false
  end.

(** Every attribute of the schema holds a clean value. *)
Definition wf_section (S : schema) (o : obj) : bool :=
  forallb (fun nf => clean (type (snd nf)) (getattr o (fst nf))) S.

Definition wf_attached (so : schema * option obj) : bool :=
  match snd so with
  | Some o => wf_section (fst so) o
  | None => true
  end.

Definition populated (v : value) : bool :=
  match v with
  | Atom ANone => false
  | _ => true
  end.

(** A document whose four attributes are present and clean, and whose
    attached sections hold clean values. *)
Definition wf_document (d : Document) : bool :=
  wf_section Document.Schema (attrs d)
  && forallb (fun nf => populated (getattr (attrs d) (fst nf)))
       Document.Schema
  && forallb wf_attached (Document.subsections d).

(** Equality field for field, on the attributes of a schema. *)
Definition same_fields (S : schema) (a b : obj) : Prop :=
  forall nf, In nf S -> getattr a (fst nf) = getattr b (fst nf).

(** An absent section reads as one with every attribute absent. *)
Definition attached_or_blank (oo : option obj) : obj :=
  match oo with
  | Some o => o
  | None => new_obj
  end.

Definition same_section (S : schema) (a b : option obj) : Prop :=
  same_fields S (attached_or_blank a) (attached_or_blank b).

(** Two documents equal field for field: the four attributes and every
    field of each of the six sub-sections. *)
Definition equivalent (a b : Document) : Prop :=
  same_fields Document.Schema (attrs a) (attrs b)
  /\ same_section Receipt.Schema (receipt a) (receipt b)
  /\ same_section Payer.Schema (payer a) (payer b)
  /\ same_section Receiver.Schema (receiver a) (receiver b)
  /\ same_section Payment.Schema (payment a) (payment b)
  /\ same_section Tax.Schema (tax a) (tax b)
  /\ same_section Special.Schema (special a) (special b).

(** A key that stands for itself on a line: no equals sign, no line break,
    and the end marker of a document nowhere in it. *)
Definition good_key (k : str) : bool :=
  negb (existsb (N.eqb c_eq) k) && single_line k
  && free_of Document.tag_close k.

Fixpoint distinct (l : list str) : bool :=
  match l with
  | [] => true
  | x :: t => negb (existsb (str_eqb x) t) && distinct t
  end.

(** The schemas [Document.from_text] reads from one block. *)
Definition all_schemas : list schema :=
  [ Document.Schema; Receipt.Schema; Payer.Schema; Receiver.Schema;
    Payment.Schema; Tax.Schema; Special.Schema ].

Definition keys_of (S : schema) : list str := map (fun nf => key (snd nf)) S.

Definition all_keys : list str := flat_map keys_of all_schemas.

(** The line of a field whose value is encoded as [enc]. *)
Definition field_line (f : Field) (enc : str) : str :=
  if negb (to_bank_in (required f)) && negb (nonempty enc) then []
  else key f ++ c_eq :: enc.

(** The occurrences of its key that line gives. *)
Definition field_found (f : Field) (enc : str) : list str :=
  if negb (to_bank_in (required f)) && negb (nonempty enc) then []
  else [enc].

Definition encoded (f : Field) (v : value) : str :=
  match cast_to_text (type f) v with
  | Ok enc => enc
  | Raise _ => []
  end.

Definition section_lines (S : schema) (o : obj) : list str :=
  map (fun nf => field_line (snd nf) (encoded (snd nf) (getattr o (fst nf))))
      S.

(** The text of a section of clean values. *)
Definition section_text (S : schema) (o : obj) : str :=
  join [c_nl] (filter nonempty (section_lines S o)).

Definition section := (schema * option obj)%type.

(** The document itself, then its sub-sections. *)
Definition sections_of (d : Document) : list section :=
  (Document.Schema, Some (attrs d)) :: Document.subsections d.

(** The occurrences of the key [k] in the text of a section. *)
Definition found_of (k : str) (o : obj) (S : schema) : list str :=
  flat_map (fun nf =>
              if str_eqb k (key (snd nf))
              then field_found (snd nf)
                     (encoded (snd nf) (getattr o (fst nf)))
              else [])
           S.

Definition found_in (k : str) (so : section) : list str :=
  match snd so with
  | Some o => found_of k o (fst so)
  | None => []
  end.

Definition attached_texts (L : list section) : list str :=
  map (fun x => section_text (fst x) (snd x)) (Document.present L).

(** The text of a well-formed document: what precedes its end marker, what
    the pattern of [Document] captures, and the whole. *)
Definition document_body (d : Document) : str :=
  join [c_nl] (attached_texts (sections_of d)).

Definition document_span (d : Document) : str := document_body d ++ [c_nl].

Definition document_text (d : Document) : str :=
  document_body d ++ c_nl :: Document.tag_close.

(** What separates the parts of a statement. *)
Definition blank_line : str := [c_nl; c_nl].

(** The balance part of [Statement.to_text], validation on. *)
Definition balance_text (st : Statement) : result str :=
  match balance st with
  | Some b => Balance.to_text b true
  | None => Ok []
  end.

(** What [Balance.to_text] puts around the text of the section. *)
Definition balance_block (content : str) : str :=
  Balance.tag_open ++ [c_nl] ++ content ++ [c_nl] ++ Balance.tag_close.

(** The marker the pattern of [Header] stops at. *)
Definition section_marker : str := u "Секция".

(** DD.MM.YYYY and HH:MM:SS, as [strftime] writes them. *)
Definition two_digits (n : N) : bool :=
  match pad2 n with
  | [a; b] => is_digit a && is_digit b
  | _ => false
  end.

Definition date_text (d : date) : str :=
  pad2 (day d) ++ [c_dot] ++ pad2 (month d) ++ [c_dot] ++ year_text (year d).

Definition time_text (t : time) : str :=
  pad2 (hour t) ++ [c_colon] ++ pad2 (minute t) ++ [c_colon]
  ++ pad2 (second t).

(** A time of day without its microseconds. *)
Definition whole_second (t : time) : time :=
  mktime (hour t) (minute t) (second t) 0.

(** What is left of an amount text once every comma and period is gone. *)
Definition sign_or_digit (c : N) : bool := is_digit c || (c =? c_minus)%N.

(** The number of periods of a text. *)
Definition periods (s : str) : nat := length (filter (N.eqb c_dot) s).

(** The text of a call that returned one. *)
Definition text_of (r : result str) : str :=
  match r with
  | Ok s => s
  | Raise _ => []
  end.

(** Further instances: the header [from_documents] builds for the two
    orders, a balance as a bank reports it, and statements with them. *)
Definition header_ab : obj :=
  Statement.new_header (VStr (u "1.02")) (VStr (u "Windows")) (VStr (u "1C"))
    (Atom (ADate a_day)) (Atom (ADateTime (fst a_moment) (snd a_moment)))
    (Atom (ADate (mkdate 2020 1 15))) (Atom (ADate (mkdate 2020 2 1)))
    (VSet [AStr (u "40702810000000000001")]).

Definition statement_ab : Statement :=
  mkStatement header_ab None [order_a; order_b].

Definition balance_full : obj :=
  init [ ("date_since"%string, Atom (ADate (mkdate 2020 1 15)));
         ("date_till"%string, Atom (ADate (mkdate 2020 2 1)));
         kw "account_number" "40702810000000000001";
         ("initial_balance"%string, Atom (ADec (mkDecimal false 100000 (-2))));
         ("total_income"%string, Atom (ADec (mkDecimal false 0 (-2))));
         ("total_expense"%string, Atom (ADec (mkDecimal false 20100 (-2))));
         ("final_balance"%string, Atom (ADec (mkDecimal false 79900 (-2)))) ].

Definition statement_bank : Statement :=
  mkStatement header_ab (Some balance_full) [order_a; order_b].

(** * Properties *)

(** ** The exception monad *)

Lemma bind_Ok_inv {A B} (r : result A) (k : A -> result B) (b : B) :
  bind r k = Ok b -> exists a, r = Ok a /\ k a = Ok b.
Proof.
  destruct r as [a|e]; simpl; intros H; [eauto | discriminate].
Qed.

Lemma bind_Raise_inv {A B} (r : result A) (k : A -> result B) (e : exn) :
  bind r k = Raise e -> r = Raise e \/ exists a, r = Ok a /\ k a = Raise e.
Proof.
  destruct r as [a|e']; simpl; intros H;
    [right; eauto | left; injection H as ->; reflexivity].
Qed.

Lemma mapM_Forall2 {A B} (f : A -> result B) (l : list A) (bs : list B) :
  mapM f l = Ok bs <-> Forall2 (fun a b => f a = Ok b) l bs.
Proof.
  revert bs; induction l as [|a l IH]; intros bs; simpl.
  - split; intros H; [injection H as <-; constructor | inversion H; reflexivity].
  - split; intros H.
    + apply bind_Ok_inv in H as (b & Hb & H).
      apply bind_Ok_inv in H as (bs' & Hbs & H).
      injection H as <-. constructor; [exact Hb | apply IH, Hbs].
    + inversion H as [|? b ? bs' Hb Hbs]; subst.
      rewrite Hb; simpl. apply IH in Hbs. rewrite Hbs. reflexivity.
Qed.

Lemma mapM_total {A B} (f : A -> result B) (l : list A) :
  (forall a, In a l -> exists b, f a = Ok b) -> exists bs, mapM f l = Ok bs.
Proof.
  induction l as [|a l IH]; intros H; simpl; [eauto|].
  destruct (H a (or_introl eq_refl)) as (b & ->); simpl.
  destruct IH as (bs & ->); [intros; apply H; right; assumption|].
  simpl; eauto.
Qed.

(** ** Amounts (C2) *)

(** C2 (the code departs from the claim): the three amounts of the
    specification, run through [Cast.str_to_amount].  The periods are
    counted in the text as received, before the comma becomes a period, so
    with no period in the input the count passed to [replace] is -1 and
    every period is removed, and with one period nothing is collapsed:
    ["1 234 567,89"] decodes to 123456789, ["1'234.567,89"] is refused by
    [Decimal], and only ["1234567.89"] decodes to 1234567.89. *)
Theorem str_to_amount_spec_examples :
  Cast.str_to_amount (u "1 234 567,89")
    = Ok (Atom (ADec (mkDecimal false 123456789 0)))
  /\ Cast.str_to_amount (u "1'234.567,89") = Raise InvalidOperation
  /\ Cast.str_to_amount (u "1234567.89")
    = Ok (Atom (ADec (mkDecimal false 123456789 (-2)))).
Proof. repeat split; vm_compute; reflexivity. Qed.

(** What reaches [Decimal] is over digits, period and minus. *)
Lemma replace_all_Forall (P : char -> Prop) old new s :
  Forall P new -> Forall P s -> Forall P (replace_all old new s).
Proof.
  intros Hn; induction 1 as [|c t Hc Ht IH]; simpl; [constructor|].
  destruct (c =? old)%N; [apply Forall_app; split; assumption|].
  constructor; assumption.
Qed.

Lemma replace_first_Forall (P : char -> Prop) n old new s :
  Forall P new -> Forall P s -> Forall P (replace_first n old new s).
Proof.
  intros Hn Hs; revert n; induction Hs as [|c t Hc Ht IH]; intros n.
  - destruct n; constructor.
  - destruct n; simpl; [constructor; assumption|].
    destruct (c =? old)%N; [apply Forall_app; split; [assumption | apply IH]|].
    constructor; [assumption | apply IH].
Qed.

Definition amount_char (c : char) : Prop :=
  is_digit c = true \/ c = c_dot \/ c = c_minus.

Lemma str_to_amount_alphabet (obj : str) :
  Forall amount_char
    (str_replace c_dot [] (count_char c_dot obj - 1)
       (replace_all c_comma [c_dot]
          (replace_all c_space []
             (replace_all c_apos [] (Cast.re_sub_amount obj))))).
Proof.
  assert (H0 : Forall (fun c => amount_char c \/ c = c_comma)
                 (Cast.re_sub_amount obj)).
  { unfold Cast.re_sub_amount. apply Forall_forall; intros c Hc.
    apply filter_In in Hc as [_ Hc].
    repeat (apply orb_true_iff in Hc as [Hc|Hc]);
      try (apply N.eqb_eq in Hc); unfold amount_char; auto. }
  assert (H1 : Forall (fun c => amount_char c \/ c = c_comma)
                 (replace_all c_space []
                    (replace_all c_apos [] (Cast.re_sub_amount obj)))).
  { repeat apply replace_all_Forall; auto. }
  assert (H2 : Forall amount_char
                 (replace_all c_comma [c_dot]
                    (replace_all c_space []
                       (replace_all c_apos [] (Cast.re_sub_amount obj))))).
  { revert H1. generalize (replace_all c_space []
                    (replace_all c_apos [] (Cast.re_sub_amount obj))).
    induction 1 as [|c t Hc Ht IH]; simpl; [constructor|].
    destruct (c =? c_comma)%N eqn:E.
    - constructor; [right; left; reflexivity | exact IH].
    - constructor; [|exact IH]. destruct Hc as [Hc|Hc]; [exact Hc|].
      apply N.eqb_neq in E; contradiction. }
  unfold str_replace. destruct (_ <? 0)%Z.
  - apply replace_all_Forall; auto.
  - apply replace_first_Forall; auto.
Qed.

(** ** The section engine: rendering (C4, C5, C8, C10) *)

Definition field_text (self : obj) (nf : string * Field) (t : str) : Prop :=
  Section_.get_text (snd nf) (getattr self (fst nf)) = Ok t.

Lemma renders_cast (t : FType) (v : value) :
  renders t v = true -> exists s, cast_to_text t v = Ok s.
Proof.
  destruct t; simpl; intros H;
    unfold Cast.text_to_str, Cast.date_to_str, Cast.time_to_str,
      Cast.amount_to_str;
    try (destruct (truthy v); eauto; fail).
  all: destruct (truthy v); simpl in H; eauto;
    destruct v as [[]| |]; try discriminate; simpl; eauto.
Qed.

Lemma get_line_total (f : Field) (v : value) :
  (exists s, cast_to_text (type f) v = Ok s) ->
  exists s, Section_.get_line f v = Ok s.
Proof.
  intros (s & Hs). unfold Section_.get_line. rewrite Hs; simpl.
  destruct (_ && _); eauto.
Qed.

Lemma renders_get_text (f : Field) (v : value) :
  renders (type f) v = true -> exists s, Section_.get_text f v = Ok s.
Proof.
  intros H. unfold Section_.get_text.
  destruct (truthy v && FType_eqb (type f) ARRAY) eqn:E.
  - apply andb_true_iff in E as [Ht Ha].
    destruct (type f) eqn:Ety; try discriminate.
    assert (Hi : exists items, py_iter v = Ok items).
    { simpl in H. rewrite Ht in H. simpl in H.
      destruct v as [[]| |]; try discriminate; simpl; eauto. }
    destruct Hi as (items & ->); simpl.
    destruct (mapM_total (fun item => Section_.get_line f (Atom item)) items)
      as (lines & ->); [|simpl; eauto].
    intros a _. apply get_line_total. rewrite Ety; simpl.
    unfold Cast.text_to_str. destruct (truthy a); eauto.
  - apply get_line_total, renders_cast, H.
Qed.

Lemma to_text_loop_Ok fields self validate acc r :
  Section_.to_text_loop fields self validate acc = Ok r ->
  exists texts, r = acc ++ texts /\ Forall2 (field_text self) fields texts.
Proof.
  revert acc; induction fields as [|[name f] fields IH]; intros acc H;
    simpl in H.
  - injection H as <-. exists []. rewrite app_nil_r. split; [reflexivity | constructor].
  - apply bind_Ok_inv in H as (_ & _ & H).
    apply bind_Ok_inv in H as (t & Ht & H).
    apply IH in H as (texts & -> & HF).
    exists (t :: texts). rewrite <- app_assoc. split; [reflexivity|].
    constructor; [exact Ht | exact HF].
Qed.

Lemma to_text_loop_false fields self acc :
  well_typed fields self = true ->
  exists texts, Section_.to_text_loop fields self false acc = Ok (acc ++ texts).
Proof.
  revert acc; induction fields as [|[name f] fields IH]; intros acc H; simpl.
  - exists []. rewrite app_nil_r. reflexivity.
  - simpl in H. apply andb_true_iff in H as [Hf H].
    destruct (renders_get_text f _ Hf) as (t & ->); simpl.
    destruct (IH (acc ++ [t]) H) as (texts & ->).
    exists (t :: texts). rewrite <- app_assoc. reflexivity.
Qed.




Example payer_without_account_refused :
  Payer.to_text payer_no_account true
  = Raise (ValueError_required (u "ПлательщикРасчСчет")).
Proof. vm_compute. reflexivity. Qed.


(** The overriding [to_text] of Balance and Document pass the gate's
    verdict on unchanged. *)
Lemma to_text_gate_overrides (e : exn) :
  (forall self, Section_.to_text Balance.Schema self true = Raise e ->
                Balance.to_text self true = Raise e)
  /\ (forall d, Section_.to_text Document.Schema (attrs d) true = Raise e ->
                Document.to_text d true = Raise e).
Proof.
  split; intros x H; [unfold Balance.to_text | unfold Document.to_text];
    rewrite H; reflexivity.
Qed.

(** *** Empty fields (C5) *)

Lemma lstrip_nil (s : str) : lstrip s = [] -> forallb is_space s = true.
Proof.
  induction s as [|c s IH]; simpl; [reflexivity|].
  destruct (is_space c); [exact IH | discriminate].
Qed.

Lemma lstrip_head (s : str) c t : lstrip s = c :: t -> is_space c = false.
Proof.
  induction s as [|x s IH]; simpl; [discriminate|].
  destruct (is_space x) eqn:E; [exact IH|].
  intros H; injection H as <- <-. exact E.
Qed.

Lemma forallb_rev {A} (p : A -> bool) (l : list A) :
  forallb p (rev l) = forallb p l.
Proof.
  induction l as [|a l IH]; simpl; [reflexivity|].
  rewrite forallb_app, IH. simpl. rewrite andb_true_r. apply andb_comm.
Qed.

Lemma strip_nil (s : str) : strip s = [] -> forallb is_space s = true.
Proof.
  unfold strip, rstrip. intros H.
  assert (H1 : lstrip (rev (lstrip s)) = []).
  { destruct (lstrip (rev (lstrip s))) as [|c t]; [reflexivity|].
    simpl in H. destruct (rev t); discriminate. }
  apply lstrip_nil in H1. rewrite forallb_rev in H1.
  destruct (lstrip s) as [|c t] eqn:E; [apply lstrip_nil, E|].
  apply lstrip_head in E. simpl in H1. rewrite E in H1. discriminate.
Qed.

(** The text of a non-empty list or set is never empty. *)
Lemma container_text_nonempty (t : FType) (v : value) :
  match v with VList _ | VSet _ => True | _ => False end ->
  truthy v = true -> cast_to_text ARRAY v <> Ok [].
Proof.
  intros Hv Ht H. simpl in H. unfold Cast.text_to_str in H.
  rewrite Ht in H. injection H as H. apply strip_nil in H.
  destruct v as [a|[|a l]|[|a l]]; try contradiction; try discriminate;
    simpl in H; discriminate.
Qed.

Definition empty_line (f : Field) : str :=
  if to_bank_in (required f)
  then (if FType_eqb (type f) FLAG then key f else key f ++ [c_eq])
  else [].

Lemma get_text_empty (f : Field) (v : value) :
  renders (type f) v = true ->
  cast_to_text (type f) v = Ok [] ->
  Section_.get_text f v = Ok (empty_line f).
Proof.
  intros Hr Hc. unfold Section_.get_text.
  assert (E : truthy v && FType_eqb (type f) ARRAY = false).
  { destruct (FType_eqb (type f) ARRAY) eqn:Ea; [|apply andb_false_r].
    destruct (type f) eqn:Ety; try discriminate.
    destruct (truthy v) eqn:Ht; [|reflexivity].
    exfalso. simpl in Hr. rewrite Ht in Hr. simpl in Hr.
    apply (container_text_nonempty ARRAY v); try assumption.
    destruct v as [a| |]; [discriminate | exact I | exact I]. }
  rewrite E. unfold Section_.get_line, empty_line. rewrite Hc; simpl.
  destruct (to_bank_in (required f)); simpl; reflexivity.
Qed.

(** C5 as the code has it: on an instance whose attributes the codecs can
    render, serializing with [validate=False] succeeds; the output is the
    field texts in schema order, the empty ones dropped, joined by line
    breaks; and a field whose encoded value is empty contributes nothing
    when it is not required to the bank, and the line [key=] (the bare key
    for a flag) when it is. *)
Theorem to_text_unvalidated (Schema : schema) (self : obj) :
  well_typed Schema self = true ->
  exists texts,
    Section_.to_text Schema self false
      = Ok (join [c_nl] (filter nonempty texts))
    /\ Forall2 (fun nf t =>
                  field_text self nf t
                  /\ (cast_to_text (type (snd nf)) (getattr self (fst nf))
                      = Ok [] -> t = empty_line (snd nf)))
               Schema texts.
Proof.
  intros Hwt.
  destruct (to_text_loop_false Schema self [] Hwt) as (texts & Hl).
  exists texts. unfold Section_.to_text. rewrite Hl. simpl.
  split; [reflexivity|].
  apply to_text_loop_Ok in Hl as (texts' & Heq & HF). simpl in Heq.
  subst texts'. unfold well_typed in Hwt. rewrite forallb_forall in Hwt.
  clear - HF Hwt. induction HF as [|nf t fields texts Hnf HF IH];
    constructor.
  - split; [exact Hnf|]. intros Hc.
    pose proof (get_text_empty (snd nf) _ (Hwt nf (or_introl eq_refl)) Hc)
      as H.
    unfold field_text in Hnf. congruence.
  - apply IH. intros x Hx. apply Hwt. right. exact Hx.
Qed.

Lemma to_text_unvalidated_witness :
  well_typed Payer.Schema payer_no_account = true
  /\ exists texts,
       Section_.to_text Payer.Schema payer_no_account false
         = Ok (join [c_nl] (filter nonempty texts))
       /\ Forall2 (fun nf t =>
                     field_text payer_no_account nf t
                     /\ (cast_to_text (type (snd nf))
                           (getattr payer_no_account (fst nf)) = Ok []
                         -> t = empty_line (snd nf)))
                  Payer.Schema texts.
Proof.
  split; [reflexivity|].
  apply (to_text_unvalidated Payer.Schema payer_no_account). reflexivity.
Defined.

(** C5 as stated fails: the payer with [account_number] absent, serialized
    with [validate=False], still carries the line of that field, with an
    empty value. *)
Lemma empty_required_field_is_emitted :
  exists text,
    Payer.to_text payer_no_account false = Ok text
    /\ In (u "ПлательщикРасчСчет=") (split_lines text).
Proof.
  eexists. split; [vm_compute; reflexivity|]. vm_compute. tauto.
Qed.

(** The balance of the specification's end-to-end example: an absent
    amount is rendered as the text [None]. *)
Example balance_absent_amount :
  Balance.to_text
    (init [("initial_balance"%string,
            Atom (ADec (mkDecimal false 100000 (-2))))]) false
  = Ok (u "СекцияРасчСчет
НачальныйОстаток=1000.00
ВсегоПоступило=None
ВсегоСписано=None
КонечныйОстаток=None
КонецРасчСчет").
Proof. vm_compute. reflexivity. Qed.

(** *** Emission order (C8) *)

(** [out] is the text of the fields of [Schema] in declaration order, the
    empty ones dropped, one line break between two texts. *)
Definition rendered (Schema : schema) (self : obj) (out : str) : Prop :=
  exists texts,
    Forall2 (field_text self) Schema texts
    /\ out = join [c_nl] (filter nonempty texts).

Lemma to_text_rendered Schema self validate out :
  Section_.to_text Schema self validate = Ok out -> rendered Schema self out.
Proof.
  unfold Section_.to_text. intros H.
  apply bind_Ok_inv in H as (texts & Hl & H). injection H as <-.
  apply to_text_loop_Ok in Hl as (texts' & -> & HF).
  exists texts'. split; [exact HF | reflexivity].
Qed.

Lemma join_mid (sep : str) (a b : list str) (x : str) :
  exists pre post, join sep (a ++ x :: b) = pre ++ x ++ post.
Proof.
  induction a as [|y a IH]; simpl.
  - exists []. destruct b; [exists []; rewrite app_nil_r | eexists];
      reflexivity.
  - destruct IH as (pre & post & IH).
    destruct (a ++ x :: b) eqn:E; [destruct a; discriminate|].
    rewrite IH. exists (y ++ sep ++ pre), post.
    rewrite <- !app_assoc. reflexivity.
Qed.

Lemma join_two (sep : str) (a b c : list str) (x y : str) :
  exists pre mid post,
    join sep (a ++ x :: b ++ y :: c) = pre ++ x ++ mid ++ y ++ post.
Proof.
  destruct (join_mid sep b c y) as (p2 & q2 & H2).
  induction a as [|z a IH]; simpl.
  - destruct (b ++ y :: c) eqn:E; [destruct b; discriminate|].
    rewrite H2. exists [], (sep ++ p2), q2. simpl.
    rewrite <- !app_assoc. reflexivity.
  - destruct IH as (pre & mid & post & IH).
    destruct (a ++ x :: b ++ y :: c) eqn:E; [destruct a; discriminate|].
    rewrite IH. exists (z ++ sep ++ pre), mid, post.
    rewrite <- !app_assoc. reflexivity.
Qed.

(** Two fields with non-empty texts appear in the output in the order of
    their declaration. *)
Lemma rendered_in_order s1 s2 s3 f g self out :
  rendered (s1 ++ f :: s2 ++ g :: s3) self out ->
  exists tf tg,
    field_text self f tf /\ field_text self g tg
    /\ (nonempty tf = true -> nonempty tg = true ->
        exists pre mid post, out = pre ++ tf ++ mid ++ tg ++ post).
Proof.
  intros (texts & HF & ->).
  apply Forall2_app_inv_l in HF as (t1 & r1 & H1 & HF & ->).
  inversion HF as [|? tf ? r2 Hf HF2]; subst.
  apply Forall2_app_inv_l in HF2 as (t2 & r3 & H2 & HF3 & ->).
  inversion HF3 as [|? tg ? t3 Hg H3]; subst.
  exists tf, tg. repeat split; try assumption.
  intros Ef Eg. rewrite filter_app. simpl. rewrite Ef.
  rewrite filter_app. simpl. rewrite Eg. apply join_two.
Qed.

(** C8: [Section.to_text] emits the non-empty field texts in schema
    declaration order, and [Document.to_text] emits the flat fields, then
    each attached section (its field lines alone, rendered the same way) in
    the order Receipt, Payer, Receiver, Payment, Tax, Special, then the
    end-of-document marker line. *)
Theorem emission_order :
  (forall Schema self validate out,
      Section_.to_text Schema self validate = Ok out ->
      rendered Schema self out)
  /\ (forall d validate out,
         Document.to_text d validate = Ok out ->
         exists flat sections,
           rendered Document.Schema (attrs d) flat
           /\ Forall2 (fun so t => rendered (fst so) (snd so) t)
                (Document.present
                   [ (Receipt.Schema, receipt d); (Payer.Schema, payer d);
                     (Receiver.Schema, receiver d);
                     (Payment.Schema, payment d); (Tax.Schema, tax d);
                     (Special.Schema, special d) ])
                sections
           /\ out = flat ++ [c_nl]
                    ++ join [c_nl] (sections ++ [u "КонецДокумента"])).
Proof.
  split; [exact to_text_rendered|].
  intros d validate out H. unfold Document.to_text in H.
  apply bind_Ok_inv in H as (flat & Hflat & H).
  apply bind_Ok_inv in H as (sections & Hs & H). injection H as <-.
  exists flat, sections. split; [eapply to_text_rendered, Hflat|].
  split; [|reflexivity].
  apply mapM_Forall2 in Hs. unfold Document.subsections in Hs.
  revert Hs. apply Forall2_impl. intros so t Hso.
  eapply to_text_rendered, Hso.
Qed.

Lemma emission_order_witness :
  exists out,
    Document.to_text order_no_account true = Ok out
    /\ exists flat sections,
         rendered Document.Schema (attrs order_no_account) flat
         /\ Forall2 (fun so t => rendered (fst so) (snd so) t)
              [(Payer.Schema, payer_no_account)] sections
         /\ out = flat ++ [c_nl]
                  ++ join [c_nl] (sections ++ [u "КонецДокумента"]).
Proof.
  eexists. split; [vm_compute; reflexivity|].
  apply (proj2 emission_order order_no_account true).
  vm_compute. reflexivity.
Defined.

(** *** Validation stops at the document's own fields (C10) *)

Lemma mapM_Raise_inv {A B} (f : A -> result B) (l : list A) (e : exn) :
  mapM f l = Raise e -> exists a, In a l /\ f a = Raise e.
Proof.
  induction l as [|a l IH]; simpl; intros H; [discriminate|].
  apply bind_Raise_inv in H as [H|(b & _ & H)]; [eauto|].
  apply bind_Raise_inv in H as [H|(bs & _ & H)]; [|discriminate].
  destruct (IH H) as (x & Hx & Hfx). eauto.
Qed.

Lemma cast_to_text_not_required t v k :
  cast_to_text t v <> Raise (ValueError_required k).
Proof.
  destruct t; simpl;
    unfold Cast.text_to_str, Cast.date_to_str, Cast.time_to_str,
      Cast.amount_to_str, Cast.py_strftime;
    destruct (truthy v); try discriminate;
    destruct v as [[]| |]; discriminate.
Qed.

Lemma get_line_not_required f v k :
  Section_.get_line f v <> Raise (ValueError_required k).
Proof.
  unfold Section_.get_line. intros H.
  apply bind_Raise_inv in H as [H|(s & _ & H)].
  - eapply cast_to_text_not_required, H.
  - destruct (_ && _); discriminate.
Qed.

Lemma get_text_not_required f v k :
  Section_.get_text f v <> Raise (ValueError_required k).
Proof.
  unfold Section_.get_text. intros H. destruct (_ && _).
  - apply bind_Raise_inv in H as [H|(items & _ & H)].
    + destruct v as [[]| |]; discriminate.
    + apply bind_Raise_inv in H as [H|(ls & _ & H)]; [|discriminate].
      apply mapM_Raise_inv in H as (a & _ & H).
      eapply get_line_not_required, H.
  - eapply get_line_not_required, H.
Qed.

(** Whatever [validate=True] returns, [validate=False] returns too. *)
Lemma to_text_loop_validated fields self acc r :
  Section_.to_text_loop fields self true acc = Ok r ->
  Section_.to_text_loop fields self false acc = Ok r.
Proof.
  revert acc; induction fields as [|[name f] fields IH]; intros acc H;
    simpl in *; [exact H|].
  apply bind_Ok_inv in H as (_ & _ & H).
  apply bind_Ok_inv in H as (t & Ht & H).
  rewrite Ht; simpl. apply IH, H.
Qed.

Lemma to_text_validated Schema self out :
  Section_.to_text Schema self true = Ok out ->
  Section_.to_text Schema self false = Ok out.
Proof.
  unfold Section_.to_text. intros H.
  apply bind_Ok_inv in H as (texts & Hl & H).
  rewrite (to_text_loop_validated _ _ _ Hl). exact H.
Qed.

(** A validation error names a field of the schema; without validation
    there is none. *)
Lemma to_text_loop_required fields self validate acc k :
  Section_.to_text_loop fields self validate acc
  = Raise (ValueError_required k) ->
  validate = true /\ In k (map (fun nf => key (snd nf)) fields).
Proof.
  revert acc; induction fields as [|[name f] fields IH]; intros acc H;
    simpl in H; [discriminate|].
  apply bind_Raise_inv in H as [H|(_ & _ & H)].
  - destruct validate; [|discriminate]. split; [reflexivity|].
    unfold Section_.validate_attr in H.
    apply bind_Raise_inv in H as [H|(s & _ & H)].
    + exfalso. eapply cast_to_text_not_required, H.
    + destruct (_ && _); [|discriminate]. injection H as <-.
      left; reflexivity.
  - apply bind_Raise_inv in H as [H|(t & _ & H)].
    + exfalso. eapply get_text_not_required, H.
    + apply IH in H as [Hv Hk]. split; [exact Hv | right; exact Hk].
Qed.

Lemma to_text_required Schema self validate k :
  Section_.to_text Schema self validate = Raise (ValueError_required k) ->
  validate = true /\ In k (map (fun nf => key (snd nf)) Schema).
Proof.
  unfold Section_.to_text. intros H.
  apply bind_Raise_inv in H as [H|(t & _ & H)]; [|discriminate].
  eapply to_text_loop_required, H.
Qed.

(** C10: [Document.to_text] validates the four fields of the document only.
    A failure of the gate on them is the failure of the call; once they
    pass, the call is the unvalidated one, whatever the attached sections
    hold; so a validation error of [Document.to_text] always names one of
    the document's own fields. *)
Theorem subsections_not_validated (d : Document) :
  (forall e, Section_.to_text Document.Schema (attrs d) true = Raise e ->
             Document.to_text d true = Raise e)
  /\ (forall flat,
         Section_.to_text Document.Schema (attrs d) true = Ok flat ->
         Document.to_text d true = Document.to_text d false)
  /\ (forall k, Document.to_text d true = Raise (ValueError_required k) ->
                In k (map (fun nf => key (snd nf)) Document.Schema)).
Proof.
  split; [|split].
  - intros e H. unfold Document.to_text. rewrite H. reflexivity.
  - intros flat H. unfold Document.to_text.
    rewrite H, (to_text_validated _ _ H). reflexivity.
  - intros k H. unfold Document.to_text in H.
    apply bind_Raise_inv in H as [H|(flat & _ & H)];
      [eapply to_text_required, H|].
    apply bind_Raise_inv in H as [H|(ss & _ & H)]; [|discriminate].
    apply mapM_Raise_inv in H as (so & _ & H).
    apply to_text_required in H as [H _]. discriminate.
Qed.

(** The payer of [order_no_account] fails the gate on its own, and the
    document that carries it serializes with [validate=True]. *)
Lemma subsections_not_validated_witness :
  Payer.to_text payer_no_account true
  = Raise (ValueError_required (u "ПлательщикРасчСчет"))
  /\ (exists flat,
         Section_.to_text Document.Schema (attrs order_no_account) true
         = Ok flat)
  /\ Document.to_text order_no_account true
     = Document.to_text order_no_account false
  /\ exists out, Document.to_text order_no_account true = Ok out.
Proof.
  split; [vm_compute; reflexivity|].
  split; [eexists; vm_compute; reflexivity|].
  split; [|eexists; vm_compute; reflexivity].
  eapply (proj1 (proj2 (subsections_not_validated order_no_account))).
  vm_compute. reflexivity.
Defined.

(** ** Field multiplicity (C3) *)

Definition text_item (line : str) : atom :=
  match Cast.str_to_text line with
  | Atom a => a
  | _ => ANone
  end.

Lemma mapM_str_to_text (found : list str) :
  (vs <- mapM (cast_from_text ARRAY) found ;; Field.as_items vs)
  = Ok (map text_item found).
Proof.
  induction found as [|x found IH]; simpl; [reflexivity|].
  apply bind_Ok_inv in IH as (vs & Hvs & Hit).
  rewrite Hvs; simpl. unfold Field.as_items in *. simpl.
  unfold text_item at 1, Cast.str_to_text.
  destruct x; simpl; [rewrite Hit; reflexivity|].
  destruct (strip _); simpl; rewrite Hit; reflexivity.
Qed.

(** What [Field.get_value_from_text] does with the occurrences of a key,
    by their number: none is [None]; one is decoded by the field's codec,
    for every type, the array type included; several are a schema violation
    unless the field is an array, and then the list of the trimmed texts in
    source order. *)
Lemma get_value_from_text_cases (f : Field) (text : str) :
  let found := Field.findall (key f) text in
  (found = [] -> Field.get_value_from_text f (SText text) = Ok VNone)
  /\ (forall x, found = [x] ->
        Field.get_value_from_text f (SText text) = cast_from_text (type f) x)
  /\ ((1 < length found)%nat -> type f <> ARRAY ->
        Field.get_value_from_text f (SText text)
        = Raise (ValueError_multiple (key f) (length found)))
  /\ ((1 < length found)%nat -> type f = ARRAY ->
        Field.get_value_from_text f (SText text)
        = Ok (VList (map text_item found))).
Proof.
  intros found. unfold Field.get_value_from_text. fold found.
  repeat split.
  - intros ->. simpl. reflexivity.
  - intros x ->. simpl. rewrite andb_false_r. reflexivity.
  - intros Hn Ht. apply Nat.ltb_lt in Hn. rewrite Hn.
    destruct (type f); try contradiction; reflexivity.
  - intros Hn Ht. apply Nat.ltb_lt in Hn. rewrite Hn, Ht. simpl.
    destruct found as [|x found']; [discriminate|].
    pose proof (mapM_str_to_text (x :: found')) as H.
    apply bind_Ok_inv in H as (vs & Hvs & Hit).
    rewrite Hvs; simpl. rewrite Hit. reflexivity.
Qed.

(** C3 (the code departs from the claim): an array field with three
    occurrences decodes to the list of the three, and a single-valued field
    with two occurrences is refused, but an array field with exactly one
    occurrence decodes to the bare text, not to a one-element list. *)
Theorem array_single_occurrence_is_scalar :
  Field.get_value_from_text (mkField (u "РасчСчет") BOTH ARRAY)
    (SText (u "ДатаКонца=31.01.2020
РасчСчет=40702810000000000001
Документ=Платежное поручение"))
  = Ok (VStr (u "40702810000000000001"))
  /\ Field.get_value_from_text (mkField (u "РасчСчет") BOTH ARRAY)
       (SText (u "РасчСчет=1
РасчСчет=2
РасчСчет=3"))
     = Ok (VList [AStr (u "1"); AStr (u "2"); AStr (u "3")])
  /\ Field.get_value_from_text (mkField (u "Номер") BOTH TEXT)
       (SText (u "Номер=1
Номер=2"))
     = Raise (ValueError_multiple (u "Номер") 2).
Proof. repeat split; vm_compute; reflexivity. Qed.

(** A header parsed with one account and serialized again: the account
    comes out one character per line. *)
Example header_single_account_respelled :
  (h <- Header.from_text (u "1CClientBankExchange
РасчСчет=407
СекцияДокумент=Платежное поручение") ;;
   Section_.get_text (mkField (u "РасчСчет") BOTH ARRAY)
     (getattr h "filter_account_numbers"))
  = Ok (u "РасчСчет=4
РасчСчет=0
РасчСчет=7").
Proof. vm_compute. reflexivity. Qed.

(** ** Parsing a statement without a balance block (C7) *)

(** Without a balance block [Statement.from_text] always raises: the
    section parser is handed [None] where it expects the block's text. *)
Lemma from_text_without_balance (source_text : str) :
  Section_.extract_section_text Balance.regex source_text = Ok SNone ->
  exists e, Statement.from_text source_text = Raise e.
Proof.
  intros H. unfold Statement.from_text.
  destruct (Header.from_text source_text) as [h|e]; simpl; [|eauto].
  unfold Balance.from_text. rewrite H. simpl. eauto.
Qed.

(** C7 (the code departs from the claim): an outbound file, with a header
    and one document and no balance block, is not parsed into a statement
    without a balance; parsing raises [TypeError]. *)
Theorem from_text_without_balance_raises :
  Section_.extract_section_text Balance.regex
    (u "1CClientBankExchange
ВерсияФормата=1.02
СекцияДокумент=Платежное поручение
Номер=17
КонецДокумента
КонецФайла") = Ok SNone
  /\ Statement.from_text
       (u "1CClientBankExchange
ВерсияФормата=1.02
СекцияДокумент=Платежное поручение
Номер=17
КонецДокумента
КонецФайла") = Raise TypeError.
Proof. split; vm_compute; reflexivity. Qed.

(** ** Building a statement from documents (C6) *)

Definition to_atom (v : value) : atom :=
  match v with
  | Atom a => a
  | _ => ANone
  end.

Definition plain (a : atom) : Prop := a = ANone \/ exists s, a = AStr s.

Lemma atom_eqb_plain (a b : atom) :
  plain a -> plain b -> (atom_eqb a b = true <-> a = b).
Proof.
  intros [->|(s & ->)] [->|(t & ->)]; simpl; split; try congruence;
    try reflexivity; unfold str_eqb; destruct (list_eq_dec N.eq_dec s t);
    congruence.
Qed.

Lemma dedup_In (l : list atom) (y : atom) :
  Forall plain l -> (In y (dedup l) <-> In y l).
Proof.
  induction 1 as [|x t Hx Ht IH]; simpl; [tauto|].
  rewrite filter_In, IH. split; [tauto|].
  intros [->|Hy]; [tauto|].
  destruct (atom_eqb x y) eqn:E; [|tauto].
  left. apply atom_eqb_plain; try assumption.
  rewrite Forall_forall in Ht. apply Ht, Hy.
Qed.

Lemma dedup_NoDup (l : list atom) : Forall plain l -> NoDup (dedup l).
Proof.
  induction 1 as [|x t Hx Ht IH]; simpl; constructor.
  - rewrite filter_In. intros [_ H].
    rewrite (proj2 (atom_eqb_plain Hx Hx) eq_refl) in H. discriminate.
  - apply NoDup_filter, IH.
Qed.

Lemma filter_none {A} (p : A -> bool) (l : list A) :
  (forall y, In y l -> p y = false) -> filter p l = [].
Proof.
  induction l as [|a l IH]; simpl; intros H; [reflexivity|].
  rewrite (H a (or_introl eq_refl)). apply IH. intros y Hy. apply H.
  right. exact Hy.
Qed.

Lemma dedup_one (l : list atom) :
  Forall plain l -> l <> [] ->
  (length (dedup l) = 1%nat <-> forall x y, In x l -> In y l -> x = y).
Proof.
  intros Hl Hne. split.
  - intros Hlen x y Hx Hy.
    apply (dedup_In _ Hl) in Hx, Hy.
    destruct (dedup l) as [|a [|b r]]; try discriminate.
    destruct Hx as [<-|[]], Hy as [<-|[]]. reflexivity.
  - intros Heq. destruct l as [|x t]; [contradiction|]. simpl.
    inversion Hl as [|? ? Hx Ht]; subst.
    rewrite filter_none; [reflexivity|].
    intros y Hy. apply (dedup_In _ Ht) in Hy.
    rewrite (Heq x y (or_introl eq_refl) (or_intror Hy)).
    rewrite Forall_forall in Ht.
    rewrite (proj2 (atom_eqb_plain (Ht y Hy) (Ht y Hy)) eq_refl).
    reflexivity.
Qed.

Lemma dedup_two (l : list atom) :
  Forall plain l -> l <> [] -> length (dedup l) <> 1%nat ->
  exists x y, In x l /\ In y l /\ x <> y.
Proof.
  intros Hl Hne Hlen.
  pose proof (dedup_NoDup Hl) as Hnd.
  destruct (dedup l) as [|a [|b r]] eqn:E.
  - destruct l; [contradiction | discriminate].
  - contradiction.
  - exists a, b. repeat split.
    + apply (dedup_In _ Hl). rewrite E. left. reflexivity.
    + apply (dedup_In _ Hl). rewrite E. right. left. reflexivity.
    + inversion Hnd as [|? ? Hn _]; subst. intros ->. apply Hn. left.
      reflexivity.
Qed.

Definition date_lt (a b : date) : Prop :=
  (year a < year b
   \/ year a = year b
      /\ (month a < month b \/ month a = month b /\ day a < day b))%N.

Lemma date_ltb_lt (a b : date) : date_ltb a b = true <-> date_lt a b.
Proof.
  unfold date_ltb, date_lt.
  rewrite !orb_true_iff, !andb_true_iff, !orb_true_iff, !andb_true_iff,
    !N.ltb_lt, !N.eqb_eq. reflexivity.
Qed.

Lemma date_ltb_nlt (a b : date) : date_ltb a b = false <-> ~ date_lt a b.
Proof.
  rewrite <- date_ltb_lt. destruct (date_ltb a b); split; congruence.
Qed.

Lemma date_nlt_trans (a b c : date) :
  ~ date_lt b a -> ~ date_lt c b -> ~ date_lt c a.
Proof. unfold date_lt. lia. Qed.

Lemma date_lt_asym (a b : date) : date_lt a b -> ~ date_lt b a.
Proof. unfold date_lt. lia. Qed.

Definition dated (d : date) : value := Atom (ADate d).

Ltac date_order :=
  repeat match goal with
         | H : date_ltb _ _ = true |- _ => apply date_ltb_lt in H
         | H : date_ltb _ _ = false |- _ => apply date_ltb_nlt in H
         | |- date_ltb _ _ = false => apply date_ltb_nlt
         | |- date_ltb _ _ = true => apply date_ltb_lt
         end;
  unfold date_lt in *; lia.

Lemma min_from_dates (rest : list value) (cur : date) :
  forallb is_date rest = true ->
  exists m, min_from (dated cur) rest = Ok (dated m)
            /\ In (dated m) (dated cur :: rest)
            /\ forall x, In (dated x) (dated cur :: rest) ->
                         date_ltb x m = false.
Proof.
  revert cur; induction rest as [|v rest IH]; intros cur H; simpl in H.
  - exists cur. simpl. repeat split; [tauto|].
    intros x [Hx|[]]. injection Hx as <-. date_order.
  - apply andb_true_iff in H as [Hv H].
    destruct v as [[| |dx| | |]| |]; try discriminate. simpl.
    destruct (date_ltb dx cur) eqn:E.
    + destruct (IH dx H) as (m & Hm & Hin & Hmin).
      exists m. split; [exact Hm|]. split; [simpl in *; tauto|].
      pose proof (Hmin dx (or_introl eq_refl)) as Hd.
      intros x [Hx|[Hx|Hx]].
      * injection Hx as <-. date_order.
      * injection Hx as <-. exact Hd.
      * apply Hmin. right. exact Hx.
    + destruct (IH cur H) as (m & Hm & Hin & Hmin).
      exists m. split; [exact Hm|]. split; [simpl in *; tauto|].
      pose proof (Hmin cur (or_introl eq_refl)) as Hd.
      intros x [Hx|[Hx|Hx]].
      * injection Hx as <-. exact Hd.
      * injection Hx as <-. date_order.
      * apply Hmin. right. exact Hx.
Qed.

Lemma max_from_dates (rest : list value) (cur : date) :
  forallb is_date rest = true ->
  exists m, max_from (dated cur) rest = Ok (dated m)
            /\ In (dated m) (dated cur :: rest)
            /\ forall x, In (dated x) (dated cur :: rest) ->
                         date_ltb m x = false.
Proof.
  revert cur; induction rest as [|v rest IH]; intros cur H; simpl in H.
  - exists cur. simpl. repeat split; [tauto|].
    intros x [Hx|[]]. injection Hx as <-. date_order.
  - apply andb_true_iff in H as [Hv H].
    destruct v as [[| |dx| | |]| |]; try discriminate. simpl.
    destruct (date_ltb cur dx) eqn:E.
    + destruct (IH dx H) as (m & Hm & Hin & Hmax).
      exists m. split; [exact Hm|]. split; [simpl in *; tauto|].
      pose proof (Hmax dx (or_introl eq_refl)) as Hd.
      intros x [Hx|[Hx|Hx]].
      * injection Hx as <-. date_order.
      * injection Hx as <-. exact Hd.
      * apply Hmax. right. exact Hx.
    + destruct (IH cur H) as (m & Hm & Hin & Hmax).
      exists m. split; [exact Hm|]. split; [simpl in *; tauto|].
      pose proof (Hmax cur (or_introl eq_refl)) as Hd.
      intros x [Hx|[Hx|Hx]].
      * injection Hx as <-. exact Hd.
      * injection Hx as <-. date_order.
      * apply Hmax. right. exact Hx.
Qed.

Lemma mapM_payer_attr (name : string) (docs : list Document) :
  forallb outbound_ready docs = true ->
  mapM (Statement.payer_attr name) docs = Ok (map (payer_field name) docs).
Proof.
  induction docs as [|d docs IH]; simpl; intros H; [reflexivity|].
  apply andb_true_iff in H as [Hd H]. rewrite (IH H).
  unfold outbound_ready in Hd. unfold Statement.payer_attr, payer_field.
  destruct (payer d); [reflexivity | discriminate].
Qed.

Lemma py_set_plain (l : list value) :
  forallb is_text_or_none l = true ->
  py_set l = Ok (dedup (map to_atom l)) /\ Forall plain (map to_atom l).
Proof.
  unfold py_set. induction l as [|v l IH]; simpl; intros H.
  - split; [reflexivity | constructor].
  - apply andb_true_iff in H as [Hv H]. destruct (IH H) as [IH1 IH2].
    apply bind_Ok_inv in IH1 as (items & Hitems & Hd).
    injection Hd as Hd. rewrite Hitems.
    destruct v as [[]| |]; try discriminate; simpl;
      (split; [rewrite Hd; reflexivity
              | constructor; [unfold plain; eauto | exact IH2]]).
Qed.

Lemma ready_fields (name : string) (docs : list Document) :
  name = "bank_bic"%string \/ name = "account_number"%string ->
  forallb outbound_ready docs = true ->
  forallb is_text_or_none (map (payer_field name) docs) = true.
Proof.
  intros Hn. induction docs as [|d docs IH]; simpl; intros H;
    [reflexivity|].
  apply andb_true_iff in H as [Hd H]. rewrite (IH H), andb_true_r.
  unfold outbound_ready in Hd. unfold payer_field.
  destruct (payer d); [|discriminate].
  apply andb_true_iff in Hd as [Hd _]. apply andb_true_iff in Hd as [H1 H2].
  destruct Hn as [->| ->]; assumption.
Qed.

Lemma ready_dates (docs : list Document) :
  forallb outbound_ready docs = true ->
  forallb is_date (map doc_date docs) = true.
Proof.
  induction docs as [|d docs IH]; simpl; intros H; [reflexivity|].
  apply andb_true_iff in H as [Hd H]. rewrite (IH H), andb_true_r.
  unfold outbound_ready in Hd. apply andb_true_iff in Hd as [_ Hd].
  exact Hd.
Qed.

Lemma to_atom_plain_inj (v w : value) :
  is_text_or_none v = true -> is_text_or_none w = true ->
  to_atom v = to_atom w -> v = w.
Proof.
  destruct v as [[]| |], w as [[]| |]; simpl; try discriminate;
    congruence.
Qed.

(** C6 as the code has it.  For a non-empty list of documents that each
    carry a payer (its bank identifier and account number texts or absent)
    and a date: [from_documents] raises the validation error exactly when
    two documents differ in the payer's bank identifier; when all agree it
    returns a statement without a balance, holding the documents, whose
    header has the format version, the encoding and the sender, the least
    and the greatest of the documents' dates as the filter range, and the
    set of the payers' account numbers as the account filter. *)
Theorem from_documents_spec (today : date) (now : date * time)
  (sender : str) (docs : list Document) :
  docs <> [] ->
  forallb outbound_ready docs = true ->
  (Statement.from_documents today now sender docs = Raise ValueError_one_bank
   <-> exists d1 d2, In d1 docs /\ In d2 docs
                     /\ payer_field "bank_bic" d1 <> payer_field "bank_bic" d2)
  /\ ((forall d1 d2, In d1 docs -> In d2 docs ->
                     payer_field "bank_bic" d1 = payer_field "bank_bic" d2) ->
      exists st lo hi accounts,
        Statement.from_documents today now sender docs = Ok st
        /\ balance st = None
        /\ documents st = docs
        /\ getattr (header st) "format_version" = VStr (u "1.02")
        /\ getattr (header st) "encoding" = VStr (u "Windows")
        /\ getattr (header st) "sender" = VStr sender
        /\ getattr (header st) "creation_date" = dated today
        /\ getattr (header st) "filter_date_since" = dated lo
        /\ getattr (header st) "filter_date_till" = dated hi
        /\ In (dated lo) (map doc_date docs)
        /\ In (dated hi) (map doc_date docs)
        /\ (forall x, In (dated x) (map doc_date docs) ->
                      date_leb lo x = true /\ date_leb x hi = true)
        /\ getattr (header st) "filter_account_numbers" = VSet accounts
        /\ NoDup accounts
        /\ (forall a, In a accounts <->
                      exists d, In d docs
                                /\ payer_field "account_number" d = Atom a)).
Proof.
  intros Hne Hready.
  pose proof (ready_fields docs (or_introl eq_refl) Hready) as Hbic.
  pose proof (ready_fields docs (or_intror eq_refl) Hready) as Hacc.
  destruct (py_set_plain _ Hbic) as [Hset Hplain].
  destruct (py_set_plain _ Hacc) as [Hset' Hplain'].
  assert (Hne' : map to_atom (map (payer_field "bank_bic") docs) <> [])
    by (destruct docs; [contradiction | discriminate]).
  assert (Hdates : exists lo hi,
             py_min (map doc_date docs) = Ok (dated lo)
             /\ py_max (map doc_date docs) = Ok (dated hi)
             /\ In (dated lo) (map doc_date docs)
             /\ In (dated hi) (map doc_date docs)
             /\ forall x, In (dated x) (map doc_date docs) ->
                          date_leb lo x = true /\ date_leb x hi = true).
  { pose proof (ready_dates docs Hready) as Hd.
    destruct (map doc_date docs) as [|v rest] eqn:E;
      [destruct docs; [contradiction | discriminate]|].
    simpl in Hd. apply andb_true_iff in Hd as [Hv Hd].
    destruct v as [[| |cur| | |]| |]; try discriminate.
    destruct (min_from_dates rest cur Hd) as (lo & Hlo & Hinlo & Hmin).
    destruct (max_from_dates rest cur Hd) as (hi & Hhi & Hinhi & Hmax).
    exists lo, hi. simpl. repeat split; try assumption;
      unfold date_leb; apply negb_true_iff; [apply Hmin | apply Hmax];
      assumption. }
  destruct Hdates as (lo & hi & Hmin & Hmax & Hinlo & Hinhi & Hrange).
  assert (Hall : (forall d1 d2, In d1 docs -> In d2 docs ->
                    payer_field "bank_bic" d1 = payer_field "bank_bic" d2)
                 <-> length (dedup (map to_atom
                                 (map (payer_field "bank_bic") docs)))
                     = 1%nat).
  { rewrite (dedup_one Hplain Hne'). rewrite forallb_forall in Hbic.
    split.
    - intros H x y Hx Hy. rewrite map_map in Hx, Hy.
      apply in_map_iff in Hx as (d1 & <- & H1).
      apply in_map_iff in Hy as (d2 & <- & H2).
      rewrite (H d1 d2 H1 H2). reflexivity.
    - intros H d1 d2 H1 H2.
      apply to_atom_plain_inj;
        try (apply Hbic, in_map; assumption).
      apply H; apply in_map, in_map; assumption. }
  unfold Statement.from_documents.
  change (map (fun doc => getattr (attrs doc) "date") docs)
    with (map doc_date docs).
  rewrite (mapM_payer_attr "bank_bic" docs Hready). simpl.
  rewrite Hset. simpl.
  destruct (length (dedup (map to_atom (map (payer_field "bank_bic") docs)))
            =? 1)%nat eqn:Elen; simpl.
  - apply Nat.eqb_eq in Elen. pose proof (proj2 Hall Elen) as Hsame.
    rewrite Hmin, Hmax. simpl.
    rewrite (mapM_payer_attr "account_number" docs Hready). simpl.
    rewrite Hset'. simpl. split.
    + split; [discriminate|].
      intros (d1 & d2 & H1 & H2 & Hd). exfalso. apply Hd, Hsame; assumption.
    + intros _.
      exists (mkStatement
                (Statement.new_header (VStr (u "1.02")) (VStr (u "Windows"))
                   (VStr sender) (Atom (ADate today))
                   (Atom (ADateTime (fst now) (snd now)))
                   (dated lo) (dated hi)
                   (VSet (dedup (map to_atom
                            (map (payer_field "account_number") docs)))))
                None docs),
        lo, hi,
        (dedup (map to_atom (map (payer_field "account_number") docs))).
      repeat split; try reflexivity; try assumption;
        try (apply Hrange; assumption).
      * apply dedup_NoDup, Hplain'.
      * intros Ha. apply (dedup_In _ Hplain') in Ha.
        rewrite map_map in Ha. apply in_map_iff in Ha as (d & Hd & Hin).
        exists d. split; [exact Hin|].
        rewrite forallb_forall in Hacc.
        pose proof (Hacc _ (in_map _ _ _ Hin)) as Ht. rewrite <- Hd.
        destruct (payer_field "account_number" d) as [[]| |];
          try discriminate; reflexivity.
      * intros (d & Hin & Hd). apply (dedup_In _ Hplain').
        rewrite map_map. apply in_map_iff. exists d. rewrite Hd.
        split; [reflexivity | exact Hin].
  - apply Nat.eqb_neq in Elen. split.
    + split; [intros _ | reflexivity].
      destruct (dedup_two Hplain Hne' Elen) as (x & y & Hx & Hy & Hxy).
      rewrite map_map in Hx, Hy.
      apply in_map_iff in Hx as (d1 & <- & H1).
      apply in_map_iff in Hy as (d2 & <- & H2).
      exists d1, d2. repeat split; try assumption. congruence.
    + intros H. apply (proj1 Hall) in H. contradiction.
Qed.

Lemma from_documents_spec_witness :
  forallb outbound_ready [order_a; order_b] = true
  /\ exists st lo hi accounts,
       Statement.from_documents a_day a_moment (u "1C") [order_a; order_b]
       = Ok st
       /\ balance st = None
       /\ documents st = [order_a; order_b]
       /\ getattr (header st) "format_version" = VStr (u "1.02")
       /\ getattr (header st) "encoding" = VStr (u "Windows")
       /\ getattr (header st) "sender" = VStr (u "1C")
       /\ getattr (header st) "creation_date" = dated a_day
       /\ getattr (header st) "filter_date_since" = dated lo
       /\ getattr (header st) "filter_date_till" = dated hi
       /\ In (dated lo) (map doc_date [order_a; order_b])
       /\ In (dated hi) (map doc_date [order_a; order_b])
       /\ (forall x, In (dated x) (map doc_date [order_a; order_b]) ->
                     date_leb lo x = true /\ date_leb x hi = true)
       /\ getattr (header st) "filter_account_numbers" = VSet accounts
       /\ NoDup accounts
       /\ (forall a, In a accounts <->
                     exists d, In d [order_a; order_b]
                               /\ payer_field "account_number" d = Atom a).
Proof.
  split; [reflexivity|].
  apply (from_documents_spec a_day a_moment (u "1C") (docs:=[order_a; order_b]));
    [discriminate | reflexivity |].
  intros d1 d2 [<-|[<-|[]]] [<-|[<-|[]]]; reflexivity.
Defined.

Example from_documents_range :
  (st <- Statement.from_documents a_day a_moment (u "1C") [order_a; order_b] ;;
   Ok (getattr (header st) "filter_date_since",
       getattr (header st) "filter_date_till",
       getattr (header st) "filter_account_numbers"))
  = Ok (dated (mkdate 2020 1 15), dated (mkdate 2020 2 1),
        VSet [AStr (u "40702810000000000001")]).
Proof. vm_compute. reflexivity. Qed.

(** C6 as stated fails: two documents of one payer bank, one of them with
    no date, are not turned into a statement; [min] raises [TypeError]. *)
Lemma from_documents_absent_date :
  payer_field "bank_bic" order_a = payer_field "bank_bic" order_undated
  /\ Statement.from_documents a_day a_moment (u "1C") [order_a; order_undated]
     = Raise TypeError.
Proof. split; vm_compute; reflexivity. Qed.

(** ** Dates and times (C9) *)

Inductive Matches : regex -> str -> groups -> Prop :=
| M_Eps : Matches Eps [] []
| M_Lit c : Matches (Lit c) [c] []
| M_Digit c : is_digit c = true -> Matches Digit [c] []
| M_Range lo hi c :
    ((lo <=? c) && (c <=? hi))%N = true -> Matches (Range lo hi) [c] []
| M_Cat a b m1 g1 m2 g2 :
    Matches a m1 g1 -> Matches b m2 g2 ->
    Matches (Cat a b) (m1 ++ m2) (g1 ++ g2)
| M_AltL a b m g : Matches a m g -> Matches (Alt a b) m g
| M_AltR a b m g : Matches b m g -> Matches (Alt a b) m g
| M_Group name a m g :
    Matches a m g -> Matches (Group name a) m ((name, m) :: g).

Lemma one_char_In (p : char -> bool) (s : str) (x : rmatch) :
  In x (one_char p s) ->
  exists c, p c = true /\ x = mkmatch [] [c] (m_rest x) /\ s = c :: m_rest x.
Proof.
  destruct s as [|c t]; simpl; [tauto|].
  destruct (p c) eqn:E; simpl; [|tauto].
  intros [<-|[]]. exists c. simpl. auto.
Qed.

Lemma rx_sound (r : regex) (s : str) (x : rmatch) :
  In x (rx r s) ->
  s = m_text x ++ m_rest x /\ Matches r (m_text x) (m_groups x).
Proof.
  revert s x; induction r as [|c| |lo hi|a IHa b IHb|a IHa b IHb|name a IHa];
    intros s x H; simpl in H.
  - destruct H as [<-|[]]. simpl. split; [reflexivity | constructor].
  - apply one_char_In in H as (c' & Hc & -> & ->). simpl.
    apply N.eqb_eq in Hc as <-. split; [reflexivity | constructor].
  - apply one_char_In in H as (c' & Hc & -> & ->). simpl.
    split; [reflexivity | constructor; exact Hc].
  - apply one_char_In in H as (c' & Hc & -> & ->). simpl.
    split; [reflexivity | constructor; exact Hc].
  - apply in_flat_map in H as (m1 & H1 & H).
    apply in_map_iff in H as (m2 & <- & H2). simpl.
    apply IHa in H1 as [-> M1]. apply IHb in H2 as [E2 M2].
    rewrite E2 at 1. rewrite app_assoc. split; [reflexivity|].
    constructor; assumption.
  - apply in_app_or in H as [H|H]; [apply IHa in H | apply IHb in H];
      destruct H as [-> M]; split; try reflexivity;
      [apply M_AltL | apply M_AltR]; exact M.
  - apply in_map_iff in H as (m & <- & H). simpl.
    apply IHa in H as [-> M]. split; [reflexivity | constructor; exact M].
Qed.

Lemma range_enum (lo hi c : N) :
  ((lo <=? c) && (c <=? hi))%N = true ->
  In c (map N.of_nat (seq (N.to_nat lo) (S (N.to_nat hi - N.to_nat lo)))).
Proof.
  intros H. apply andb_true_iff in H as [H1 H2].
  apply N.leb_le in H1, H2. apply in_map_iff. exists (N.to_nat c).
  split; [apply N2Nat.id|]. apply in_seq. lia.
Qed.

Ltac split_or H :=
  match type of H with
  | _ \/ _ => destruct H as [H|H]; [|split_or H]
  | False => contradiction
  | _ => idtac
  end.

(** Replace a character known to lie in a range by each of its values. *)
Ltac enum_chars :=
  repeat match goal with
         | H : is_digit ?c = true |- _ =>
             apply (range_enum 48 57) in H; vm_compute in H; split_or H;
             subst c
         | H : ((?lo <=? ?c) && (?c <=? ?hi))%N = true |- _ =>
             apply range_enum in H; vm_compute in H; split_or H; subst c
         end.

Ltac minv :=
  repeat match goal with
         | H : Matches (Cat _ _) _ _ |- _ => inversion H; subst; clear H
         | H : Matches (Alt _ _) _ _ |- _ => inversion H; subst; clear H
         | H : Matches (Group _ _) _ _ |- _ => inversion H; subst; clear H
         | H : Matches (Lit _) _ _ |- _ => inversion H; subst; clear H
         | H : Matches Digit _ _ |- _ => inversion H; subst; clear H
         | H : Matches (Range _ _) _ _ |- _ => inversion H; subst; clear H
         | H : Matches Eps _ _ |- _ => inversion H; subst; clear H
         end.

Definition in_range (lo hi n : N) : bool := ((lo <=? n) && (n <=? hi))%N.

(** What a group of one or two digits matched: its text is a spelling of
    its value, and the value is within the bounds of the directive. *)
Definition spelled (texts : N -> list str) (lo hi : N) (name : char)
  (m : str) (g : groups) : Prop :=
  g = [(name, m)] /\ in_range lo hi (py_int m) = true
  /\ In m (texts (py_int m)).

Ltac spelled_by_cases :=
  intros H; unfold directive in H; simpl in H; minv; enum_chars;
  (split; [reflexivity | split; [vm_compute; reflexivity | vm_compute; tauto]]).

Lemma Matches_d m g :
  Matches (directive g_d) m g -> spelled day_texts 1 31 g_d m g.
Proof. spelled_by_cases. Qed.

Lemma Matches_m m g :
  Matches (directive g_m) m g -> spelled two_digit_texts 1 12 g_m m g.
Proof. spelled_by_cases. Qed.

Lemma Matches_H m g :
  Matches (directive g_H) m g -> spelled two_digit_texts 0 23 g_H m g.
Proof. spelled_by_cases. Qed.

Lemma Matches_M m g :
  Matches (directive g_M) m g -> spelled two_digit_texts 0 59 g_M m g.
Proof. spelled_by_cases. Qed.

Lemma Matches_S m g :
  Matches (directive g_S) m g -> spelled two_digit_texts 0 61 g_S m g.
Proof. spelled_by_cases. Qed.

Lemma digit_not_space c : is_digit c = true -> is_space c = false.
Proof. intros H. enum_chars; reflexivity. Qed.

Lemma py_int_4 a b c e :
  is_digit a = true -> is_digit b = true -> is_digit c = true ->
  is_digit e = true ->
  py_int [a; b; c; e]
  = ((a - 48) * 1000 + (b - 48) * 100 + (c - 48) * 10 + (e - 48))%N.
Proof.
  intros Ha Hb Hc He. unfold py_int, strip, rstrip. simpl.
  rewrite (digit_not_space _ Ha). simpl. rewrite (digit_not_space _ He).
  simpl. unfold int_of_digits. simpl. lia.
Qed.

Definition year_row (y : N) : bool :=
  match year_text y with
  | [a; b; c; e] =>
      forallb is_digit [a; b; c; e]
      && (((a - 48) * 1000 + (b - 48) * 100 + (c - 48) * 10 + (e - 48)) =? y)%N
  | _ => false
  end.

Lemma year_table :
  forallb year_row (map N.of_nat (seq 0 (N.to_nat 10000))) = true.
Proof. vm_compute. reflexivity. Qed.

Lemma year_text_digits (y : N) :
  (y < 10000)%N ->
  exists a b c e,
    year_text y = [a; b; c; e]
    /\ is_digit a = true /\ is_digit b = true /\ is_digit c = true
    /\ is_digit e = true
    /\ ((a - 48) * 1000 + (b - 48) * 100 + (c - 48) * 10 + (e - 48))%N = y.
Proof.
  intros Hy. pose proof year_table as T. rewrite forallb_forall in T.
  assert (Hin : In y (map N.of_nat (seq 0 (N.to_nat 10000)))).
  { apply in_map_iff. exists (N.to_nat y). split; [apply N2Nat.id|].
    apply in_seq. lia. }
  apply T in Hin. unfold year_row in Hin.
  destruct (year_text y) as [|a [|b [|c [|e [|]]]]]; try discriminate.
  apply andb_true_iff in Hin as [Hd Hv]. simpl in Hd.
  repeat (apply andb_true_iff in Hd as [? Hd]).
  apply N.eqb_eq in Hv. exists a, b, c, e. auto 10.
Qed.

Lemma is_digit_bounds c : is_digit c = true -> (48 <= c <= 57)%N.
Proof.
  unfold is_digit. intros H. apply andb_true_iff in H as [H1 H2].
  apply N.leb_le in H1, H2. lia.
Qed.

Lemma year_text_py_int a b c e :
  is_digit a = true -> is_digit b = true -> is_digit c = true ->
  is_digit e = true ->
  year_text (py_int [a; b; c; e]) = [a; b; c; e].
Proof.
  intros Ha Hb Hc He. rewrite (py_int_4 _ _ _ _ Ha Hb Hc He).
  pose proof (is_digit_bounds _ Ha). pose proof (is_digit_bounds _ Hb).
  pose proof (is_digit_bounds _ Hc). pose proof (is_digit_bounds _ He).
  destruct (year_text_digits
              (y:=((a - 48) * 1000 + (b - 48) * 100 + (c - 48) * 10 + (e - 48))%N))
    as (a' & b' & c' & e' & -> & Ha' & Hb' & Hc' & He' & Hv); [lia|].
  apply is_digit_bounds in Ha', Hb', Hc', He'.
  assert (a' = a) by lia. assert (b' = b) by lia.
  assert (c' = c) by lia. assert (e' = e) by lia. subst. reflexivity.
Qed.

Lemma Matches_Y m g :
  Matches (directive g_Y) m g ->
  g = [(g_Y, m)] /\ year_text (py_int m) = m /\ (py_int m < 10000)%N.
Proof.
  intros H. unfold directive in H. simpl in H. minv. simpl.
  split; [reflexivity|].
  split; [apply year_text_py_int; assumption|].
  rewrite py_int_4 by assumption.
  repeat match goal with
         | H : is_digit _ = true |- _ => apply is_digit_bounds in H
         end. lia.
Qed.

Definition continue_with (name : char) (form : str) (sep : char)
  (ms : list rmatch) : list rmatch :=
  map (fun m => mkmatch ((name, form) :: m_groups m)
                        (form ++ sep :: m_text m) (m_rest m)) ms.

Ltac by_spelling Hn Hf :=
  unfold in_range in Hn; enum_chars; vm_compute in Hf; split_or Hf;
  subst.

Ltac run_group :=
  unfold continue_with, directive; simpl;
  rewrite ?app_nil_r, ?map_map; apply map_ext; intros []; reflexivity.

Lemma rx_d_text n form K rest :
  in_range 1 31 n = true -> In form (day_texts n) ->
  rx (Cat (directive g_d) (Cat (Lit c_dot) K)) (form ++ c_dot :: rest)
  = continue_with g_d form c_dot (rx K rest).
Proof. intros Hn Hf. by_spelling Hn Hf; run_group. Qed.

Lemma rx_m_text n form K rest :
  in_range 1 12 n = true -> In form (two_digit_texts n) ->
  rx (Cat (directive g_m) (Cat (Lit c_dot) K)) (form ++ c_dot :: rest)
  = continue_with g_m form c_dot (rx K rest).
Proof. intros Hn Hf. by_spelling Hn Hf; run_group. Qed.

Lemma rx_H_text n form K rest :
  in_range 0 23 n = true -> In form (two_digit_texts n) ->
  rx (Cat (directive g_H) (Cat (Lit c_colon) K)) (form ++ c_colon :: rest)
  = continue_with g_H form c_colon (rx K rest).
Proof. intros Hn Hf. by_spelling Hn Hf; run_group. Qed.

Lemma rx_M_text n form K rest :
  in_range 0 59 n = true -> In form (two_digit_texts n) ->
  rx (Cat (directive g_M) (Cat (Lit c_colon) K)) (form ++ c_colon :: rest)
  = continue_with g_M form c_colon (rx K rest).
Proof. intros Hn Hf. by_spelling Hn Hf; run_group. Qed.

(** The seconds come last: the first way of matching takes the whole
    text. *)
Lemma rx_S_text n form :
  in_range 0 59 n = true -> In form (two_digit_texts n) ->
  exists others,
    rx (Cat (directive g_S) Eps) form
    = mkmatch [(g_S, form)] form [] :: others.
Proof.
  intros Hn Hf. by_spelling Hn Hf; eexists; vm_compute; reflexivity.
Qed.

Lemma rx_Y_text y :
  (y < 10000)%N ->
  rx (Cat (directive g_Y) Eps) (year_text y)
  = [mkmatch [(g_Y, year_text y)] (year_text y) []].
Proof.
  intros Hy.
  destruct (year_text_digits Hy)
    as (a & b & c & e & -> & Ha & Hb & Hc & He & _).
  unfold directive. simpl. rewrite Ha. simpl. rewrite Hb. simpl.
  rewrite Hc. simpl. rewrite He. reflexivity.
Qed.

Lemma py_int_text lo hi n form :
  in_range lo hi n = true -> (hi <=? 61)%N = true ->
  In form (day_texts n) -> py_int form = n /\ form <> [].
Proof.
  intros Hn Hhi Hf. unfold in_range in Hn.
  apply andb_true_iff in Hn as [_ Hn]. apply N.leb_le in Hn, Hhi.
  assert (H : ((0 <=? n) && (n <=? 61))%N = true).
  { apply andb_true_iff. split; apply N.leb_le; lia. }
  clear Hn Hhi. enum_chars; vm_compute in Hf; split_or Hf; subst;
    (split; [vm_compute; reflexivity | discriminate]).
Qed.

Lemma two_digit_day n form :
  In form (two_digit_texts n) -> In form (day_texts n).
Proof. unfold day_texts. intros H. apply in_or_app. left. exact H. Qed.

Lemma py_int_year y : (y < 10000)%N -> py_int (year_text y) = y.
Proof.
  intros Hy.
  destruct (year_text_digits Hy)
    as (a & b & c & e & -> & Ha & Hb & Hc & He & Hv).
  rewrite py_int_4; assumption.
Qed.

Lemma days_in_month_le y m : (days_in_month y m <= 31)%N.
Proof.
  unfold days_in_month.
  repeat match goal with |- context [if ?b then _ else _] => destruct b end;
    lia.
Qed.

Lemma strptime_raises s fmt e :
  strptime s fmt = Raise e -> e = ValueError_strptime.
Proof.
  unfold strptime. destruct (rx _ _) as [|found ?]; [congruence|].
  destruct (m_rest found); [|congruence].
  destruct (_ && _); congruence.
Qed.

Definition date_pattern : regex :=
  Cat (directive g_d) (Cat (Lit c_dot)
    (Cat (directive g_m) (Cat (Lit c_dot) (Cat (directive g_Y) Eps)))).

Definition time_pattern : regex :=
  Cat (directive g_H) (Cat (Lit c_colon)
    (Cat (directive g_M) (Cat (Lit c_colon) (Cat (directive g_S) Eps)))).

Lemma strptime_date (s : str) (d : date) (t : time) :
  strptime s DATE_FORMAT = Ok (d, t)
  <-> date_valid d = true /\ t = midnight /\ In s (date_texts d).
Proof.
  unfold strptime. change (pattern DATE_FORMAT) with date_pattern. split.
  - intros Hok.
    destruct (rx date_pattern s) as [|[g m r] others] eqn:E;
      [discriminate|]. simpl in Hok.
    destruct r; [|discriminate].
    assert (Hin : In (mkmatch g m []) (rx date_pattern s))
      by (rewrite E; left; reflexivity).
    apply rx_sound in Hin as [Hs HM]. simpl in Hs, HM.
    rewrite app_nil_r in Hs. subst m. unfold date_pattern in HM. minv.
    repeat match goal with
           | H : Matches (directive g_d) _ _ |- _ =>
               apply Matches_d in H as (-> & ? & ?)
           | H : Matches (directive g_m) _ _ |- _ =>
               apply Matches_m in H as (-> & ? & ?)
           | H : Matches (directive g_Y) _ _ |- _ =>
               apply Matches_Y in H as (-> & ? & ?)
           end.
    simpl in Hok. destruct (date_valid _ && _) eqn:Ev; [|discriminate].
    injection Hok as <- <-.
    apply andb_true_iff in Ev as [Ev _].
    split; [exact Ev|]. split; [reflexivity|].
    unfold date_texts. cbn [year month day]. apply in_flat_map.
    eexists. split; [eassumption|]. apply in_map_iff.
    eexists. split; [|eassumption].
    match goal with H : year_text _ = _ |- _ => rewrite H end.
    rewrite app_nil_r. reflexivity.
  - intros (Hv & -> & Hin). unfold date_texts in Hin.
    apply in_flat_map in Hin as (dd & Hdd & Hin).
    apply in_map_iff in Hin as (mm & <- & Hmm).
    unfold date_valid in Hv.
    repeat (apply andb_true_iff in Hv as [Hv ?]).
    repeat match goal with
           | H : (_ <=? _)%N = true |- _ => apply N.leb_le in H
           end.
    pose proof (days_in_month_le (year d) (month d)) as Hdm.
    assert (Hd : in_range 1 31 (day d) = true)
      by (apply andb_true_iff; split; apply N.leb_le; lia).
    assert (Hm : in_range 1 12 (month d) = true)
      by (apply andb_true_iff; split; apply N.leb_le; lia).
    assert (Hy : (year d < 10000)%N) by lia.
    unfold date_pattern. simpl app.
    rewrite (@rx_d_text _ _ _ _ Hd Hdd), (@rx_m_text _ _ _ _ Hm Hmm),
      (@rx_Y_text _ Hy).
    simpl.
    rewrite (proj1 (@py_int_text _ _ _ _ Hd eq_refl Hdd)).
    rewrite (proj1 (@py_int_text _ _ _ _ Hm eq_refl (@two_digit_day _ _ Hmm))).
    rewrite (@py_int_year _ Hy).
    replace (date_valid _) with true; [destruct d; reflexivity|].
    symmetry. unfold date_valid. simpl.
    repeat (apply andb_true_iff; split); apply N.leb_le; lia.
Qed.

Lemma strptime_time (s : str) (d : date) (t : time) :
  strptime s TIME_FORMAT = Ok (d, t)
  <-> time_valid t = true /\ microsecond t = 0%N /\ d = epoch_1900
      /\ In s (time_texts t).
Proof.
  unfold strptime. change (pattern TIME_FORMAT) with time_pattern. split.
  - intros Hok.
    destruct (rx time_pattern s) as [|[g m r] others] eqn:E;
      [discriminate|]. simpl in Hok.
    destruct r; [|discriminate].
    assert (Hin : In (mkmatch g m []) (rx time_pattern s))
      by (rewrite E; left; reflexivity).
    apply rx_sound in Hin as [Hs HM]. simpl in Hs, HM.
    rewrite app_nil_r in Hs. subst m. unfold time_pattern in HM. minv.
    repeat match goal with
           | H : Matches (directive g_H) _ _ |- _ =>
               apply Matches_H in H as (-> & ? & ?)
           | H : Matches (directive g_M) _ _ |- _ =>
               apply Matches_M in H as (-> & ? & ?)
           | H : Matches (directive g_S) _ _ |- _ =>
               apply Matches_S in H as (-> & ? & ?)
           end.
    simpl in Hok. destruct (time_valid _) eqn:Ev; [|discriminate].
    injection Hok as <- <-.
    split; [exact Ev|]. split; [reflexivity|]. split; [reflexivity|].
    unfold time_texts. cbn [hour minute second]. apply in_flat_map.
    eexists. split; [eassumption|]. apply in_flat_map.
    eexists. split; [eassumption|]. apply in_map_iff.
    eexists. split; [|eassumption].
    rewrite app_nil_r. reflexivity.
  - intros (Hv & Hus & -> & Hin). unfold time_texts in Hin.
    apply in_flat_map in Hin as (hh & Hhh & Hin).
    apply in_flat_map in Hin as (mm & Hmm & Hin).
    apply in_map_iff in Hin as (ss & <- & Hss).
    unfold time_valid in Hv.
    repeat (apply andb_true_iff in Hv as [Hv ?]).
    repeat match goal with
           | H : (_ <? _)%N = true |- _ => apply N.ltb_lt in H
           end.
    assert (Hh : in_range 0 23 (hour t) = true)
      by (apply andb_true_iff; split; apply N.leb_le; lia).
    assert (Hm : in_range 0 59 (minute t) = true)
      by (apply andb_true_iff; split; apply N.leb_le; lia).
    assert (Hsec : in_range 0 59 (second t) = true)
      by (apply andb_true_iff; split; apply N.leb_le; lia).
    unfold time_pattern. simpl app.
    rewrite (@rx_H_text _ _ _ _ Hh Hhh), (@rx_M_text _ _ _ _ Hm Hmm).
    destruct (@rx_S_text _ _ Hsec Hss) as (others & ->).
    simpl.
    rewrite (proj1 (@py_int_text _ _ _ _ Hh eq_refl (@two_digit_day _ _ Hhh))).
    rewrite (proj1 (@py_int_text _ _ _ _ Hm eq_refl (@two_digit_day _ _ Hmm))).
    rewrite (proj1 (@py_int_text _ _ _ _ Hsec eq_refl
                      (@two_digit_day _ _ Hss))).
    replace (time_valid _) with true;
      [destruct t; simpl in *; subst; reflexivity|].
    symmetry. unfold time_valid. simpl.
    repeat (apply andb_true_iff; split); try apply N.ltb_lt; lia.
Qed.

Lemma date_texts_nonempty d : ~ In [] (date_texts d).
Proof.
  unfold date_texts. intros H. apply in_flat_map in H as (dd & _ & H).
  apply in_map_iff in H as (mm & H & _). destruct dd; discriminate.
Qed.

Lemma time_texts_nonempty t : ~ In [] (time_texts t).
Proof.
  unfold time_texts. intros H. apply in_flat_map in H as (hh & _ & H).
  apply in_flat_map in H as (mm & _ & H).
  apply in_map_iff in H as (ss & H & _). destruct hh; discriminate.
Qed.

(** C9 as the code has it.  An empty input decodes to [None].  The date
    codec yields the date [d] exactly on the spellings of a valid calendar
    date [d]: day and month with two digits or, below ten, the single digit
    (the day may also be blank-padded), then the year with four digits;
    the time codec yields [t] exactly on the spellings of a valid time of
    day with hour, minute and second written the same way.  On every other
    non-empty input the codec raises the [ValueError] of [strptime]. *)
Theorem date_time_decoding (s : str) :
  (s = [] -> Cast.str_to_date s = Ok VNone /\ Cast.str_to_time s = Ok VNone)
  /\ (forall d, Cast.str_to_date s = Ok (Atom (ADate d))
                <-> date_valid d = true /\ In s (date_texts d))
  /\ (forall t, Cast.str_to_time s = Ok (Atom (ATime t))
                <-> time_valid t = true /\ microsecond t = 0%N
                    /\ In s (time_texts t))
  /\ (s <> [] ->
      (forall d, ~ (date_valid d = true /\ In s (date_texts d))) ->
      Cast.str_to_date s = Raise ValueError_strptime)
  /\ (s <> [] ->
      (forall t, ~ (time_valid t = true /\ microsecond t = 0%N
                    /\ In s (time_texts t))) ->
      Cast.str_to_time s = Raise ValueError_strptime).
Proof.
  unfold Cast.str_to_date, Cast.str_to_time.
  split; [intros ->; split; reflexivity|].
  destruct s as [|c s'].
  - split; [|split; [|split; intros H; contradiction]].
    + intros d. split; [discriminate|].
      intros [_ H]. exfalso. eapply date_texts_nonempty, H.
    + intros t. split; [discriminate|].
      intros (_ & _ & H). exfalso. eapply time_texts_nonempty, H.
  - set (s := c :: s'). split; [|split; [|split]].
    + intros d. split.
      * intros H. apply bind_Ok_inv in H as ([d' t'] & H & E).
        injection E as <-. apply strptime_date in H. tauto.
      * intros [Hv Hin].
        rewrite (proj2 (strptime_date s d midnight)); [reflexivity | tauto].
    + intros t. split.
      * intros H. apply bind_Ok_inv in H as ([d' t'] & H & E).
        injection E as <-. apply strptime_time in H. tauto.
      * intros (Hv & Hus & Hin).
        rewrite (proj2 (strptime_time s epoch_1900 t));
          [reflexivity | tauto].
    + intros _ Hno. destruct (strptime s DATE_FORMAT) as [[d t]|e] eqn:E.
      * apply strptime_date in E. exfalso. apply (Hno d). tauto.
      * apply strptime_raises in E as ->. reflexivity.
    + intros _ Hno. destruct (strptime s TIME_FORMAT) as [[d t]|e] eqn:E.
      * apply strptime_time in E. exfalso. apply (Hno t). tauto.
      * apply strptime_raises in E as ->. reflexivity.
Qed.

Lemma date_time_decoding_witness :
  Cast.str_to_date (u "01.02.2020") = Ok (Atom (ADate (mkdate 2020 2 1)))
  /\ Cast.str_to_date (u "1.2.2020") = Ok (Atom (ADate (mkdate 2020 2 1)))
  /\ Cast.str_to_time (u "09:05:00") = Ok (Atom (ATime (mktime 9 5 0 0)))
  /\ Cast.str_to_date (u "2020-02-01") = Raise ValueError_strptime.
Proof.
  split; [|split; [|split]].
  - apply (proj1 (proj2 (date_time_decoding (u "01.02.2020")))).
    split; [reflexivity | vm_compute; tauto].
  - apply (proj1 (proj2 (date_time_decoding (u "1.2.2020")))).
    split; [reflexivity | vm_compute; tauto].
  - apply (proj1 (proj2 (proj2 (date_time_decoding (u "09:05:00"))))).
    split; [reflexivity | split; [reflexivity | vm_compute; tauto]].
  - vm_compute. reflexivity.
Defined.

(** C9 as stated fails in both directions: ["1.2.2020"] and ["1:2:3"] are
    not in the fixed formats and are decoded; ["31.02.2020"] and
    ["24:00:00"] are in the fixed formats and are refused. *)
Lemma strptime_is_lenient :
  exact_date_text (u "1.2.2020") = false
  /\ Cast.str_to_date (u "1.2.2020") = Ok (Atom (ADate (mkdate 2020 2 1)))
  /\ exact_time_text (u "1:2:3") = false
  /\ Cast.str_to_time (u "1:2:3") = Ok (Atom (ATime (mktime 1 2 3 0)))
  /\ exact_date_text (u "31.02.2020") = true
  /\ Cast.str_to_date (u "31.02.2020") = Raise ValueError_strptime
  /\ exact_time_text (u "24:00:00") = true
  /\ Cast.str_to_time (u "24:00:00") = Raise ValueError_strptime.
Proof. repeat split; vm_compute; reflexivity. Qed.

(** * Further properties *)

(** ** Writing and reading back: the helpers *)

(** *** Lines and occurrences *)

Lemma split_lines_cons (s : str) : exists l ls, split_lines s = l :: ls.
Proof.
  induction s as [|c s (l & ls & IH)]; simpl; [eauto|].
  destruct (c =? c_nl)%N; [eauto|]. rewrite IH. eauto.
Qed.

Lemma split_lines_app (a b : str) :
  split_lines (a ++ c_nl :: b) = split_lines a ++ split_lines b.
Proof.
  induction a as [|c a IH]; simpl; [reflexivity|].
  destruct (c =? c_nl)%N; [rewrite IH; reflexivity|].
  rewrite IH. destruct (split_lines_cons a) as (l & ls & ->). reflexivity.
Qed.

Lemma split_lines_one (s : str) : ~ In c_nl s -> split_lines s = [s].
Proof.
  induction s as [|c s IH]; simpl; intros H; [reflexivity|].
  destruct (c =? c_nl)%N eqn:E.
  - apply N.eqb_eq in E. tauto.
  - rewrite IH by tauto. reflexivity.
Qed.

Lemma findall_app (k a b : str) :
  Field.findall k (a ++ c_nl :: b) = Field.findall k a ++ Field.findall k b.
Proof.
  unfold Field.findall. rewrite split_lines_app, flat_map_app. reflexivity.
Qed.

Lemma findall_nil (k : str) : Field.findall k [] = [].
Proof. unfold Field.findall. simpl. destruct k; reflexivity. Qed.

Lemma findall_join (k : str) (parts : list str) :
  Field.findall k (join [c_nl] parts) = flat_map (Field.findall k) parts.
Proof.
  induction parts as [|p parts IH]; simpl; [apply findall_nil|].
  destruct parts as [|q parts].
  - simpl. rewrite app_nil_r. reflexivity.
  - change (p ++ [c_nl] ++ join [c_nl] (q :: parts))
      with (p ++ c_nl :: join [c_nl] (q :: parts)).
    rewrite findall_app, IH. reflexivity.
Qed.

Lemma flat_map_filter_nonempty (k : str) (texts : list str) :
  flat_map (Field.findall k) (filter nonempty texts)
  = flat_map (Field.findall k) texts.
Proof.
  induction texts as [|t texts IH]; simpl; [reflexivity|].
  destruct t; simpl; [rewrite findall_nil; exact IH|].
  rewrite IH. reflexivity.
Qed.

Lemma strip_prefix_app (p s : str) : strip_prefix p (p ++ s) = Some s.
Proof.
  induction p as [|c p IH]; simpl; [reflexivity|].
  rewrite N.eqb_refl. exact IH.
Qed.

(** A line [key=value] is an occurrence of exactly its own key. *)
Lemma str_eqb_eq (a b : str) : str_eqb a b = true <-> a = b.
Proof.
  unfold str_eqb. destruct (list_eq_dec N.eq_dec a b); split; congruence.
Qed.

Lemma str_eqb_cons (c c' : char) (k k' : str) :
  str_eqb (c :: k) (c' :: k') = (c =? c')%N && str_eqb k k'.
Proof.
  destruct (str_eqb (c :: k) (c' :: k')) eqn:E.
  - apply str_eqb_eq in E. injection E as -> ->. rewrite N.eqb_refl.
    symmetry. apply str_eqb_eq. reflexivity.
  - symmetry. apply andb_false_iff.
    destruct (c =? c')%N eqn:Ec; [right | left; reflexivity].
    apply N.eqb_eq in Ec. subst c'.
    destruct (str_eqb k k') eqn:Ek; [|reflexivity].
    apply str_eqb_eq in Ek. subst k'.
    rewrite (proj2 (str_eqb_eq (c :: k) (c :: k)) eq_refl) in E.
    discriminate.
Qed.

Lemma strip_prefix_key (k k' v : str) :
  ~ In c_eq k -> ~ In c_eq k' ->
  strip_prefix (k ++ [c_eq]) (k' ++ c_eq :: v)
  = if str_eqb k k' then Some v else None.
Proof.
  revert k'; induction k as [|c k IH]; intros k' Hk Hk'.
  - destruct k' as [|c' k']; cbn [app strip_prefix].
    + rewrite N.eqb_refl. reflexivity.
    + destruct (c_eq =? c')%N eqn:E; [|reflexivity].
      apply N.eqb_eq in E. subst. simpl in Hk'. tauto.
  - destruct k' as [|c' k']; cbn [app strip_prefix].
    + destruct (c =? c_eq)%N eqn:E; [|reflexivity].
      apply N.eqb_eq in E. subst. simpl in Hk. tauto.
    + simpl in Hk, Hk'. rewrite str_eqb_cons.
      destruct (c =? c')%N; [|reflexivity]. apply IH; tauto.
Qed.

Lemma findall_line (k k' v : str) :
  ~ In c_eq k -> ~ In c_eq k' -> ~ In c_nl k' -> ~ In c_nl v ->
  Field.findall k (k' ++ c_eq :: v) = if str_eqb k k' then [v] else [].
Proof.
  intros Hk Hk' Hn Hv. unfold Field.findall.
  rewrite split_lines_one.
  - cbn [flat_map]. rewrite strip_prefix_key by assumption.
    destruct (str_eqb k k'); reflexivity.
  - intros H. apply in_app_or in H as [H|[H|H]]; try tauto. discriminate.
Qed.

(** *** Searching for a marker *)

Lemma strip_prefix_stops (pat a rest : str) (c : char) (r : str) :
  ~ In c pat -> strip_prefix pat (a ++ c :: rest) = Some r ->
  exists r', strip_prefix pat a = Some r'.
Proof.
  revert a; induction pat as [|p pat IH]; intros a Hc H; simpl; [eauto|].
  destruct a as [|x a]; simpl in *.
  - destruct (p =? c)%N eqn:E; [|discriminate].
    apply N.eqb_eq in E. tauto.
  - destruct (p =? x)%N; [|discriminate]. apply IH in H; tauto.
Qed.

Lemma find_sub_cons (pat : str) (x : char) (s : str) :
  find_sub pat (x :: s)
  = match strip_prefix pat (x :: s) with
    | Some r => Some ([], r)
    | None => match find_sub pat s with
              | Some (b, r) => Some (x :: b, r)
              | None => None
              end
    end.
Proof. reflexivity. Qed.

Lemma find_sub_skip (pat a rest : str) (c : char) :
  pat <> [] -> ~ In c pat -> no_sub pat a ->
  find_sub pat (a ++ c :: rest)
  = match find_sub pat rest with
    | Some (b, r) => Some (a ++ c :: b, r)
    | None => None
    end.
Proof.
  intros Hp Hc. unfold no_sub. induction a as [|x a IH]; intros Ha.
  - cbn [app]. rewrite find_sub_cons.
    destruct pat as [|p pat]; [contradiction|]. cbn [strip_prefix].
    destruct (p =? c)%N eqn:E; [apply N.eqb_eq in E; simpl in Hc; tauto|].
    destruct (find_sub (p :: pat) rest) as [[b r]|]; reflexivity.
  - rewrite find_sub_cons in Ha.
    destruct (strip_prefix pat (x :: a)) eqn:E1; [discriminate|].
    destruct (find_sub pat a) as [[? ?]|] eqn:E2; [discriminate|].
    cbn [app]. rewrite find_sub_cons.
    destruct (strip_prefix pat (x :: a ++ c :: rest)) eqn:E.
    + destruct (strip_prefix_stops pat (x :: a) rest c Hc E) as (r' & E').
      congruence.
    + rewrite (IH eq_refl).
      destruct (find_sub pat rest) as [[b r]|]; reflexivity.
Qed.

Lemma no_sub_sep (pat a b : str) (c : char) :
  pat <> [] -> ~ In c pat -> no_sub pat a -> no_sub pat b ->
  no_sub pat (a ++ c :: b).
Proof.
  intros Hp Hc Ha Hb. unfold no_sub. rewrite find_sub_skip by assumption.
  rewrite Hb. reflexivity.
Qed.

Lemma no_sub_nil (pat : str) : pat <> [] -> no_sub pat [].
Proof. destruct pat; [contradiction | reflexivity]. Qed.

Lemma no_sub_join (pat : str) (c : char) (parts : list str) :
  pat <> [] -> ~ In c pat -> Forall (no_sub pat) parts ->
  no_sub pat (join [c] parts).
Proof.
  intros Hp Hc. induction 1 as [|p parts Hx Hparts IH]; simpl;
    [apply no_sub_nil, Hp|].
  destruct parts as [|q parts]; [exact Hx|].
  apply no_sub_sep; assumption.
Qed.

Lemma no_sub_tail (pat : str) (x : char) (s : str) :
  no_sub pat (x :: s) -> no_sub pat s.
Proof.
  unfold no_sub. rewrite find_sub_cons.
  destruct (strip_prefix pat (x :: s)); [discriminate|].
  destruct (find_sub pat s) as [[? ?]|]; [discriminate | reflexivity].
Qed.

Lemma no_sub_suffix (pat a b : str) : no_sub pat (a ++ b) -> no_sub pat b.
Proof.
  induction a as [|x a IH]; simpl; [tauto|].
  intros H. apply IH. eapply no_sub_tail, H.
Qed.

(** A text none of whose characters is the first of the marker. *)
Lemma no_sub_alphabet (pat s : str) :
  pat <> [] -> ~ In (hd 0%N pat) s -> no_sub pat s.
Proof.
  destruct pat as [|p rest]; [contradiction|]. intros _. cbn [hd].
  unfold no_sub. induction s as [|x s IH]; intros H; [reflexivity|].
  rewrite find_sub_cons. cbn [strip_prefix].
  destruct (p =? x)%N eqn:E;
    [apply N.eqb_eq in E; subst; simpl in H; tauto|].
  rewrite IH; [reflexivity | simpl in H; tauto].
Qed.

Lemma find_sub_prefix (pat s : str) :
  find_sub pat (pat ++ s) = Some ([], s).
Proof.
  destruct (pat ++ s) as [|x r] eqn:E.
  - destruct pat; [|discriminate]. simpl in E. subst. reflexivity.
  - rewrite find_sub_cons, <- E, strip_prefix_app. reflexivity.
Qed.
(** *** Digits *)

Lemma int_of_digits_snoc (s : str) (c : char) :
  int_of_digits (s ++ [c]) = (int_of_digits s * 10 + (c - 48))%N.
Proof. unfold int_of_digits. rewrite fold_left_app. reflexivity. Qed.

Lemma int_of_digits_zero (s : str) : int_of_digits (c_0 :: s) = int_of_digits s.
Proof. reflexivity. Qed.

Lemma int_of_digits_zeros (n : nat) (s : str) :
  int_of_digits (repeat c_0 n ++ s) = int_of_digits s.
Proof. induction n as [|n IH]; [reflexivity | exact IH]. Qed.

Lemma is_digit_add (n : N) : (n < 10)%N -> is_digit (48 + n)%N = true.
Proof.
  intros H. unfold is_digit. apply andb_true_iff.
  split; apply N.leb_le; lia.
Qed.

Lemma int_of_digits_one (n : N) : int_of_digits [(48 + n)%N] = n.
Proof. unfold int_of_digits. cbn [fold_left]. lia. Qed.

Lemma digits_fuel_spec (f : nat) (n : N) (acc : str) :
  (n < 10 ^ N.of_nat f)%N ->
  exists D, digits_fuel f n acc = D ++ acc
            /\ forallb is_digit D = true
            /\ int_of_digits D = n
            /\ (f <> O -> D <> []).
Proof.
  revert n acc; induction f as [|f IH]; intros n acc Hn.
  - change (10 ^ N.of_nat 0)%N with 1%N in Hn.
    assert (n = 0%N) as -> by lia.
    exists []. repeat split; try reflexivity. intros H; contradiction.
  - cbn [digits_fuel]. destruct (n <? 10)%N eqn:E.
    + apply N.ltb_lt in E. exists [(48 + n)%N].
      repeat split; try discriminate.
      * cbn [forallb]. rewrite (is_digit_add E). reflexivity.
      * apply int_of_digits_one.
    + apply N.ltb_ge in E.
      assert (Hq : (n / 10 < 10 ^ N.of_nat f)%N).
      { apply N.Div0.div_lt_upper_bound.
        rewrite Nat2N.inj_succ, N.pow_succ_r' in Hn. exact Hn. }
      destruct (IH (n / 10)%N ((48 + n mod 10)%N :: acc) Hq)
        as (D & -> & Hd & Hi & _).
      exists (D ++ [(48 + n mod 10)%N]). rewrite <- app_assoc.
      repeat split.
      * rewrite forallb_app, Hd. cbn [forallb].
        rewrite is_digit_add; [reflexivity|].
        apply N.mod_upper_bound. lia.
      * rewrite int_of_digits_snoc, Hi.
        pose proof (N.Div0.div_mod n 10) as Hdm.
        revert Hdm. generalize (n mod 10)%N, (n / 10)%N. clear. lia.
      * intros _. destruct D; discriminate.
Qed.

Lemma digits_of_spec (n : N) :
  forallb is_digit (digits_of n) = true
  /\ int_of_digits (digits_of n) = n
  /\ digits_of n <> [].
Proof.
  unfold digits_of.
  destruct (@digits_fuel_spec (S (N.to_nat (N.log2 n))) n [])
    as (D & -> & Hd & Hi & Hne).
  - rewrite Nat2N.inj_succ, N2Nat.id.
    destruct (N.eq_dec n 0) as [->|Hz]; [reflexivity|].
    destruct (N.log2_spec n) as [_ H]; [lia|].
    eapply N.lt_le_trans; [exact H|].
    apply N.pow_le_mono_l. lia.
  - rewrite app_nil_r. repeat split; try assumption. apply Hne. discriminate.
Qed.

Lemma span_digits_app (ds rest : str) :
  forallb is_digit ds = true ->
  match rest with [] => True | c :: _ => is_digit c = false end ->
  span_digits (ds ++ rest) = (ds, rest).
Proof.
  induction ds as [|d ds IH]; simpl; intros Hd Hr.
  - destruct rest as [|c rest]; [reflexivity|]. simpl. rewrite Hr.
    reflexivity.
  - apply andb_true_iff in Hd as [H1 H2]. rewrite H1, (IH H2 Hr).
    reflexivity.
Qed.

Lemma replace_all_absent (old : char) (new s : str) :
  ~ In old s -> replace_all old new s = s.
Proof.
  induction s as [|c s IH]; simpl; intros H; [reflexivity|].
  destruct (c =? old)%N eqn:E; [apply N.eqb_eq in E; tauto|].
  rewrite IH by tauto. reflexivity.
Qed.

(** *** Amounts in plain notation *)

(** The shape of [str(d)] in plain notation: sign, integer digits, and
    either nothing (exponent 0) or a period and as many digits as the
    exponent says. *)
Lemma Decimal_to_str_plain (d : Decimal) :
  plain_decimal d = true ->
  exists ip fp,
    forallb is_digit ip = true /\ ip <> []
    /\ forallb is_digit fp = true
    /\ int_of_digits (ip ++ fp) = dcoeff d
    /\ dexp d = (- Z.of_nat (length fp))%Z
    /\ Decimal_to_str d
       = sign_text d ++ ip
         ++ match fp with [] => [] | _ => c_dot :: fp end.
Proof.
  unfold plain_decimal, Decimal_to_str. intros H.
  apply andb_true_iff in H as [He Hl]. rewrite He, Hl. simpl andb. cbv iota.
  apply Z.leb_le in He. apply Z.ltb_lt in Hl.
  destruct (digits_of_spec (dcoeff d)) as (Hd & Hi & Hne).
  set (digits := digits_of (dcoeff d)) in *.
  set (len := Z.of_nat (length digits)) in *.
  rewrite Z.sub_diag. cbn [Z.eqb]. rewrite app_nil_r.
  fold (sign_text d).
  assert (Hlen : (0 < len)%Z).
  { unfold len. destruct digits; [contradiction | simpl; lia]. }
  destruct (dexp d + len <=? 0)%Z eqn:E1.
  - apply Z.leb_le in E1.
    exists [c_0], (repeat c_0 (Z.to_nat (- (dexp d + len))) ++ digits).
    repeat split; try discriminate.
    + rewrite forallb_app, Hd, andb_true_r.
      induction (Z.to_nat _); [reflexivity | exact IHn].
    + cbn [app]. rewrite int_of_digits_zero, int_of_digits_zeros. exact Hi.
    + rewrite length_app, repeat_length. fold len in Hlen |- *.
      unfold len in *. lia.
    + destruct (repeat c_0 _ ++ digits) eqn:E; [|reflexivity].
      apply app_eq_nil in E as [_ E]. contradiction.
  - apply Z.leb_gt in E1.
    destruct (len <=? dexp d + len)%Z eqn:E2.
    + apply Z.leb_le in E2. assert (Hz : dexp d = 0%Z) by lia.
      exists digits, []. rewrite Hz, Z.add_0_l, Z.sub_diag. simpl repeat.
      rewrite !app_nil_r. repeat split; try assumption; try reflexivity.
    + apply Z.leb_gt in E2.
      exists (firstn (Z.to_nat (dexp d + len)) digits),
             (skipn (Z.to_nat (dexp d + len)) digits).
      rewrite firstn_skipn.
      assert (Hk : (0 < Z.to_nat (dexp d + len) < length digits)%nat)
        by (unfold len in *; lia).
      repeat split.
      * rewrite <- (firstn_skipn (Z.to_nat (dexp d + len)) digits) in Hd.
        rewrite forallb_app in Hd. apply andb_true_iff in Hd. tauto.
      * destruct digits; [contradiction|].
        destruct (Z.to_nat (dexp d + len)); [lia | discriminate].
      * rewrite <- (firstn_skipn (Z.to_nat (dexp d + len)) digits) in Hd.
        rewrite forallb_app in Hd. apply andb_true_iff in Hd. tauto.
      * exact Hi.
      * rewrite length_skipn. unfold len in *. lia.
      * destruct (skipn _ digits) eqn:E; [|reflexivity].
        apply (f_equal (@length char)) in E. rewrite length_skipn in E.
        simpl in E. lia.
Qed.

Lemma digit_not c x : is_digit c = true -> is_digit x = false -> (c =? x)%N = false.
Proof.
  intros Hc Hx. apply N.eqb_neq. intros ->. congruence.
Qed.

Lemma Decimal_of_str_plain (d : Decimal) :
  plain_decimal d = true -> Decimal_of_str (Decimal_to_str d) = Ok d.
Proof.
  intros H.
  destruct (Decimal_to_str_plain d H)
    as (ip & fp & Hip & Hne & Hfp & Hi & He & ->).
  destruct d as [sg co ex]. simpl in *. subst ex co.
  set (frac := match fp with [] => [] | _ => c_dot :: fp end).
  assert (Hspan : span_digits (ip ++ frac) = (ip, frac)).
  { apply span_digits_app; [exact Hip|]. unfold frac.
    destruct fp; [exact I | reflexivity]. }
  assert (Hbody :
    (let '(ip0, r1) := span_digits (ip ++ frac) in
     match r1 with
     | [] => match ip0 with
             | [] => Raise InvalidOperation
             | _ => Ok (mkDecimal sg (int_of_digits ip0) 0)
             end
     | c :: r2 =>
         if (c =? c_dot)%N then
           let '(fp0, r3) := span_digits r2 in
           match r3, ip0 ++ fp0 with
           | [], _ :: _ =>
               Ok (mkDecimal sg (int_of_digits (ip0 ++ fp0))
                     (- Z.of_nat (length fp0)))
           | _, _ => Raise InvalidOperation
           end
         else Raise InvalidOperation
     end) = Ok (mkDecimal sg (int_of_digits (ip ++ fp))
                  (- Z.of_nat (length fp)))).
  { rewrite Hspan. unfold frac. destruct fp as [|f fp'].
    - rewrite app_nil_r. destruct ip; [contradiction | reflexivity].
    - cbv beta iota. change (c_dot =? c_dot)%N with true. cbv iota.
      rewrite <- (app_nil_r (f :: fp')) at 1.
      rewrite (span_digits_app _ [] Hfp I).
      destruct (ip ++ f :: fp') eqn:E;
        [destruct ip; discriminate | reflexivity]. }
  unfold Decimal_of_str, sign_text. destruct sg.
  - cbn [app dsign]. change (c_minus =? c_minus)%N with true. cbv iota.
    exact Hbody.
  - cbn [app dsign]. destruct ip as [|c ip']; [contradiction|].
    cbn [app] in *. cbn [forallb] in Hip.
    apply andb_true_iff in Hip as [Hc _]. cbv beta iota.
    rewrite (digit_not c c_minus Hc eq_refl). exact Hbody.
Qed.

Lemma filter_all {A} (p : A -> bool) (l : list A) :
  forallb p l = true -> filter p l = l.
Proof.
  induction l as [|a l IH]; simpl; intros H; [reflexivity|].
  apply andb_true_iff in H as [Ha H]. rewrite Ha, (IH H). reflexivity.
Qed.

Lemma digits_numeric (l : str) :
  forallb is_digit l = true -> forallb numeric_char l = true.
Proof.
  induction l as [|c l IH]; simpl; intros H; [reflexivity|].
  apply andb_true_iff in H as [Hc H]. unfold numeric_char at 1.
  rewrite Hc, (IH H). reflexivity.
Qed.

Lemma numeric_not_in (c : char) (s : str) :
  numeric_char c = false -> forallb numeric_char s = true -> ~ In c s.
Proof.
  intros Hc Hs Hin. rewrite forallb_forall in Hs. apply Hs in Hin.
  congruence.
Qed.

Lemma replace_first_0 (old : char) (new s : str) :
  replace_first 0 old new s = s.
Proof. destruct s; reflexivity. Qed.

Lemma str_to_amount_plain (d : Decimal) :
  plain_decimal d = true ->
  forallb numeric_char (Decimal_to_str d) = true
  /\ ~ In c_colon (Decimal_to_str d)
  /\ Decimal_to_str d <> []
  /\ Cast.str_to_amount (Decimal_to_str d) = Ok (Atom (ADec d)).
Proof.
  intros H. pose proof (Decimal_of_str_plain d H) as Hparse.
  destruct (Decimal_to_str_plain d H)
    as (ip & fp & Hip & Hne & Hfp & Hi & He & E).
  set (s := Decimal_to_str d) in *.
  assert (Hnum : forallb numeric_char s = true).
  { rewrite E. rewrite !forallb_app, (digits_numeric _ Hip).
    replace (forallb numeric_char (sign_text d)) with true
      by (unfold sign_text; destruct (dsign d); reflexivity).
    destruct fp as [|f fp']; [reflexivity|].
    change (forallb numeric_char (c_dot :: f :: fp'))
      with (numeric_char c_dot && forallb numeric_char (f :: fp')).
    rewrite (digits_numeric _ Hfp). reflexivity. }
  assert (Hcolon : ~ In c_colon s).
  { rewrite E. intros Hin.
    assert (Hd : forall l, forallb is_digit l = true -> ~ In c_colon l).
    { intros l Hl Hc. rewrite forallb_forall in Hl. apply Hl in Hc.
      discriminate. }
    apply in_app_or in Hin as [Hin|Hin].
    - unfold sign_text in Hin. destruct (dsign d); [|contradiction].
      destruct Hin as [Hin|[]]. discriminate.
    - apply in_app_or in Hin as [Hin|Hin]; [exact (Hd _ Hip Hin)|].
      destruct fp as [|f fp']; [contradiction|].
      destruct Hin as [Hin|Hin]; [discriminate|].
      exact (Hd _ Hfp Hin). }
  split; [exact Hnum|]. split; [exact Hcolon|].
  split; [rewrite E; destruct (sign_text d), ip; try discriminate;
          contradiction|].
  unfold Cast.str_to_amount.
  assert (Hsub : Cast.re_sub_amount s = s).
  { unfold Cast.re_sub_amount. apply filter_all.
    rewrite forallb_forall in Hnum |- *. intros c Hc.
    pose proof (Hnum c Hc) as Hn. unfold numeric_char in Hn.
    destruct (is_digit c); [reflexivity|].
    destruct (c =? c_dot)%N; [rewrite orb_true_r; reflexivity|].
    destruct (c =? c_minus)%N; [rewrite !orb_true_r; reflexivity|].
    simpl in Hn. rewrite orb_false_r in Hn. apply N.eqb_eq in Hn.
    subst c. contradiction. }
  rewrite Hsub.
  rewrite (replace_all_absent c_apos []),
    (replace_all_absent c_space []), (replace_all_absent c_comma [c_dot]);
    try (apply numeric_not_in; [reflexivity | exact Hnum]).
  assert (Hrep : str_replace c_dot [] (count_char c_dot s - 1) s = s).
  { unfold str_replace, count_char. rewrite E.
    assert (Hf : forall l : str, forallb is_digit l = true ->
                                 filter (N.eqb c_dot) l = []).
    { intros l Hl. apply filter_none. intros y Hy.
      rewrite forallb_forall in Hl. apply Hl in Hy.
      apply N.eqb_neq. intros <-. discriminate. }
    rewrite !filter_app, (Hf _ Hip).
    replace (filter (N.eqb c_dot) (sign_text d)) with (@nil char)
      by (unfold sign_text; destruct (dsign d); reflexivity).
    destruct fp as [|f fp'].
    - simpl. apply replace_all_absent.
      intros Hin. apply in_app_or in Hin as [Hin|Hin].
      + unfold sign_text in Hin. destruct (dsign d); [|contradiction].
        destruct Hin as [Hin|[]]. discriminate.
      + rewrite app_nil_r in Hin. rewrite forallb_forall in Hip.
        apply Hip in Hin. discriminate.
    - change (filter (N.eqb c_dot) (c_dot :: f :: fp'))
        with (c_dot :: filter (N.eqb c_dot) (f :: fp')).
      rewrite (Hf _ Hfp). cbn [app length Z.of_nat].
      change (Z.pos (Pos.of_succ_nat 0) - 1 <? 0)%Z with false. cbv iota.
      change (Z.to_nat (Z.pos (Pos.of_succ_nat 0) - 1)) with O.
      apply replace_first_0. }
  rewrite Hrep, Hparse. reflexivity.
Qed.

(** *** Clean values *)

Lemma single_line_spec (s : str) : single_line s = true <-> ~ In c_nl s.
Proof.
  unfold single_line. rewrite negb_true_iff. split.
  - intros H Hin. assert (E : existsb (N.eqb c_nl) s = true).
    { apply existsb_exists. exists c_nl. split; [exact Hin|].
      apply N.eqb_refl. }
    congruence.
  - intros H. destruct (existsb (N.eqb c_nl) s) eqn:E; [|reflexivity].
    apply existsb_exists in E as (x & Hx & Ex). apply N.eqb_eq in Ex.
    subst x. contradiction.
Qed.

Lemma free_of_spec (pat s : str) : free_of pat s = true <-> no_sub pat s.
Proof.
  unfold free_of, no_sub. destruct (find_sub pat s); split; congruence.
Qed.

Lemma numeric_inert (s : str) :
  forallb numeric_char s = true ->
  ~ In c_nl s /\ no_sub Document.tag_close s.
Proof.
  intros H. split.
  - apply numeric_not_in; [reflexivity | exact H].
  - apply no_sub_alphabet; [vm_compute; discriminate|].
    apply numeric_not_in; [vm_compute; reflexivity | exact H].
Qed.

Lemma pad2_digits (n : N) : forallb is_digit (pad2 n) = true.
Proof.
  unfold pad2, pad_left. rewrite forallb_app.
  rewrite (proj1 (digits_of_spec n)), andb_true_r.
  induction (2 - length (digits_of n))%nat; [reflexivity | exact IHn0].
Qed.

Lemma strftime_date (d : date) (t : time) :
  strftime DATE_FORMAT d t
  = pad2 (day d) ++ c_dot :: pad2 (month d) ++ c_dot :: digits_of (year d).
Proof.
  change (strftime DATE_FORMAT d t)
    with (pad2 (day d) ++ c_dot :: pad2 (month d) ++ c_dot
          :: digits_of (year d) ++ []).
  rewrite app_nil_r. reflexivity.
Qed.

Lemma strftime_time (d : date) (t : time) :
  strftime TIME_FORMAT d t
  = pad2 (hour t) ++ c_colon :: pad2 (minute t) ++ c_colon
    :: pad2 (second t).
Proof.
  change (strftime TIME_FORMAT d t)
    with (pad2 (hour t) ++ c_colon :: pad2 (minute t) ++ c_colon
          :: pad2 (second t) ++ []).
  rewrite app_nil_r. reflexivity.
Qed.

Lemma digits_of_year (y : N) :
  (1000 <= y < 10000)%N -> digits_of y = year_text y.
Proof.
  intros [Hlo Hhi].
  destruct (year_text_digits Hhi)
    as (a & b & c & e & E & Ha & Hb & Hc & He & Hv).
  unfold year_text, pad_left in *.
  destruct (4 - length (digits_of y))%nat; [reflexivity|].
  exfalso. cbn [repeat app] in E. injection E as <- _.
  apply is_digit_bounds in Hb, Hc, He. change (c_0 - 48)%N with 0%N in Hv.
  lia.
Qed.

Lemma strip_fixed (s : str) : str_eqb (strip s) s = true -> strip s = s.
Proof. apply str_eqb_eq. Qed.

(** A clean value is encoded to one line that holds no end marker, and the
    line decodes to the value; only [None] is encoded to the empty text. *)
Lemma clean_codec (t : FType) (v : value) :
  clean t v = true ->
  exists enc,
    cast_to_text t v = Ok enc
    /\ cast_from_text t enc = Ok v
    /\ ~ In c_nl enc
    /\ no_sub Document.tag_close enc
    /\ (enc = [] <-> v = VNone).
Proof.
  destruct t, v as [[|s|d|tm|d tm|dc]| |]; try discriminate; cbn [clean];
    intros H.
  - (* TEXT, None *)
    exists []. repeat split; try reflexivity; tauto.
  - (* TEXT, text *)
    unfold clean_text in H.
    apply andb_true_iff in H as [H Hfree].
    apply andb_true_iff in H as [H Hline].
    apply andb_true_iff in H as [Hne Hstrip].
    exists s. destruct s as [|c s']; [discriminate|].
    split; [|split; [|split; [|split; [|split; discriminate]]]].
    + cbn [cast_to_text]. unfold Cast.text_to_str. cbn [truthy py_str atom_str].
      rewrite (strip_fixed _ Hstrip). reflexivity.
    + cbn [cast_from_text]. unfold Cast.str_to_text.
      rewrite (strip_fixed _ Hstrip). reflexivity.
    + apply single_line_spec. assumption.
    + apply free_of_spec. assumption.
  - (* DATE, None *)
    exists []. repeat split; try reflexivity; tauto.
  - (* DATE, date *)
    apply andb_true_iff in H as [Hv Hy]. apply N.leb_le in Hy.
    assert (Hy' : (year d <= 9999)%N).
    { unfold date_valid in Hv.
      repeat (apply andb_true_iff in Hv as [Hv ?]).
      apply N.leb_le. assumption. }
    exists (strftime DATE_FORMAT d midnight).
    assert (Hnum : forallb numeric_char (strftime DATE_FORMAT d midnight)
                   = true).
    { rewrite strftime_date, forallb_app. cbn [forallb].
      rewrite forallb_app. cbn [forallb].
      rewrite !(digits_numeric _ (pad2_digits _)).
      rewrite (digits_numeric _ (proj1 (digits_of_spec _))). reflexivity. }
    destruct (numeric_inert _ Hnum) as [Hnl Hsub].
    assert (Hne : strftime DATE_FORMAT d midnight <> []).
    { rewrite strftime_date. intros E. apply app_eq_nil in E as [_ E].
      discriminate. }
    repeat split; try assumption; try discriminate.
    + cbn [cast_from_text]. unfold Cast.str_to_date.
      destruct (strftime DATE_FORMAT d midnight) eqn:E; [contradiction|].
      rewrite <- E.
      rewrite (proj2 (strptime_date (strftime DATE_FORMAT d midnight) d
                        midnight)); [reflexivity|].
      split; [exact Hv|]. split; [reflexivity|].
      rewrite strftime_date, digits_of_year by lia.
      unfold date_texts, day_texts, two_digit_texts. apply in_flat_map.
      exists (pad2 (day d)). split; [left; reflexivity|].
      left. reflexivity.
    + intros E. contradiction.
  - (* TIME, None *)
    exists []. repeat split; try reflexivity; tauto.
  - (* TIME, time *)
    apply andb_true_iff in H as [Hv Hus]. apply N.eqb_eq in Hus.
    exists (strftime TIME_FORMAT epoch_1900 tm).
    assert (Hnum : forallb numeric_char (strftime TIME_FORMAT epoch_1900 tm)
                   = true).
    { rewrite strftime_time, forallb_app. cbn [forallb].
      rewrite forallb_app. cbn [forallb].
      rewrite !(digits_numeric _ (pad2_digits _)). reflexivity. }
    destruct (numeric_inert _ Hnum) as [Hnl Hsub].
    assert (Hne : strftime TIME_FORMAT epoch_1900 tm <> []).
    { rewrite strftime_time. intros E. apply app_eq_nil in E as [_ E].
      discriminate. }
    repeat split; try assumption; try discriminate.
    + cbn [cast_from_text]. unfold Cast.str_to_time.
      destruct (strftime TIME_FORMAT epoch_1900 tm) eqn:E; [contradiction|].
      rewrite <- E.
      rewrite (proj2 (strptime_time (strftime TIME_FORMAT epoch_1900 tm)
                        epoch_1900 tm)); [reflexivity|].
      split; [exact Hv|]. split; [exact Hus|]. split; [reflexivity|].
      rewrite strftime_time.
      unfold time_texts, two_digit_texts. apply in_flat_map.
      exists (pad2 (hour tm)). split; [left; reflexivity|].
      apply in_flat_map.
      exists (pad2 (minute tm)). split; [left; reflexivity|].
      left. reflexivity.
    + intros E. contradiction.
  - (* AMOUNT, decimal *)
    destruct (str_to_amount_plain dc H) as (Hnum & _ & Hne & Hdec).
    destruct (numeric_inert _ Hnum) as [Hnl Hsub].
    exists (Decimal_to_str dc).
    repeat split; try assumption; try discriminate.
    + cbn [cast_to_text]. unfold Cast.amount_to_str. cbn [py_str atom_str].
      rewrite replace_all_absent; [reflexivity|].
      apply numeric_not_in; [reflexivity | exact Hnum].
    + intros E. contradiction.
Qed.

(** *** Well-formed documents *)

(** *** Keys *)

Lemma all_keys_good : forallb good_key all_keys = true.
Proof. vm_compute. reflexivity. Qed.

Lemma all_keys_distinct : distinct all_keys = true.
Proof. vm_compute. reflexivity. Qed.

Lemma all_names_distinct :
  forallb (fun S => distinct (map (fun nf => u (fst nf)) S)) all_schemas
  = true.
Proof. vm_compute. reflexivity. Qed.

Lemma distinct_NoDup (l : list str) : distinct l = true -> NoDup l.
Proof.
  induction l as [|x t IH]; simpl; intros H; constructor.
  - apply andb_true_iff in H as [H _]. apply negb_true_iff in H.
    intros Hin. assert (E : existsb (str_eqb x) t = true).
    { apply existsb_exists. exists x. split; [exact Hin|].
      apply str_eqb_eq. reflexivity. }
    congruence.
  - apply IH. apply andb_true_iff in H as [_ H]. exact H.
Qed.

Lemma good_key_spec (k : str) :
  good_key k = true ->
  ~ In c_eq k /\ ~ In c_nl k /\ no_sub Document.tag_close k.
Proof.
  unfold good_key. intros H.
  apply andb_true_iff in H as [H Hfree].
  apply andb_true_iff in H as [Heq Hline].
  split; [|split].
  - apply negb_true_iff in Heq. intros Hin.
    assert (E : existsb (N.eqb c_eq) k = true).
    { apply existsb_exists. exists c_eq. split; [exact Hin|].
      apply N.eqb_refl. }
    congruence.
  - apply single_line_spec, Hline.
  - apply free_of_spec, Hfree.
Qed.

Lemma tag_close_nonempty : Document.tag_close <> [].
Proof. intros E. vm_compute in E. discriminate E. Qed.

Lemma tag_close_no_eq : ~ In c_eq Document.tag_close.
Proof. intros H. vm_compute in H. intuition discriminate. Qed.

Lemma tag_close_no_nl : ~ In c_nl Document.tag_close.
Proof. intros H. vm_compute in H. intuition discriminate. Qed.

(** *** One field *)

Lemma clean_type (t : FType) (v : value) :
  clean t v = true ->
  FType_eqb t ARRAY = false /\ FType_eqb t FLAG = false.
Proof. destruct t, v as [[]| |]; try discriminate; split; reflexivity. Qed.

Lemma get_text_clean (f : Field) (v : value) (enc : str) :
  clean (type f) v = true -> cast_to_text (type f) v = Ok enc ->
  Section_.get_text f v = Ok (field_line f enc).
Proof.
  intros Hc He. destruct (clean_type _ _ Hc) as [Ha Hf].
  unfold Section_.get_text, Section_.get_line, field_line.
  rewrite Ha, andb_false_r, He, Hf. cbn [bind].
  destruct (_ && _); reflexivity.
Qed.

Lemma findall_field_line (k : str) (f : Field) (enc : str) :
  good_key k = true -> good_key (key f) = true -> ~ In c_nl enc ->
  Field.findall k (field_line f enc)
  = if str_eqb k (key f) then field_found f enc else [].
Proof.
  intros Hk Hf Henc. unfold field_line, field_found.
  destruct (_ && _).
  - rewrite findall_nil. destruct (str_eqb k (key f)); reflexivity.
  - apply good_key_spec in Hk as (Hk1 & _ & _).
    apply good_key_spec in Hf as (Hf1 & Hf2 & _).
    rewrite findall_line by assumption. reflexivity.
Qed.

Lemma field_line_inert (f : Field) (enc : str) :
  good_key (key f) = true -> no_sub Document.tag_close enc ->
  no_sub Document.tag_close (field_line f enc).
Proof.
  intros Hf Henc. unfold field_line. destruct (_ && _).
  - apply no_sub_nil, tag_close_nonempty.
  - apply good_key_spec in Hf as (_ & _ & Hf).
    apply no_sub_sep; try assumption.
    + apply tag_close_nonempty.
    + apply tag_close_no_eq.
Qed.

(** Decoding what the line of a clean value gives back. *)
Lemma get_value_found (f : Field) (v : value) (enc text : str) :
  clean (type f) v = true ->
  cast_from_text (type f) enc = Ok v -> (enc = [] <-> v = VNone) ->
  Field.findall (key f) text = field_found f enc ->
  Field.get_value_from_text f (SText text) = Ok v.
Proof.
  intros Hc Hd Hn Hf. destruct (clean_type _ _ Hc) as [Ha _].
  unfold Field.get_value_from_text. rewrite Hf, Ha. unfold field_found.
  destruct (negb (to_bank_in (required f)) && negb (nonempty enc)) eqn:E;
    cbn.
  - apply andb_true_iff in E as [_ E]. apply negb_true_iff in E.
    destruct enc; [|discriminate E]. rewrite (proj1 Hn eq_refl).
    reflexivity.
  - exact Hd.
Qed.

Lemma get_value_none (f : Field) (text : str) :
  Field.findall (key f) text = [] ->
  Field.get_value_from_text f (SText text) = Ok VNone.
Proof.
  intros Hf. unfold Field.get_value_from_text. rewrite Hf. reflexivity.
Qed.

(** *** One section *)

Lemma to_text_loop_clean (S : schema) (o : obj) (acc : list str) :
  wf_section S o = true ->
  Section_.to_text_loop S o false acc = Ok (acc ++ section_lines S o).
Proof.
  revert acc; induction S as [|[name f] S IH]; intros acc H; simpl.
  - rewrite app_nil_r. reflexivity.
  - simpl in H. apply andb_true_iff in H as [Hc H].
    destruct (clean_codec _ _ Hc) as (enc & He & _).
    rewrite (get_text_clean f _ Hc He). cbn [bind].
    rewrite (IH _ H), <- app_assoc. unfold encoded. cbn [fst snd].
    rewrite He. reflexivity.
Qed.

Lemma to_text_clean (S : schema) (o : obj) :
  wf_section S o = true ->
  Section_.to_text S o false = Ok (section_text S o).
Proof.
  intros H. unfold Section_.to_text.
  rewrite (to_text_loop_clean S o [] H). reflexivity.
Qed.

(** With every field populated the gate lets the section through. *)
Lemma to_text_loop_populated (S : schema) (o : obj) (acc : list str) :
  wf_section S o = true ->
  forallb (fun nf => populated (getattr o (fst nf))) S = true ->
  Section_.to_text_loop S o true acc = Section_.to_text_loop S o false acc.
Proof.
  revert acc; induction S as [|[name f] S IH]; intros acc H Hp; simpl;
    [reflexivity|].
  simpl in H, Hp. apply andb_true_iff in H as [Hc H].
  apply andb_true_iff in Hp as [Hv Hp].
  destruct (clean_codec _ _ Hc) as (enc & He & _ & _ & _ & Hn).
  unfold Section_.validate_attr. rewrite He. cbn [bind].
  assert (Hne : nonempty enc = true).
  { destruct enc; [|reflexivity]. rewrite (proj1 Hn eq_refl) in Hv.
    discriminate. }
  rewrite Hne, andb_false_r. cbn [bind].
  rewrite (get_text_clean f _ Hc He). cbn [bind]. apply IH; assumption.
Qed.

Lemma section_lines_inert (S : schema) (o : obj) :
  wf_section S o = true -> forallb good_key (keys_of S) = true ->
  Forall (no_sub Document.tag_close) (section_lines S o).
Proof.
  induction S as [|[name f] S IH]; simpl; intros H Hk; constructor.
  - apply andb_true_iff in H as [Hc _].
    apply andb_true_iff in Hk as [Hk _].
    destruct (clean_codec _ _ Hc) as (enc & He & _ & _ & Hs & _).
    unfold encoded. cbn [fst snd]. rewrite He.
    apply field_line_inert; assumption.
  - apply andb_true_iff in H as [_ H].
    apply andb_true_iff in Hk as [_ Hk]. apply IH; assumption.
Qed.

Lemma section_text_inert (S : schema) (o : obj) :
  wf_section S o = true -> forallb good_key (keys_of S) = true ->
  no_sub Document.tag_close (section_text S o).
Proof.
  intros H Hk. unfold section_text. apply no_sub_join.
  - apply tag_close_nonempty.
  - apply tag_close_no_nl.
  - pose proof (section_lines_inert S o H Hk) as HF.
    induction HF as [|x l Hx HF IH]; simpl; [constructor|].
    destruct (nonempty x); [constructor; assumption | assumption].
Qed.

(** The occurrences of a key in the text of a section. *)
Lemma findall_section (k : str) (S : schema) (o : obj) :
  wf_section S o = true -> forallb good_key (keys_of S) = true ->
  good_key k = true ->
  Field.findall k (section_text S o)
  = flat_map (fun nf =>
                if str_eqb k (key (snd nf))
                then field_found (snd nf)
                       (encoded (snd nf) (getattr o (fst nf)))
                else [])
             S.
Proof.
  intros H Hk Hgk. unfold section_text.
  rewrite findall_join, flat_map_filter_nonempty. unfold section_lines.
  rewrite flat_map_concat_map, map_map, <- flat_map_concat_map.
  induction S as [|[name f] S IH]; simpl; [reflexivity|].
  simpl in H, Hk. apply andb_true_iff in H as [Hc H].
  apply andb_true_iff in Hk as [Hkf Hk].
  rewrite (IH H Hk). f_equal.
  destruct (clean_codec _ _ Hc) as (enc & He & _ & Hnl & _).
  unfold encoded. rewrite He.
  apply findall_field_line; assumption.
Qed.

(** *** All sections of a document *)

Lemma found_of_other (k : str) (o : obj) (S : schema) :
  ~ In k (keys_of S) -> found_of k o S = [].
Proof.
  unfold found_of, keys_of.
  induction S as [|nf S IH]; cbn [flat_map map In]; intros H; [reflexivity|].
  destruct (str_eqb k (key (snd nf))) eqn:E.
  - apply str_eqb_eq in E. exfalso. apply H. left. symmetry. exact E.
  - apply IH. intros Hin. apply H. right. exact Hin.
Qed.

Lemma found_of_own (o : obj) (S : schema) (nf : string * Field) :
  NoDup (keys_of S) -> In nf S ->
  found_of (key (snd nf)) o S
  = field_found (snd nf) (encoded (snd nf) (getattr o (fst nf))).
Proof.
  induction S as [|x S IH]; intros Hnd Hin; [contradiction|].
  unfold keys_of in Hnd. cbn [map] in Hnd.
  inversion Hnd as [|? ? Hx Hnd']; subst.
  unfold found_of. cbn [flat_map]. fold (found_of (key (snd nf)) o S).
  destruct Hin as [->|Hin].
  - rewrite (proj2 (str_eqb_eq _ _) eq_refl).
    rewrite (@found_of_other _ o S Hx).
    apply app_nil_r.
  - destruct (str_eqb (key (snd nf)) (key (snd x))) eqn:E.
    + apply str_eqb_eq in E. exfalso. apply Hx. rewrite <- E.
      apply in_map_iff. exists nf. split; [reflexivity | exact Hin].
    + apply IH; assumption.
Qed.

Lemma found_in_other (k : str) (so : section) :
  ~ In k (keys_of (fst so)) -> found_in k so = [].
Proof.
  unfold found_in. destruct (snd so) as [o|]; [|reflexivity].
  apply found_of_other.
Qed.

Lemma found_in_own (so : section) (nf : string * Field) :
  NoDup (keys_of (fst so)) -> In nf (fst so) ->
  found_in (key (snd nf)) so
  = match snd so with
    | Some o => field_found (snd nf) (encoded (snd nf) (getattr o (fst nf)))
    | None => []
    end.
Proof.
  unfold found_in. destruct (snd so) as [o|]; [|reflexivity].
  apply found_of_own.
Qed.

Lemma NoDup_app_disjoint (A : Type) (l1 l2 : list A) :
  NoDup (l1 ++ l2) -> forall a, In a l1 -> ~ In a l2.
Proof.
  induction l1 as [|x l1 IH]; intros Hnd a Hin; [contradiction|].
  cbn [app] in Hnd. inversion Hnd as [|? ? Hx Hnd']; subst.
  destruct Hin as [->|Hin].
  - intros H. apply Hx. apply in_or_app. right. exact H.
  - apply IH; assumption.
Qed.

Lemma found_in_none (k : str) (L : list section) :
  (forall s, In s L -> ~ In k (keys_of (fst s))) ->
  flat_map (found_in k) L = [].
Proof.
  induction L as [|s L IH]; intros H; [reflexivity|].
  cbn [flat_map]. rewrite found_in_other by (apply H; left; reflexivity).
  apply IH. intros s' Hs'. apply H. right. exact Hs'.
Qed.

Lemma found_in_unique (L : list section) (so : section)
  (nf : string * Field) :
  NoDup (flat_map (fun s => keys_of (fst s)) L) ->
  In so L -> In nf (fst so) ->
  flat_map (found_in (key (snd nf))) L
  = match snd so with
    | Some o => field_found (snd nf) (encoded (snd nf) (getattr o (fst nf)))
    | None => []
    end.
Proof.
  intros Hnd Hso Hnf.
  assert (Hk : In (key (snd nf)) (keys_of (fst so))).
  { apply in_map_iff. exists nf. split; [reflexivity | exact Hnf]. }
  induction L as [|s L IH]; [contradiction|].
  cbn [flat_map] in Hnd |- *.
  destruct Hso as [->|Hso].
  - rewrite (found_in_own so nf);
      [|eapply NoDup_app_remove_r, Hnd | exact Hnf].
    rewrite found_in_none; [apply app_nil_r|].
    intros s' Hs' Hin.
    apply (@NoDup_app_disjoint _ _ _ Hnd _ Hk).
    apply in_flat_map. exists s'. split; assumption.
  - rewrite found_in_other.
    + apply IH; [eapply NoDup_app_remove_l, Hnd | exact Hso].
    + intros Hin. apply (@NoDup_app_disjoint _ _ _ Hnd _ Hin).
      apply in_flat_map. exists so. split; assumption.
Qed.

(** *** The text of a document *)

Lemma mapM_present (L : list section) :
  forallb wf_attached L = true ->
  mapM (fun x => Section_.to_str (fst x) (snd x)) (Document.present L)
  = Ok (attached_texts L).
Proof.
  unfold attached_texts.
  induction L as [|[S [o|]] L IH]; intros H; [reflexivity| |].
  - cbn [forallb] in H. apply andb_true_iff in H as [Ho H].
    cbn [Document.present mapM map fst snd].
    unfold Section_.to_str at 1.
    unfold wf_attached in Ho. cbn [fst snd] in Ho.
    rewrite (to_text_clean S o Ho). cbn [bind]. rewrite (IH H). reflexivity.
  - cbn [forallb] in H. apply andb_true_iff in H as [_ H]. apply IH, H.
Qed.

Lemma join_cons (sep p q : str) (rest : list str) :
  join sep (p :: q :: rest) = p ++ sep ++ join sep (q :: rest).
Proof. reflexivity. Qed.

Lemma join_close (c : char) (x content : str) (secs : list str) :
  content ++ [c] ++ join [c] (secs ++ [x])
  = join [c] (content :: secs) ++ c :: x.
Proof.
  revert content; induction secs as [|s secs IH]; intros content.
  - reflexivity.
  - rewrite join_cons.
    replace (join [c] ((s :: secs) ++ [x]))
      with (s ++ [c] ++ join [c] (secs ++ [x])).
    + rewrite IH, <- !app_assoc. reflexivity.
    + destruct secs; reflexivity.
Qed.

Lemma wf_document_sections (d : Document) :
  wf_document d = true -> forallb wf_attached (sections_of d) = true.
Proof.
  unfold wf_document. intros H.
  apply andb_true_iff in H as [H Hs]. apply andb_true_iff in H as [Hc _].
  unfold sections_of. cbn [forallb]. rewrite Hs, andb_true_r. exact Hc.
Qed.

Lemma to_text_document (d : Document) :
  wf_document d = true ->
  Document.to_text d true
  = Ok (document_body d ++ c_nl :: Document.tag_close).
Proof.
  intros H. pose proof H as H0. unfold wf_document in H0.
  apply andb_true_iff in H0 as [H0 Hs]. apply andb_true_iff in H0 as [Hc Hp].
  unfold Document.to_text, Section_.to_text.
  rewrite (to_text_loop_populated Document.Schema (attrs d) [] Hc Hp).
  rewrite (to_text_loop_clean Document.Schema (attrs d) [] Hc).
  cbn [bind]. rewrite (mapM_present _ Hs). cbn [bind].
  rewrite join_close. reflexivity.
Qed.

(** *** Finding the document in its text *)

Lemma schemas_good :
  forallb (fun S => forallb good_key (keys_of S)) all_schemas = true.
Proof. vm_compute. reflexivity. Qed.

Lemma sections_schemas (d : Document) : map fst (sections_of d) = all_schemas.
Proof. reflexivity. Qed.

Lemma sections_keys (d : Document) :
  flat_map (fun s : section => keys_of (fst s)) (sections_of d) = all_keys.
Proof. reflexivity. Qed.

Lemma section_good (d : Document) (so : section) :
  In so (sections_of d) -> forallb good_key (keys_of (fst so)) = true.
Proof.
  intros H. apply (in_map fst) in H. rewrite sections_schemas in H.
  exact (proj1 (forallb_forall _ _) schemas_good _ H).
Qed.

Lemma tag_open_nonempty : Document.tag_open <> [].
Proof. intros E. vm_compute in E. discriminate E. Qed.

Lemma find_sub_self (pat : str) : find_sub pat pat = Some ([], []).
Proof.
  pose proof (find_sub_prefix pat []) as H. rewrite app_nil_r in H. exact H.
Qed.

Lemma findall_between_one (Q : str) :
  no_sub Document.tag_close Q ->
  Section_.findall_between
    (length (Document.tag_open ++ Q ++ c_nl :: Document.tag_close)) true
    Document.tag_open Document.tag_close
    (Document.tag_open ++ Q ++ c_nl :: Document.tag_close)
  = [Document.tag_open ++ Q ++ [c_nl]].
Proof.
  intros HQ.
  destruct (length (Document.tag_open ++ Q ++ c_nl :: Document.tag_close))
    as [|n] eqn:EL.
  - apply length_zero_iff_nil, app_eq_nil in EL.
    destruct (tag_open_nonempty (proj1 EL)).
  - cbn [Section_.findall_between].
    rewrite find_sub_prefix.
    rewrite (@find_sub_skip _ _ _ _ tag_close_nonempty tag_close_no_nl HQ).
    rewrite find_sub_self.
    destruct n as [|n]; [reflexivity|].
    cbn [Section_.findall_between].
    rewrite (@no_sub_nil _ tag_open_nonempty). reflexivity.
Qed.

Lemma extract_document (P Q : str) :
  P = Document.tag_open ++ Q -> no_sub Document.tag_close P ->
  Section_.extract_section_text Document.regex
    (P ++ c_nl :: Document.tag_close)
  = Ok (SText (P ++ [c_nl])).
Proof.
  intros -> HP. apply no_sub_suffix in HP as HQ.
  unfold Section_.extract_section_text, Document.regex.
  rewrite <- !app_assoc. rewrite (@findall_between_one _ HQ). reflexivity.
Qed.

Lemma attached_texts_inert (L : list section) :
  forallb wf_attached L = true ->
  (forall so, In so L -> forallb good_key (keys_of (fst so)) = true) ->
  Forall (no_sub Document.tag_close) (attached_texts L).
Proof.
  unfold attached_texts.
  induction L as [|[S [o|]] L IH]; intros H Hk; cbn [forallb] in H;
    cbn [Document.present map].
  - constructor.
  - apply andb_true_iff in H as [Ho H]. constructor.
    + apply section_text_inert; [exact Ho|].
      apply (Hk (S, Some o)). left. reflexivity.
    + apply IH; [exact H|]. intros so Hso. apply Hk. right. exact Hso.
  - apply andb_true_iff in H as [_ H].
    apply IH; [exact H|]. intros so Hso. apply Hk. right. exact Hso.
Qed.

Lemma findall_attached (k : str) (L : list section) :
  good_key k = true -> forallb wf_attached L = true ->
  (forall so, In so L -> forallb good_key (keys_of (fst so)) = true) ->
  flat_map (Field.findall k) (attached_texts L) = flat_map (found_in k) L.
Proof.
  intros Hgk. unfold attached_texts.
  induction L as [|[S [o|]] L IH]; intros H Hk; cbn [forallb] in H;
    cbn [Document.present map flat_map].
  - reflexivity.
  - apply andb_true_iff in H as [Ho H].
    rewrite IH; [|exact H | intros so Hso; apply Hk; right; exact Hso].
    f_equal. cbn [fst snd]. unfold found_in, found_of. cbn [fst snd].
    apply findall_section; [exact Ho | | exact Hgk].
    apply (Hk (S, Some o)). left. reflexivity.
  - apply andb_true_iff in H as [_ H].
    rewrite IH; [|exact H | intros so Hso; apply Hk; right; exact Hso].
    reflexivity.
Qed.

Lemma document_body_inert (d : Document) :
  wf_document d = true -> no_sub Document.tag_close (document_body d).
Proof.
  intros H. unfold document_body. apply no_sub_join.
  - apply tag_close_nonempty.
  - apply tag_close_no_nl.
  - apply attached_texts_inert; [apply wf_document_sections, H|].
    apply section_good.
Qed.

Lemma findall_document (d : Document) (k : str) :
  wf_document d = true -> good_key k = true ->
  Field.findall k (document_body d ++ [c_nl])
  = flat_map (found_in k) (sections_of d).
Proof.
  intros H Hk. rewrite findall_app, findall_nil, app_nil_r.
  unfold document_body. rewrite findall_join.
  apply findall_attached; [exact Hk | apply wf_document_sections, H|].
  apply section_good.
Qed.

Lemma join_head (sep p : str) (rest : list str) :
  exists r, join sep (p :: rest) = p ++ r.
Proof.
  destruct rest as [|q rest].
  - exists []. symmetry. apply app_nil_r.
  - exists (sep ++ join sep (q :: rest)). reflexivity.
Qed.

Lemma section_text_head (name : string) (f : Field) (S : schema) (o : obj) :
  clean (type f) (getattr o name) = true ->
  populated (getattr o name) = true ->
  exists Q, section_text ((name, f) :: S) o = key f ++ Q.
Proof.
  intros Hc Hp.
  destruct (clean_codec _ _ Hc) as (enc & He & _ & _ & _ & Hn).
  unfold section_text, section_lines. cbn [map fst snd].
  unfold encoded at 1. rewrite He. unfold field_line at 1.
  assert (Hne : nonempty enc = true).
  { destruct enc; [|reflexivity]. rewrite (proj1 Hn eq_refl) in Hp.
    discriminate. }
  rewrite Hne, andb_false_r. cbn [filter].
  replace (nonempty (key f ++ c_eq :: enc)) with true
    by (destruct (key f); reflexivity).
  destruct (join_head [c_nl] (key f ++ c_eq :: enc)
              (filter nonempty
                 (map (fun nf => field_line (snd nf)
                                   (encoded (snd nf) (getattr o (fst nf))))
                      S))) as (r & ->).
  exists ((c_eq :: enc) ++ r). rewrite <- app_assoc. reflexivity.
Qed.

Lemma Document_Schema_shape :
  Document.Schema
  = ("document_type"%string, mkField Document.tag_open NONE TEXT)
      :: tl Document.Schema.
Proof. vm_compute. reflexivity. Qed.

Lemma section_text_head' (name : string) (f : Field) (S : schema) (o : obj)
  (k : str) :
  key f = k ->
  clean (type f) (getattr o name) = true ->
  populated (getattr o name) = true ->
  exists Q, section_text ((name, f) :: S) o = k ++ Q.
Proof. intros <-. apply section_text_head. Qed.

Lemma first_clean (name : string) (f : Field) (S : schema) (o : obj) :
  wf_section ((name, f) :: S) o = true -> clean (type f) (getattr o name) = true.
Proof.
  unfold wf_section. cbn [forallb fst snd]. intros H.
  apply andb_true_iff in H as [H _]. exact H.
Qed.

Lemma first_populated (name : string) (f : Field) (S : schema) (o : obj) :
  forallb (fun nf => populated (getattr o (fst nf))) ((name, f) :: S) = true ->
  populated (getattr o name) = true.
Proof.
  cbn [forallb fst snd]. intros H.
  apply andb_true_iff in H as [H _]. exact H.
Qed.

Lemma content_head (o : obj) :
  wf_section Document.Schema o = true ->
  forallb (fun nf => populated (getattr o (fst nf))) Document.Schema = true ->
  exists Q, section_text Document.Schema o = Document.tag_open ++ Q.
Proof.
  rewrite Document_Schema_shape.
  generalize (tl Document.Schema). intros S0 Hc Hp.
  apply section_text_head'.
  - reflexivity.
  - exact (@first_clean _ _ _ _ Hc).
  - exact (@first_populated _ _ _ _ Hp).
Qed.

Lemma body_cons (d : Document) :
  document_body d
  = join [c_nl] (section_text Document.Schema (attrs d)
                 :: attached_texts (Document.subsections d)).
Proof. reflexivity. Qed.

Lemma wf_document_parts (d : Document) :
  wf_document d = true ->
  wf_section Document.Schema (attrs d) = true
  /\ forallb (fun nf => populated (getattr (attrs d) (fst nf)))
       Document.Schema = true
  /\ forallb wf_attached (Document.subsections d) = true.
Proof.
  unfold wf_document. intros H.
  apply andb_true_iff in H as [H Hs]. apply andb_true_iff in H as [Hc Hp].
  auto.
Qed.

Lemma document_body_head (d : Document) :
  wf_document d = true ->
  exists Q, document_body d = Document.tag_open ++ Q.
Proof.
  intros H. apply wf_document_parts in H as (Hc & Hp & _).
  rewrite body_cons.
  destruct (content_head _ Hc Hp) as (Q & ->).
  destruct (join_head [c_nl] (Document.tag_open ++ Q)
              (attached_texts (Document.subsections d))) as (r & ->).
  exists (Q ++ r). rewrite <- app_assoc. reflexivity.
Qed.

(** *** Reading the sections back *)

Lemma from_text_loop_values (S : schema) (sp : span) (val : string -> value) :
  (forall nf, In nf S ->
              Field.get_value_from_text (snd nf) sp = Ok (val (fst nf))) ->
  forall o, exists o',
    Section_.from_text_loop S sp o = Ok o'
    /\ forall n, (In n (map fst S) -> getattr o' n = val n)
                 /\ (getattr o n = val n -> getattr o' n = val n).
Proof.
  induction S as [|[name f] S IH]; intros H o.
  - exists o. split; [reflexivity|]. intros n. split; [contradiction | auto].
  - cbn [Section_.from_text_loop].
    pose proof (H (name, f) (or_introl eq_refl)) as H0.
    cbn [fst snd] in H0. rewrite H0. cbn [bind].
    destruct (IH (fun nf Hin => H nf (or_intror Hin))
                 (setattr o name (val name))) as (o' & Ho' & Hv).
    exists o'. split; [exact Ho'|]. intros n. split.
    + intros [<-|Hin].
      * apply (proj2 (Hv name)). unfold getattr, setattr.
        rewrite String.eqb_refl. reflexivity.
      * apply (proj1 (Hv n)), Hin.
    + intros Hn. apply (proj2 (Hv n)). unfold getattr, setattr.
      destruct (String.eqb n name) eqn:E;
        [apply String.eqb_eq in E; subst; reflexivity | exact Hn].
Qed.

Lemma from_text_values (S : schema) (sp : span) (o : obj) :
  (forall nf, In nf S ->
              Field.get_value_from_text (snd nf) sp
              = Ok (getattr o (fst nf))) ->
  exists o', Section_.from_text S sp = Ok o' /\ same_fields S o' o.
Proof.
  intros H.
  destruct (from_text_loop_values S sp (getattr o) H new_obj)
    as (o' & Ho' & Hv).
  exists o'. split; [exact Ho'|]. intros nf Hin.
  apply (proj1 (Hv (fst nf))). apply in_map, Hin.
Qed.

Lemma field_read (d : Document) (so : section) (nf : string * Field) :
  wf_document d = true -> In so (sections_of d) -> In nf (fst so) ->
  Field.get_value_from_text (snd nf) (SText (document_body d ++ [c_nl]))
  = Ok (getattr (attached_or_blank (snd so)) (fst nf)).
Proof.
  intros H Hso Hnf.
  assert (Hgood : good_key (key (snd nf)) = true).
  { pose proof (@section_good d so Hso) as Hg.
    apply (proj1 (forallb_forall _ _) Hg). unfold keys_of.
    apply in_map_iff. exists nf. split; [reflexivity | exact Hnf]. }
  assert (Hfind :
            Field.findall (key (snd nf)) (document_body d ++ [c_nl])
            = match snd so with
              | Some o => field_found (snd nf)
                            (encoded (snd nf) (getattr o (fst nf)))
              | None => []
              end).
  { rewrite (@findall_document d _ H Hgood).
    apply found_in_unique; [|exact Hso | exact Hnf].
    rewrite sections_keys. apply distinct_NoDup, all_keys_distinct. }
  pose proof (@wf_document_sections d H) as Hwf.
  pose proof (proj1 (forallb_forall _ _) Hwf so Hso) as Hso_wf.
  destruct so as [S [o|]]; cbn [fst snd attached_or_blank] in *.
  - unfold wf_attached in Hso_wf. cbn [fst snd] in Hso_wf.
    pose proof (proj1 (forallb_forall _ _) Hso_wf nf Hnf) as Hc.
    cbn beta in Hc.
    destruct (clean_codec _ _ Hc) as (enc & He & Hd & _ & _ & Hn).
    apply (@get_value_found (snd nf) _ enc _ Hc Hd Hn).
    rewrite Hfind. unfold encoded. rewrite He. reflexivity.
  - apply get_value_none. exact Hfind.
Qed.

Lemma section_read (d : Document) (so : section) :
  wf_document d = true -> In so (sections_of d) ->
  exists o',
    Section_.from_text (fst so) (SText (document_body d ++ [c_nl])) = Ok o'
    /\ same_fields (fst so) o' (attached_or_blank (snd so)).
Proof.
  intros H Hso. apply from_text_values. intros nf Hnf.
  apply (@field_read d so nf H Hso Hnf).
Qed.

Lemma wf_section_same (S : schema) (a b : obj) :
  same_fields S a b -> wf_section S b = true -> wf_section S a = true.
Proof.
  intros Hs Hb. apply forallb_forall. intros nf Hin. rewrite (Hs nf Hin).
  exact (proj1 (forallb_forall _ _) Hb nf Hin).
Qed.

Lemma populated_same (S : schema) (a b : obj) :
  same_fields S a b ->
  forallb (fun nf => populated (getattr b (fst nf))) S = true ->
  forallb (fun nf => populated (getattr a (fst nf))) S = true.
Proof.
  intros Hs Hb. apply forallb_forall. intros nf Hin. rewrite (Hs nf Hin).
  exact (proj1 (forallb_forall _ _) Hb nf Hin).
Qed.

(** No field of a sub-section is an amount, an array or a flag: a
    sub-section with every attribute absent is well formed. *)
Lemma blank_clean :
  forallb (fun S => wf_section S new_obj) (tl all_schemas) = true.
Proof. vm_compute. reflexivity. Qed.

Lemma subsections_schemas (d : Document) :
  map fst (Document.subsections d) = tl all_schemas.
Proof. reflexivity. Qed.

Lemma sub_read (d : Document) (so : section) :
  wf_document d = true -> In so (Document.subsections d) ->
  exists o',
    Section_.from_text (fst so) (SText (document_body d ++ [c_nl])) = Ok o'
    /\ same_fields (fst so) o' (attached_or_blank (snd so))
    /\ wf_section (fst so) o' = true.
Proof.
  intros H Hso.
  destruct (@section_read d so H (or_intror Hso)) as (o' & Ho' & Hs).
  exists o'. split; [exact Ho'|]. split; [exact Hs|].
  apply (@wf_section_same _ _ _ Hs).
  apply wf_document_parts in H as (_ & _ & Hsub).
  pose proof (proj1 (forallb_forall _ _) Hsub so Hso) as Hw.
  destruct so as [S [o|]]; cbn [fst snd attached_or_blank] in *.
  - exact Hw.
  - apply (in_map fst) in Hso. rewrite subsections_schemas in Hso.
    exact (proj1 (forallb_forall _ _) blank_clean S Hso).
Qed.

(** ** The codecs of [Cast] *)

Lemma lstrip_idem (s : str) : lstrip (lstrip s) = lstrip s.
Proof.
  induction s as [|c t IH]; [reflexivity|]. cbn [lstrip].
  destruct (is_space c) eqn:E; [exact IH|]. cbn [lstrip]. rewrite E.
  reflexivity.
Qed.

Lemma lstrip_cases (s : str) :
  lstrip s = []
  \/ exists c t, lstrip s = c :: t /\ is_space c = false.
Proof.
  induction s as [|c t IH]; [left; reflexivity|]. cbn [lstrip].
  destruct (is_space c) eqn:E; [exact IH|]. right. eauto.
Qed.

Lemma lstrip_snoc (l : str) (c : N) :
  is_space c = false -> lstrip (l ++ [c]) = lstrip l ++ [c].
Proof.
  intros Hc. induction l as [|x l IH]; cbn [app lstrip].
  - rewrite Hc. reflexivity.
  - destruct (is_space x); [exact IH | reflexivity].
Qed.

Lemma rstrip_cons (c : N) (t : str) :
  is_space c = false -> rstrip (c :: t) = c :: rstrip t.
Proof.
  intros Hc. unfold rstrip. cbn [rev]. rewrite (@lstrip_snoc _ _ Hc).
  rewrite rev_app_distr. reflexivity.
Qed.

Lemma rstrip_idem (s : str) : rstrip (rstrip s) = rstrip s.
Proof. unfold rstrip. rewrite rev_involutive, lstrip_idem. reflexivity. Qed.

Lemma strip_idem (s : str) : strip (strip s) = strip s.
Proof.
  unfold strip. destruct (lstrip_cases s) as [E|(c & t & E & Hc)]; rewrite E.
  - reflexivity.
  - rewrite (@rstrip_cons _ _ Hc). cbn [lstrip]. rewrite Hc.
    rewrite (@rstrip_cons _ _ Hc), rstrip_idem. reflexivity.
Qed.

Lemma str_to_text_strip (s : str) :
  Cast.str_to_text s = match strip s with [] => VNone | t => VStr t end.
Proof. destruct s; reflexivity. Qed.

(** X1: the text codec.  [Cast.text_to_str] writes a text without the
    white space around it, and reading that back gives what reading the
    text itself gives.  [Cast.str_to_text] returns [None] exactly on a text
    that is empty or all white space; otherwise it returns the text
    stripped, never the empty one. *)
Theorem text_codec_normalises (s : str) :
  Cast.text_to_str (VStr s) = Ok (strip s)
  /\ Cast.str_to_text (strip s) = Cast.str_to_text s
  /\ (Cast.str_to_text s = VNone <-> strip s = [])
  /\ (forall t, Cast.str_to_text s = VStr t -> t = strip s /\ t <> []).
Proof.
  split; [|split; [|split]].
  - destruct s; reflexivity.
  - rewrite !str_to_text_strip, strip_idem. reflexivity.
  - rewrite str_to_text_strip. destruct (strip s); split; intros H;
      try reflexivity; discriminate.
  - intros t. rewrite str_to_text_strip. destruct (strip s) eqn:E;
      intros H; [discriminate|]. injection H as <-. split;
      [reflexivity | discriminate].
Qed.

(** Dates *)

Lemma two_digits_table :
  forallb two_digits (map N.of_nat (seq 0 100)) = true.
Proof. vm_compute. reflexivity. Qed.

Lemma pad2_two (n : N) :
  (n < 100)%N ->
  exists a b, pad2 n = [a; b] /\ is_digit a = true /\ is_digit b = true.
Proof.
  intros Hn. pose proof two_digits_table as T. rewrite forallb_forall in T.
  assert (Hin : In n (map N.of_nat (seq 0 100))).
  { apply in_map_iff. exists (N.to_nat n). split; [apply N2Nat.id|].
    apply in_seq. lia. }
  specialize (T n Hin). unfold two_digits in T.
  destruct (pad2 n) as [|a [|b [|? ?]]]; try discriminate.
  apply andb_true_iff in T as [Ha Hb]. eauto.
Qed.

Lemma date_valid_bounds (d : date) :
  date_valid d = true ->
  (1 <= year d <= 9999 /\ 1 <= month d <= 12 /\ 1 <= day d <= 31)%N.
Proof.
  unfold date_valid. intros H.
  repeat (apply andb_true_iff in H as [H ?]).
  repeat match goal with
         | X : (_ <=? _)%N = true |- _ => apply N.leb_le in X
         end.
  pose proof (days_in_month_le (year d) (month d)). lia.
Qed.

Lemma date_to_str_text (d : date) :
  (1000 <= year d <= 9999)%N ->
  Cast.date_to_str (Atom (ADate d)) = Ok (date_text d).
Proof.
  intros Hy. unfold Cast.date_to_str, Cast.py_strftime. cbn [truthy].
  rewrite strftime_date, digits_of_year by lia. reflexivity.
Qed.

Lemma date_text_in (d : date) : In (date_text d) (date_texts d).
Proof.
  unfold date_texts, day_texts, two_digit_texts, date_text.
  apply in_flat_map. exists (pad2 (day d)). split; [left; reflexivity|].
  left. reflexivity.
Qed.

Lemma str_to_date_texts (s : str) (d : date) :
  date_valid d = true -> In s (date_texts d) ->
  Cast.str_to_date s = Ok (Atom (ADate d)).
Proof.
  intros Hv Hin. unfold Cast.str_to_date.
  destruct s as [|c s']; [destruct (@date_texts_nonempty _ Hin)|].
  rewrite (proj2 (strptime_date (c :: s') d midnight)); [reflexivity|].
  auto.
Qed.

Lemma exact_date_text_date (d : date) :
  date_valid d = true -> exact_date_text (date_text d) = true.
Proof.
  intros Hv. apply date_valid_bounds in Hv as (Hy & Hm & Hd).
  destruct (@pad2_two (day d)) as (a & b & E1 & Ha & Hb); [lia|].
  destruct (@pad2_two (month d)) as (a' & b' & E2 & Ha' & Hb'); [lia|].
  destruct (@year_text_digits (year d)) as (e & f & g & h & E3 & He & Hf
                                            & Hg & Hh & _); [lia|].
  unfold date_text. rewrite E1, E2, E3.
  cbn [app exact_date_text forallb].
  rewrite Ha, Hb, Ha', Hb', He, Hf, Hg, Hh. reflexivity.
Qed.

(** X2: the date codec.  A valid date from the year 1000 on is written by
    [Cast.date_to_str] as DD.MM.YYYY, two digits, two digits, four digits,
    and [Cast.str_to_date] reads that text back as the same date. *)
Theorem date_codec_round_trip (d : date) :
  date_valid d = true -> (1000 <= year d)%N ->
  Cast.date_to_str (Atom (ADate d)) = Ok (date_text d)
  /\ exact_date_text (date_text d) = true
  /\ Cast.str_to_date (date_text d) = Ok (Atom (ADate d)).
Proof.
  intros Hv Hy. pose proof (@date_valid_bounds _ Hv) as (Hy' & _).
  split; [apply date_to_str_text; lia|].
  split; [apply exact_date_text_date, Hv|].
  apply str_to_date_texts; [exact Hv | apply date_text_in].
Qed.

Lemma date_codec_round_trip_witness :
  Cast.date_to_str (Atom (ADate (mkdate 2020 2 29)))
  = Ok (date_text (mkdate 2020 2 29))
  /\ exact_date_text (date_text (mkdate 2020 2 29)) = true
  /\ Cast.str_to_date (date_text (mkdate 2020 2 29))
     = Ok (Atom (ADate (mkdate 2020 2 29))).
Proof.
  apply (@date_codec_round_trip (mkdate 2020 2 29)).
  - reflexivity.
  - cbn [year]. lia.
Defined.

(** Times *)

Lemma time_to_str_text (t : time) :
  Cast.time_to_str (Atom (ATime t)) = Ok (time_text t).
Proof.
  unfold Cast.time_to_str, Cast.py_strftime. cbn [truthy].
  rewrite strftime_time. reflexivity.
Qed.

Lemma time_text_in (t : time) : In (time_text t) (time_texts (whole_second t)).
Proof.
  unfold time_texts, two_digit_texts, time_text, whole_second.
  cbn [hour minute second].
  apply in_flat_map. exists (pad2 (hour t)). split; [left; reflexivity|].
  apply in_flat_map. exists (pad2 (minute t)). split; [left; reflexivity|].
  left. reflexivity.
Qed.

Lemma time_valid_bounds (t : time) :
  time_valid t = true ->
  (hour t < 24 /\ minute t < 60 /\ second t < 60
   /\ microsecond t < 1000000)%N.
Proof.
  unfold time_valid. intros H.
  repeat (apply andb_true_iff in H as [H ?]).
  repeat match goal with
         | X : (_ <? _)%N = true |- _ => apply N.ltb_lt in X
         end.
  auto.
Qed.

Lemma whole_second_valid (t : time) :
  time_valid t = true -> time_valid (whole_second t) = true.
Proof.
  intros H. apply time_valid_bounds in H as (Hh & Hm & Hs & _).
  unfold time_valid, whole_second. cbn [hour minute second microsecond].
  apply N.ltb_lt in Hh, Hm, Hs. rewrite Hh, Hm, Hs. reflexivity.
Qed.

Lemma str_to_time_texts (s : str) (t : time) :
  time_valid t = true -> microsecond t = 0%N -> In s (time_texts t) ->
  Cast.str_to_time s = Ok (Atom (ATime t)).
Proof.
  intros Hv Hus Hin. unfold Cast.str_to_time.
  destruct s as [|c s']; [destruct (@time_texts_nonempty _ Hin)|].
  rewrite (proj2 (strptime_time (c :: s') epoch_1900 t)); [reflexivity|].
  auto.
Qed.

Lemma exact_time_text_time (t : time) :
  time_valid t = true -> exact_time_text (time_text t) = true.
Proof.
  intros Hv. apply time_valid_bounds in Hv as (Hh & Hm & Hs & _).
  destruct (@pad2_two (hour t)) as (a & b & E1 & Ha & Hb); [lia|].
  destruct (@pad2_two (minute t)) as (a' & b' & E2 & Ha' & Hb'); [lia|].
  destruct (@pad2_two (second t)) as (e & f & E3 & He & Hf); [lia|].
  unfold time_text. rewrite E1, E2, E3.
  cbn [app exact_time_text forallb].
  rewrite Ha, Hb, Ha', Hb', He, Hf. reflexivity.
Qed.

(** X3: the time codec.  A valid time of day is written by
    [Cast.time_to_str] as HH:MM:SS, and [Cast.str_to_time] reads that text
    back as the same hour, minute and second; the microseconds are lost. *)
Theorem time_codec_round_trip (t : time) :
  time_valid t = true ->
  Cast.time_to_str (Atom (ATime t)) = Ok (time_text t)
  /\ exact_time_text (time_text t) = true
  /\ Cast.str_to_time (time_text t) = Ok (Atom (ATime (whole_second t))).
Proof.
  intros Hv. split; [apply time_to_str_text|].
  split; [apply exact_time_text_time, Hv|].
  apply str_to_time_texts;
    [apply whole_second_valid, Hv | reflexivity | apply time_text_in].
Qed.

Lemma time_codec_round_trip_witness :
  Cast.time_to_str (Atom (ATime (mktime 9 5 0 250000)))
  = Ok (time_text (mktime 9 5 0 250000))
  /\ exact_time_text (time_text (mktime 9 5 0 250000)) = true
  /\ Cast.str_to_time (time_text (mktime 9 5 0 250000))
     = Ok (Atom (ATime (whole_second (mktime 9 5 0 250000)))).
Proof.
  apply (@time_codec_round_trip (mktime 9 5 0 250000)). reflexivity.
Defined.

(** Amounts *)

Lemma amount_to_str_plain (d : Decimal) :
  plain_decimal d = true ->
  Cast.amount_to_str (Atom (ADec d)) = Ok (Decimal_to_str d).
Proof.
  intros H. destruct (@str_to_amount_plain d H) as (Hnum & _).
  unfold Cast.amount_to_str. cbn [py_str atom_str].
  rewrite replace_all_absent; [reflexivity|].
  apply numeric_not_in; [reflexivity | exact Hnum].
Qed.

(** X4: the amount codec.  A decimal that [str] writes in plain notation
    is written by [Cast.amount_to_str] as that text, and
    [Cast.str_to_amount] reads it back as the same decimal: sign,
    digits and exponent. *)
Theorem amount_codec_round_trip (d : Decimal) :
  plain_decimal d = true ->
  Cast.amount_to_str (Atom (ADec d)) = Ok (Decimal_to_str d)
  /\ Cast.str_to_amount (Decimal_to_str d) = Ok (Atom (ADec d)).
Proof.
  intros H. split; [apply amount_to_str_plain, H|].
  apply (@str_to_amount_plain d H).
Qed.

Lemma amount_codec_round_trip_witness :
  Cast.amount_to_str (Atom (ADec (mkDecimal true 10050 (-2))))
  = Ok (Decimal_to_str (mkDecimal true 10050 (-2)))
  /\ Cast.str_to_amount (Decimal_to_str (mkDecimal true 10050 (-2)))
     = Ok (Atom (ADec (mkDecimal true 10050 (-2)))).
Proof.
  apply (@amount_codec_round_trip (mkDecimal true 10050 (-2))).
  reflexivity.
Defined.

(** Decoding of dates and times *)



(** ** Amounts written with a comma *)

Lemma amount_text_no_period (obj : str) :
  replace_all c_dot []
    (replace_all c_comma [c_dot]
       (replace_all c_space []
          (replace_all c_apos [] (Cast.re_sub_amount obj))))
  = filter sign_or_digit obj.
Proof.
  unfold Cast.re_sub_amount, sign_or_digit.
  induction obj as [|c t IH]; [reflexivity|].
  cbn [filter]. unfold is_digit, c_comma, c_dot, c_minus, c_apos, c_space in *.
  repeat (match goal with
          | |- context [N.eqb c ?k] => destruct (N.eqb_spec c k)
          | |- context [N.leb ?a ?b] => destruct (N.leb_spec a b)
          end;
          cbn [orb andb filter replace_all app negb N.eqb Pos.eqb];
          try lia);
    try (rewrite IH; reflexivity); try exact IH.
Qed.

(** X7: a comma is no decimal separator.  On a text without a period
    [Cast.str_to_amount] asks [str.replace] for [-1] replacements, which
    removes every period the commas were turned into: the amount is read
    from the digits and minus signs alone, so [12,50] is 1250. *)
Theorem str_to_amount_no_period (obj : str) :
  count_char c_dot obj = 0%Z ->
  Cast.str_to_amount obj
  = (d <- Decimal_of_str (filter sign_or_digit obj) ;; Ok (Atom (ADec d))).
Proof.
  intros H. unfold Cast.str_to_amount. rewrite H.
  change (str_replace c_dot [] (0 - 1)) with (replace_all c_dot []).
  rewrite amount_text_no_period. reflexivity.
Qed.

Lemma str_to_amount_no_period_witness :
  count_char c_dot (u "12,50") = 0%Z
  /\ Cast.str_to_amount (u "12,50")
     = (d <- Decimal_of_str (filter sign_or_digit (u "12,50")) ;;
        Ok (Atom (ADec d)))
  /\ Cast.str_to_amount (u "12,50") = Ok (Atom (ADec (mkDecimal false 1250 0))).
Proof.
  split; [reflexivity|].
  split; [apply (@str_to_amount_no_period (u "12,50")); reflexivity|].
  vm_compute. reflexivity.
Defined.

(** ** Amounts written with a period and a comma *)

Lemma span_digits_spec (s d r : str) :
  span_digits s = (d, r) -> s = d ++ r /\ periods d = 0%nat.
Proof.
  revert d r; induction s as [|c t IH]; intros d r H; cbn [span_digits] in H.
  - injection H as <- <-. split; reflexivity.
  - destruct (is_digit c) eqn:E.
    + destruct (span_digits t) as [d' r'] eqn:E'.
      injection H as <- <-. destruct (IH _ _ eq_refl) as [-> Hd].
      split; [reflexivity|]. unfold periods in *. cbn [filter].
      replace (c_dot =? c)%N with false; [exact Hd|].
      symmetry. apply N.eqb_neq. apply is_digit_bounds in E.
      unfold c_dot. lia.
    + injection H as <- <-. split; reflexivity.
Qed.

Lemma periods_app (a b : str) : periods (a ++ b) = (periods a + periods b)%nat.
Proof. unfold periods. rewrite filter_app, length_app. reflexivity. Qed.

Lemma Decimal_of_str_periods (s : str) (d : Decimal) :
  Decimal_of_str s = Ok d -> (periods s <= 1)%nat.
Proof.
  unfold Decimal_of_str.
  assert (Hbody : forall body,
             (let '(ip, r1) := span_digits body in
              match r1 with
              | [] => match ip with
                      | [] => Raise InvalidOperation
                      | _ => Ok (mkDecimal (dsign d) (int_of_digits ip) 0)
                      end
              | c :: r2 =>
                  if (c =? c_dot)%N then
                    let '(fp, r3) := span_digits r2 in
                    match r3, ip ++ fp with
                    | [], _ :: _ =>
                        Ok (mkDecimal (dsign d) (int_of_digits (ip ++ fp))
                              (- Z.of_nat (length fp)))
                    | _, _ => Raise InvalidOperation
                    end
                  else Raise InvalidOperation
              end) = Ok d -> (periods body <= 1)%nat).
  { intros body. destruct (span_digits body) as [ip r1] eqn:E1.
    apply span_digits_spec in E1 as [-> H1]. rewrite periods_app, H1.
    destruct r1 as [|c r2]; [intros _; cbn; lia|].
    destruct (c =? c_dot)%N eqn:Ec; [|discriminate].
    destruct (span_digits r2) as [fp r3] eqn:E2.
    apply span_digits_spec in E2 as [-> H2].
    destruct r3; [|discriminate]. intros _.
    rewrite app_nil_r. unfold periods in *. cbn [filter].
    destruct (c_dot =? c)%N; cbn [length]; lia. }
  destruct s as [|c r].
  - discriminate.
  - destruct (c =? c_minus)%N eqn:Em.
    + intros H.
      assert (Hr : (periods r <= 1)%nat).
      { apply Hbody. destruct (span_digits r) as [ip r1].
        destruct r1 as [|c' r2].
        - destruct ip; [discriminate|]. injection H as <-. reflexivity.
        - destruct (c' =? c_dot)%N; [|discriminate].
          destruct (span_digits r2) as [fp r3].
          destruct r3; [|discriminate].
          destruct (ip ++ fp); [discriminate|]. injection H as <-.
          reflexivity. }
      unfold periods in *. cbn [filter].
      apply N.eqb_eq in Em. subst c. exact Hr.
    + intros H. apply Hbody.
      destruct (span_digits (c :: r)) as [ip r1].
      destruct r1 as [|c' r2].
      * destruct ip; [discriminate|]. injection H as <-. reflexivity.
      * destruct (c' =? c_dot)%N; [|discriminate].
        destruct (span_digits r2) as [fp r3].
        destruct r3; [|discriminate].
        destruct (ip ++ fp); [discriminate|]. injection H as <-.
        reflexivity.
Qed.

Lemma Decimal_of_str_raises (s : str) (e : exn) :
  Decimal_of_str s = Raise e -> e = InvalidOperation.
Proof.
  unfold Decimal_of_str.
  destruct (match s with
            | [] => (false, s)
            | c :: r => if (c =? c_minus)%N then (true, r) else (false, s)
            end) as [sign body].
  destruct (span_digits body) as [ip r1].
  destruct r1 as [|c r2].
  - destruct ip; [congruence | discriminate].
  - destruct (c =? c_dot)%N; [|congruence].
    destruct (span_digits r2) as [fp r3].
    destruct r3; [|congruence]. destruct (ip ++ fp); [congruence|].
    discriminate.
Qed.

Lemma amount_text_periods (obj : str) :
  periods (replace_all c_comma [c_dot]
             (replace_all c_space []
                (replace_all c_apos [] (Cast.re_sub_amount obj))))
  = (periods obj + length (filter (N.eqb c_comma) obj))%nat.
Proof.
  unfold Cast.re_sub_amount, periods.
  induction obj as [|c t IH]; [reflexivity|].
  cbn [filter]. unfold is_digit, c_comma, c_dot, c_minus, c_apos, c_space in *.
  repeat (match goal with
          | |- context [N.eqb c ?k] => destruct (N.eqb_spec c k)
          | |- context [N.eqb ?k c] => destruct (N.eqb_spec k c)
          | |- context [N.leb ?a ?b] => destruct (N.leb_spec a b)
          | |- context [(46 =? 46)%N] => change (46 =? 46)%N with true
          end;
          cbn [orb andb filter replace_all app negb length];
          try lia).
Qed.

(** X8: a text with one period and a comma is no amount.  The count of
    periods is taken before the commas become periods, so nothing is
    removed, the text handed to [Decimal] holds two periods or more, and
    [Cast.str_to_amount] raises [InvalidOperation]. *)
Theorem str_to_amount_period_and_comma (obj : str) :
  count_char c_dot obj = 1%Z -> In c_comma obj ->
  Cast.str_to_amount obj = Raise InvalidOperation.
Proof.
  intros Hdot Hcomma. unfold Cast.str_to_amount. rewrite Hdot.
  change (str_replace c_dot [] (1 - 1)) with (replace_first 0 c_dot []).
  rewrite replace_first_0.
  destruct (Decimal_of_str _) as [d|e] eqn:E.
  - exfalso. apply Decimal_of_str_periods in E.
    rewrite amount_text_periods in E.
    assert (Hc : In c_comma (filter (N.eqb c_comma) obj)).
    { apply filter_In. split; [exact Hcomma | apply N.eqb_refl]. }
    destruct (filter (N.eqb c_comma) obj); [contradiction|].
    unfold count_char in Hdot. fold (periods obj) in Hdot.
    cbn [length] in E. lia.
  - apply Decimal_of_str_raises in E. subst e. reflexivity.
Qed.

Lemma str_to_amount_period_and_comma_witness :
  count_char c_dot (u "1,234.56") = 1%Z
  /\ In c_comma (u "1,234.56")
  /\ Cast.str_to_amount (u "1,234.56") = Raise InvalidOperation.
Proof.
  split; [reflexivity|]. split; [vm_compute; tauto|].
  apply (@str_to_amount_period_and_comma (u "1,234.56"));
    [reflexivity | vm_compute; tauto].
Defined.

(** ** One section written and read back *)





(** ** A flag is written as its bare key and never read back *)

Lemma strip_prefix_length (p s r : str) :
  strip_prefix p s = Some r -> length s = (length p + length r)%nat.
Proof.
  revert s; induction p as [|a p IH]; intros s H; cbn [strip_prefix] in H.
  - injection H as ->. reflexivity.
  - destruct s as [|b s]; [discriminate|].
    destruct (a =? b)%N; [|discriminate].
    cbn [length]. rewrite (IH _ H). reflexivity.
Qed.

Lemma split_lines_length (s l : str) :
  In l (split_lines s) -> (length l <= length s)%nat.
Proof.
  revert l; induction s as [|c s IH]; intros l H; cbn [split_lines] in H.
  - destruct H as [<-|[]]. apply le_n.
  - destruct (c =? c_nl)%N.
    + destruct H as [<-|H]; cbn [length]; [lia|].
      specialize (IH _ H). lia.
    + destruct (split_lines_cons s) as (l0 & ls & E). rewrite E in H, IH.
      destruct H as [<-|H]; cbn [length].
      * specialize (IH l0 (or_introl eq_refl)). lia.
      * specialize (IH l (or_intror H)). lia.
Qed.

Lemma flat_map_nil (A B : Type) (f : A -> list B) (l : list A) :
  (forall x, In x l -> f x = []) -> flat_map f l = [].
Proof.
  induction l as [|x l IH]; intros H; [reflexivity|].
  cbn [flat_map]. rewrite (H x (or_introl eq_refl)).
  apply IH. intros y Hy. apply H. right. exact Hy.
Qed.

Lemma findall_short (k text : str) :
  (length text <= length k)%nat -> Field.findall k text = [].
Proof.
  intros Hlen. unfold Field.findall. apply flat_map_nil. intros l Hl.
  destruct (strip_prefix (k ++ [c_eq]) l) as [r|] eqn:E; [|reflexivity].
  apply strip_prefix_length in E. apply split_lines_length in Hl.
  rewrite length_app in E. cbn [length] in E. lia.
Qed.

(** X10: a flag is written and never read.  For a flag field of [Header]
    or [Balance], the text [to_text] writes for the field is empty or the
    bare key, without an equals sign, and [Field.get_value_from_text] looks
    for [key=]: from what was written for the field it reads [None]. *)
Theorem flag_never_read_back (nf : string * Field) (v : value) (line : str) :
  In nf (Header.Schema ++ Balance.Schema) -> type (snd nf) = FLAG ->
  Section_.get_text (snd nf) v = Ok line ->
  (line = [] \/ line = key (snd nf))
  /\ Field.get_value_from_text (snd nf) (SText line) = Ok VNone.
Proof.
  intros _ Ht H. unfold Section_.get_text, Section_.get_line in H.
  rewrite Ht in H. cbn [FType_eqb] in H. rewrite andb_false_r in H.
  apply bind_Ok_inv in H as (value & _ & H).
  assert (Hline : line = [] \/ line = key (snd nf)).
  { destruct (negb (to_bank_in (required (snd nf)))
              && negb (nonempty value));
      injection H as <-; auto. }
  split; [exact Hline|].
  apply get_value_none. apply findall_short.
  destruct Hline as [->| ->]; cbn [length]; lia.
Qed.

Lemma flag_never_read_back_witness :
  Section_.get_text (mkField (u "1CClientBankExchange") BOTH FLAG) VNone
  = Ok (u "1CClientBankExchange")
  /\ Field.get_value_from_text (mkField (u "1CClientBankExchange") BOTH FLAG)
       (SText (u "1CClientBankExchange"))
     = Ok VNone.
Proof.
  split; [vm_compute; reflexivity|].
  apply (@flag_never_read_back
           ("format_name"%string,
            mkField (u "1CClientBankExchange") BOTH FLAG)
           VNone (u "1CClientBankExchange")).
  - left. vm_compute. reflexivity.
  - reflexivity.
  - vm_compute. reflexivity.
Defined.

(** ** The text of a document *)



(** ** Texts that hold no section *)

Lemma from_text_none (S : schema) :
  S <> [] -> Section_.from_text S SNone = Raise TypeError.
Proof. destruct S as [|[name f] S]; [contradiction | reflexivity]. Qed.

Lemma Document_Schema_nonempty : Document.Schema <> [].
Proof. rewrite Document_Schema_shape. discriminate. Qed.

Lemma Header_Schema_nonempty : Header.Schema <> [].
Proof. intros E. vm_compute in E. discriminate E. Qed.

Lemma strip_prefix_Some (p s r : str) :
  strip_prefix p s = Some r -> s = p ++ r.
Proof.
  revert s; induction p as [|a p IH]; intros s H; cbn [strip_prefix] in H.
  - injection H as ->. reflexivity.
  - destruct s as [|b s]; [discriminate|].
    destruct (a =? b)%N eqn:E; [|discriminate].
    apply N.eqb_eq in E. subst b. cbn [app]. rewrite (IH _ H). reflexivity.
Qed.

Lemma find_sub_Some (pat s before rest : str) :
  find_sub pat s = Some (before, rest) -> s = before ++ pat ++ rest.
Proof.
  revert before; induction s as [|c s IH]; intros before H.
  - cbn [find_sub] in H.
    destruct (strip_prefix pat []) as [r|] eqn:E; [|discriminate].
    injection H as <- <-. apply strip_prefix_Some in E. exact E.
  - rewrite find_sub_cons in H.
    destruct (strip_prefix pat (c :: s)) as [r|] eqn:E.
    + injection H as <- <-. apply strip_prefix_Some in E. exact E.
    + destruct (find_sub pat s) as [[b r]|] eqn:E2; [|discriminate].
      injection H as <- <-. cbn [app]. rewrite (IH b eq_refl). reflexivity.
Qed.

Lemma findall_between_none (fuel : nat) (keep : bool) (open close s : str) :
  no_sub open s \/ no_sub close s ->
  Section_.findall_between fuel keep open close s = [].
Proof.
  intros H. destruct fuel as [|fuel]; [reflexivity|].
  cbn [Section_.findall_between].
  destruct (find_sub open s) as [[b after]|] eqn:E; [|reflexivity].
  destruct H as [H|H]; [unfold no_sub in H; congruence|].
  apply find_sub_Some in E. subst s. rewrite app_assoc in H.
  apply no_sub_suffix in H. unfold no_sub in H. rewrite H. reflexivity.
Qed.

(** X12: a text without a document.  When the start marker or the end
    marker of a document occurs nowhere in the text, [Document.from_text]
    does not return the empty list: the missing block is handed on as
    [None] and the call raises [TypeError]. *)
Theorem from_text_no_document (text : str) :
  no_sub Document.tag_open text \/ no_sub Document.tag_close text ->
  Document.from_text text = Raise TypeError.
Proof.
  intros H. unfold Document.from_text, Section_.extract_section_text,
    Document.regex.
  rewrite (@findall_between_none _ _ _ _ _ H). cbn [bind mapM].
  unfold Document.from_span.
  rewrite (from_text_none Document_Schema_nonempty). reflexivity.
Qed.

Lemma from_text_no_document_witness :
  Document.from_text [] = Raise TypeError.
Proof.
  apply (@from_text_no_document []). left. reflexivity.
Defined.

(** X13: a text without a section.  The header is what precedes the first
    [Секция]; on a text that holds none, [Header.from_text] raises
    [TypeError]. *)
Theorem header_from_text_no_section (text : str) :
  no_sub (u "Секция") text -> Header.from_text text = Raise TypeError.
Proof.
  intros H. unfold Header.from_text, Section_.extract_section_text,
    Header.regex, Section_.findall_before.
  unfold no_sub in H. rewrite H. cbn [bind].
  apply from_text_none, Header_Schema_nonempty.
Qed.

Lemma header_from_text_no_section_witness :
  Header.from_text (u "1CClientBankExchange") = Raise TypeError.
Proof.
  apply (@header_from_text_no_section (u "1CClientBankExchange")).
  vm_compute. reflexivity.
Defined.

(** ** The text of a statement *)

Lemma join_last (sep x : str) (l : list str) :
  exists body, join sep (l ++ [x]) = body ++ x.
Proof.
  induction l as [|p l (body & IH)].
  - exists []. reflexivity.
  - exists (p ++ sep ++ body). cbn [app].
    replace (join sep (p :: l ++ [x])) with (p ++ sep ++ join sep (l ++ [x]))
      by (destruct l; reflexivity).
    rewrite IH, <- !app_assoc. reflexivity.
Qed.

Lemma filter_nonempty_snoc (l : list str) (x : str) :
  nonempty x = true -> filter nonempty (l ++ [x]) = filter nonempty l ++ [x].
Proof.
  intros H. rewrite filter_app.
  change (filter nonempty [x]) with (if nonempty x then [x] else []).
  rewrite H. reflexivity.
Qed.

Lemma end_of_file_nonempty : nonempty (u "КонецФайла") = true.
Proof. vm_compute. reflexivity. Qed.

(** X14: the end of a statement text.  Whenever [Statement.to_text]
    returns, the text ends with the end-of-file marker. *)
Theorem statement_text_closed (st : Statement) (validate : bool)
  (text : str) :
  Statement.to_text st validate = Ok text ->
  exists body, text = body ++ u "КонецФайла".
Proof.
  unfold Statement.to_text. intros H.
  apply bind_Ok_inv in H as (h & _ & H).
  apply bind_Ok_inv in H as (b & _ & H).
  apply bind_Ok_inv in H as (docs & _ & H).
  assert (Ht : text = join [c_nl; c_nl]
                        (filter nonempty
                           ([h; b] ++ docs ++ [u "КонецФайла"])))
    by (injection H as <-; reflexivity).
  rewrite Ht. clear H Ht.
  assert (E : filter nonempty ([h; b] ++ docs ++ [u "КонецФайла"])
              = filter nonempty ([h; b] ++ docs) ++ [u "КонецФайла"]).
  { rewrite app_assoc.
    apply (@filter_nonempty_snoc _ _ end_of_file_nonempty). }
  rewrite E. apply join_last.
Qed.

Lemma statement_text_closed_witness :
  exists body,
    text_of (Statement.to_text statement_ab false) = body ++ u "КонецФайла".
Proof.
  apply (@statement_text_closed statement_ab false).
  vm_compute. reflexivity.
Defined.

(** ** A document written and read back *)

Lemma from_span_document (d : Document) :
  wf_document d = true ->
  exists d',
    Document.from_span (SText (document_body d ++ [c_nl])) = Ok d'
    /\ equivalent d' d /\ wf_document d' = true.
Proof.
  intros H.
  destruct (@section_read d (Document.Schema, Some (attrs d)) H
              (or_introl eq_refl)) as (o0 & E0 & F0).
  destruct (@sub_read d (Receipt.Schema, receipt d) H
              (or_introl eq_refl)) as (o1 & E1 & F1 & W1).
  destruct (@sub_read d (Payer.Schema, payer d) H
              (or_intror (or_introl eq_refl))) as (o2 & E2 & F2 & W2).
  destruct (@sub_read d (Receiver.Schema, receiver d) H
              (or_intror (or_intror (or_introl eq_refl))))
    as (o3 & E3 & F3 & W3).
  destruct (@sub_read d (Payment.Schema, payment d) H
              (or_intror (or_intror (or_intror (or_introl eq_refl)))))
    as (o4 & E4 & F4 & W4).
  destruct (@sub_read d (Tax.Schema, tax d) H
              (or_intror (or_intror (or_intror (or_intror
                 (or_introl eq_refl))))))
    as (o5 & E5 & F5 & W5).
  destruct (@sub_read d (Special.Schema, special d) H
              (or_intror (or_intror (or_intror (or_intror (or_intror
                 (or_introl eq_refl)))))))
    as (o6 & E6 & F6 & W6).
  cbn [fst snd attached_or_blank] in *.
  exists (mkDocument o0 (Some o1) (Some o2) (Some o3) (Some o4) (Some o5)
            (Some o6)).
  split; [|split].
  - unfold Document.from_span, Receipt.from_text, Payer.from_text,
      Receiver.from_text, Payment.from_text, Tax.from_text,
      Special.from_text.
    rewrite E0. cbn [bind]. rewrite E1. cbn [bind]. rewrite E2. cbn [bind].
    rewrite E3. cbn [bind]. rewrite E4. cbn [bind]. rewrite E5. cbn [bind].
    rewrite E6. reflexivity.
  - unfold equivalent, same_section.
    cbn [attrs receipt payer receiver payment tax special attached_or_blank].
    repeat split; assumption.
  - apply wf_document_parts in H as (Hc & Hp & _).
    unfold wf_document, wf_attached.
    cbn [Document.subsections forallb attrs receipt payer receiver payment
           tax special fst snd].
    rewrite (@wf_section_same _ _ _ F0 Hc), (@populated_same _ _ _ F0 Hp).
    rewrite W1, W2, W3, W4, W5, W6. reflexivity.
Qed.

Lemma round_trip_once (d : Document) :
  wf_document d = true ->
  exists d',
    Document.from_text (document_body d ++ c_nl :: Document.tag_close)
    = Ok [d']
    /\ equivalent d' d /\ wf_document d' = true.
Proof.
  intros H.
  destruct (@document_body_head d H) as (Q & HQ).
  destruct (@from_span_document d H) as (d' & Hd' & He & Hw).
  exists d'. split; [|split; assumption].
  unfold Document.from_text.
  rewrite (@extract_document _ _ HQ (@document_body_inert d H)).
  cbn [bind mapM]. rewrite Hd'. reflexivity.
Qed.

Lemma equivalent_trans (a b c : Document) :
  equivalent a b -> equivalent b c -> equivalent a c.
Proof.
  unfold equivalent, same_section, same_fields.
  intros (A0 & A1 & A2 & A3 & A4 & A5 & A6)
         (B0 & B1 & B2 & B3 & B4 & B5 & B6).
  repeat split; intros nf Hin;
    [ rewrite (A0 nf Hin); apply (B0 nf Hin)
    | rewrite (A1 nf Hin); apply (B1 nf Hin)
    | rewrite (A2 nf Hin); apply (B2 nf Hin)
    | rewrite (A3 nf Hin); apply (B3 nf Hin)
    | rewrite (A4 nf Hin); apply (B4 nf Hin)
    | rewrite (A5 nf Hin); apply (B5 nf Hin)
    | rewrite (A6 nf Hin); apply (B6 nf Hin) ].
Qed.

(** X15: a document written and read back.  For a document whose four
    attributes are present and clean and whose attached sub-sections hold
    clean values, [Document.to_text] with validation succeeds,
    [Document.from_text] reads exactly one document from the text, equal to
    the first field for field (a sub-section that was not attached comes
    back with every field absent), and writing and reading that one once
    more gives the same again. *)
Theorem document_round_trip (d : Document) :
  wf_document d = true ->
  exists text d' text' d'',
    Document.to_text d true = Ok text
    /\ Document.from_text text = Ok [d']
    /\ equivalent d' d
    /\ Document.to_text d' true = Ok text'
    /\ Document.from_text text' = Ok [d'']
    /\ equivalent d'' d.
Proof.
  intros H.
  destruct (@round_trip_once d H) as (d' & P1 & Q1 & W1).
  destruct (@round_trip_once d' W1) as (d'' & P2 & Q2 & _).
  exists (document_body d ++ c_nl :: Document.tag_close), d',
         (document_body d' ++ c_nl :: Document.tag_close), d''.
  split; [apply to_text_document, H|].
  split; [exact P1|]. split; [exact Q1|].
  split; [apply to_text_document, W1|].
  split; [exact P2|]. exact (equivalent_trans Q2 Q1).
Qed.

Lemma document_round_trip_witness :
  wf_document order_a = true
  /\ exists text d' text' d'',
       Document.to_text order_a true = Ok text
       /\ Document.from_text text = Ok [d']
       /\ equivalent d' order_a
       /\ Document.to_text d' true = Ok text'
       /\ Document.from_text text' = Ok [d'']
       /\ equivalent d'' order_a.
Proof.
  split; [vm_compute; reflexivity|].
  apply (@document_round_trip order_a). vm_compute. reflexivity.
Defined.

(** ** The documents of a statement, read back from its text *)

Lemma tag_open_no_nl : ~ In c_nl Document.tag_open.
Proof. intros H. vm_compute in H. intuition discriminate. Qed.

Lemma end_of_file_no_open : no_sub Document.tag_open (u "КонецФайла").
Proof. vm_compute. reflexivity. Qed.

Lemma join_cons_ne (sep p : str) (l : list str) :
  l <> [] -> join sep (p :: l) = p ++ sep ++ join sep l.
Proof. destruct l; [contradiction | reflexivity]. Qed.

(** What precedes the first document does not count. *)
Lemma findall_between_skip (fuel : nat) (keep : bool) (open close p rest : str) :
  open <> [] -> ~ In c_nl open -> no_sub open p ->
  Section_.findall_between fuel keep open close (p ++ blank_line ++ rest)
  = Section_.findall_between fuel keep open close rest.
Proof.
  intros Hne Hnl Hp. destruct fuel as [|fuel]; [reflexivity|].
  cbn [Section_.findall_between]. unfold blank_line. cbn [app].
  rewrite (@find_sub_skip _ _ (c_nl :: rest) _ Hne Hnl Hp).
  change (c_nl :: rest) with ([] ++ c_nl :: rest).
  rewrite (@find_sub_skip _ _ rest _ Hne Hnl (@no_sub_nil _ Hne)).
  destruct (find_sub open rest) as [[b r]|]; reflexivity.
Qed.

(** One block. *)
Lemma findall_between_one_block (fuel : nat) (open close Q rest : str) :
  close <> [] -> ~ In c_nl close -> no_sub close Q ->
  Section_.findall_between (S fuel) true open close
    ((open ++ Q ++ c_nl :: close) ++ rest)
  = (open ++ Q ++ [c_nl])
    :: Section_.findall_between fuel true open close rest.
Proof.
  intros Hne Hnl HQ. cbn [Section_.findall_between].
  rewrite <- !app_assoc. rewrite find_sub_prefix.
  cbn [app].
  rewrite (@find_sub_skip _ _ (close ++ rest) _ Hne Hnl HQ).
  rewrite find_sub_prefix. reflexivity.
Qed.

Lemma findall_between_block (fuel : nat) (d : Document) (rest : str) :
  wf_document d = true ->
  Section_.findall_between (S fuel) true Document.tag_open Document.tag_close
    (document_text d ++ rest)
  = document_span d
    :: Section_.findall_between fuel true Document.tag_open
         Document.tag_close rest.
Proof.
  intros H. destruct (@document_body_head d H) as (Q & HQ).
  pose proof (@document_body_inert d H) as HP.
  unfold document_text, document_span. rewrite HQ in HP |- *.
  apply no_sub_suffix in HP.
  pose proof (@findall_between_one_block fuel Document.tag_open _ Q rest
                tag_close_nonempty tag_close_no_nl HP) as E.
  rewrite <- !app_assoc in E. rewrite <- !app_assoc. exact E.
Qed.

Lemma findall_between_documents (fuel : nat) (docs : list Document) :
  forallb wf_document docs = true -> (length docs <= fuel)%nat ->
  Section_.findall_between fuel true Document.tag_open Document.tag_close
    (join blank_line (map document_text docs ++ [u "КонецФайла"]))
  = map document_span docs.
Proof.
  revert fuel; induction docs as [|d docs IH]; intros fuel Hw Hf.
  - cbn [map app join].
    apply findall_between_none. left. exact end_of_file_no_open.
  - cbn [forallb] in Hw. apply andb_true_iff in Hw as [Hd Hw].
    destruct fuel as [|fuel]; [cbn [length] in Hf; lia|].
    cbn [map app]. rewrite join_cons_ne by (destruct docs; discriminate).
    rewrite (@findall_between_block fuel d _ Hd).
    change (blank_line ++ join blank_line (map document_text docs ++ [u "КонецФайла"]))
      with ([] ++ blank_line
            ++ join blank_line (map document_text docs ++ [u "КонецФайла"])).
    rewrite (@findall_between_skip fuel true _ Document.tag_close [] _
               tag_open_nonempty tag_open_no_nl
               (@no_sub_nil _ tag_open_nonempty)).
    rewrite IH; [reflexivity | exact Hw | cbn [length] in Hf; lia].
Qed.

Lemma findall_between_preamble (fuel : nat) (pre rest : list str) :
  Forall (no_sub Document.tag_open) pre -> rest <> [] ->
  Section_.findall_between fuel true Document.tag_open Document.tag_close
    (join blank_line (pre ++ rest))
  = Section_.findall_between fuel true Document.tag_open Document.tag_close
      (join blank_line rest).
Proof.
  intros Hpre Hrest. induction Hpre as [|p pre Hp Hpre IH]; [reflexivity|].
  cbn [app]. rewrite join_cons_ne
    by (destruct pre; [exact Hrest | discriminate]).
  rewrite (@findall_between_skip fuel true _ Document.tag_close p _
             tag_open_nonempty tag_open_no_nl Hp).
  exact IH.
Qed.

Lemma document_text_nonempty (d : Document) : nonempty (document_text d) = true.
Proof.
  unfold document_text. destruct (document_body d); reflexivity.
Qed.

Lemma filter_nonempty_texts (docs : list Document) :
  filter nonempty (map document_text docs) = map document_text docs.
Proof.
  induction docs as [|d docs IH]; [reflexivity|].
  cbn [map filter]. rewrite document_text_nonempty, IH. reflexivity.
Qed.

Lemma join_length (sep : str) (l : list str) :
  Forall (fun x => nonempty x = true) l ->
  (length l <= length (join sep l))%nat.
Proof.
  induction 1 as [|x l Hx Hl IH]; [apply le_n|].
  destruct l as [|y l].
  - cbn [join length]. destruct x; [discriminate | cbn [length]; lia].
  - change (join sep (x :: y :: l)) with (x ++ sep ++ join sep (y :: l)).
    rewrite !length_app. destruct x; [discriminate|].
    cbn [length] in *. lia.
Qed.

Lemma to_text_documents (docs : list Document) :
  forallb wf_document docs = true ->
  mapM (fun doc => Document.to_text doc true) docs
  = Ok (map document_text docs).
Proof.
  induction docs as [|d docs IH]; intros Hw; [reflexivity|].
  cbn [forallb] in Hw. apply andb_true_iff in Hw as [Hd Hw].
  cbn [mapM map]. rewrite (@to_text_document d Hd). cbn [bind].
  rewrite (IH Hw). reflexivity.
Qed.

Lemma from_span_documents (docs : list Document) :
  forallb wf_document docs = true ->
  exists docs',
    mapM Document.from_span (map SText (map document_span docs)) = Ok docs'
    /\ Forall2 equivalent docs' docs.
Proof.
  induction docs as [|d docs IH]; intros Hw.
  - exists []. split; [reflexivity | constructor].
  - cbn [forallb] in Hw. apply andb_true_iff in Hw as [Hd Hw].
    destruct (@from_span_document d Hd) as (d' & Hd' & He & _).
    destruct (IH Hw) as (docs' & Hdocs' & Hall).
    exists (d' :: docs'). split; [|constructor; assumption].
    cbn [map mapM]. unfold document_span at 1. rewrite Hd'. cbn [bind].
    rewrite Hdocs'. reflexivity.
Qed.

Lemma from_text_spans (text : str) (spans : list str) :
  spans <> [] ->
  Section_.findall_between (length text) true Document.tag_open
    Document.tag_close text = spans ->
  Document.from_text text = mapM Document.from_span (map SText spans).
Proof.
  intros Hne E. unfold Document.from_text, Section_.extract_section_text,
    Document.regex. rewrite E.
  destruct spans as [|a [|b spans]]; [contradiction | reflexivity
                                      | reflexivity].
Qed.

(** X16: the documents of a statement, read back from its text.  When the
    header and the balance are written without the start marker of a
    document in them and the documents are well formed, [Statement.to_text]
    with validation succeeds and [Document.from_text] reads from the whole
    text as many documents, in the same order, each equal to its original
    field for field. *)
Theorem statement_documents_read_back (st : Statement) (h b : str) :
  Header.to_text (header st) true = Ok h ->
  balance_text st = Ok b ->
  no_sub Document.tag_open h -> no_sub Document.tag_open b ->
  documents st <> [] -> forallb wf_document (documents st) = true ->
  exists text docs',
    Statement.to_text st true = Ok text
    /\ Document.from_text text = Ok docs'
    /\ Forall2 equivalent docs' (documents st).
Proof.
  intros Hh Hb Nh Nb Hne Hw.
  destruct (@from_span_documents _ Hw) as (docs' & Hdocs' & Hall).
  set (pre := filter nonempty [h; b]).
  set (rest := map document_text (documents st) ++ [u "КонецФайла"]).
  exists (join blank_line (pre ++ rest)), docs'.
  assert (Hpre : Forall (no_sub Document.tag_open) pre).
  { unfold pre. cbn [filter].
    destruct (nonempty h), (nonempty b); repeat constructor; assumption. }
  assert (Hrest : rest <> []).
  { unfold rest. destruct (map document_text (documents st)); discriminate. }
  split; [|split; [|exact Hall]].
  - unfold Statement.to_text. rewrite Hh. cbn [bind].
    unfold balance_text in Hb. rewrite Hb. cbn [bind].
    rewrite (@to_text_documents _ Hw). cbn [bind].
    fold rest.
    rewrite filter_app. fold pre. unfold rest at 1.
    rewrite (@filter_nonempty_snoc _ _ end_of_file_nonempty).
    rewrite filter_nonempty_texts. reflexivity.
  - rewrite <- Hdocs'. apply from_text_spans.
    + destruct (documents st); [contradiction | discriminate].
    + rewrite (@findall_between_preamble _ _ _ Hpre Hrest).
      unfold rest. apply findall_between_documents; [exact Hw|].
      assert (Hall' : Forall (fun x => nonempty x = true) (pre ++ rest)).
      { apply Forall_app. split.
        - unfold pre. apply Forall_forall. intros x Hx.
          apply filter_In in Hx. tauto.
        - unfold rest. apply Forall_app. split.
          + apply Forall_forall. intros x Hx.
            apply in_map_iff in Hx as (d & <- & _).
            apply document_text_nonempty.
          + constructor; [exact end_of_file_nonempty | constructor]. }
      apply (@join_length blank_line) in Hall'.
      unfold rest in Hall'. rewrite !length_app, length_map in Hall'. lia.
Qed.

Lemma statement_documents_read_back_witness :
  Header.to_text (header statement_ab) true
  = Ok (text_of (Header.to_text header_ab true))
  /\ forallb wf_document (documents statement_ab) = true
  /\ exists text docs',
       Statement.to_text statement_ab true = Ok text
       /\ Document.from_text text = Ok docs'
       /\ Forall2 equivalent docs' (documents statement_ab).
Proof.
  split; [vm_compute; reflexivity|].
  split; [vm_compute; reflexivity|].
  apply (@statement_documents_read_back statement_ab
           (text_of (Header.to_text header_ab true)) []).
  - vm_compute. reflexivity.
  - reflexivity.
  - vm_compute. reflexivity.
  - vm_compute. reflexivity.
  - discriminate.
  - vm_compute. reflexivity.
Defined.

(** ** The balance block, wrapped and unwrapped *)

Lemma from_text_loop_lines (S : schema) (a b : str) (o : obj) :
  (forall k, Field.findall k a = Field.findall k b) ->
  Section_.from_text_loop S (SText a) o = Section_.from_text_loop S (SText b) o.
Proof.
  intros H. revert o; induction S as [|[name f] S IH]; intros o;
    [reflexivity|].
  cbn [Section_.from_text_loop]. unfold Field.get_value_from_text.
  rewrite (H (key f)).
  destruct (_ && _); [reflexivity|].
  match goal with
  | |- bind ?r _ = bind ?r _ => destruct r as [v|e]; [|reflexivity]
  end.
  cbn [bind]. apply IH.
Qed.

Lemma findall_framed (k content : str) :
  Field.findall k (c_nl :: content ++ [c_nl]) = Field.findall k content.
Proof.
  change (c_nl :: content ++ [c_nl]) with ([] ++ c_nl :: content ++ [c_nl]).
  rewrite findall_app, findall_app, findall_nil, app_nil_r. reflexivity.
Qed.

Lemma findall_between_framed (open close content : str) :
  open <> [] -> close <> [] -> ~ In c_nl close -> no_sub close content ->
  let text := open ++ [c_nl] ++ content ++ [c_nl] ++ close in
  Section_.findall_between (length text) false open close text
  = [c_nl :: content ++ [c_nl]].
Proof.
  intros Ho Hc Hnl Hfree text.
  destruct (length text) as [|n] eqn:EL.
  - apply length_zero_iff_nil, app_eq_nil in EL. destruct (Ho (proj1 EL)).
  - unfold text. cbn [Section_.findall_between].
    rewrite find_sub_prefix. cbn [app].
    assert (Hq : no_sub close (c_nl :: content)).
    { change (c_nl :: content) with ([] ++ c_nl :: content).
      apply no_sub_sep; [exact Hc | exact Hnl | apply no_sub_nil, Hc
                         | exact Hfree]. }
    change (c_nl :: content ++ c_nl :: close)
      with ((c_nl :: content) ++ c_nl :: close).
    rewrite (@find_sub_skip _ _ close _ Hc Hnl Hq).
    rewrite find_sub_self.
    destruct n as [|n]; [reflexivity|].
    cbn [Section_.findall_between]. rewrite (@no_sub_nil _ Ho). reflexivity.
Qed.

Lemma balance_tag_open_nonempty : Balance.tag_open <> [].
Proof. intros E. vm_compute in E. discriminate E. Qed.

Lemma balance_tag_close_nonempty : Balance.tag_close <> [].
Proof. intros E. vm_compute in E. discriminate E. Qed.

Lemma balance_tag_close_no_nl : ~ In c_nl Balance.tag_close.
Proof. intros H. vm_compute in H. intuition discriminate. Qed.

(** X17: the balance block.  [Balance.to_text] puts the text of the section
    between the two markers, each on a line of its own; when the end marker
    does not occur in that text, [Balance.from_text] on the block reads what
    [Section.from_text] reads from the text of the section. *)
Theorem balance_unwrapped (self : obj) (validate : bool) (content : str) :
  Section_.to_text Balance.Schema self validate = Ok content ->
  no_sub Balance.tag_close content ->
  Balance.to_text self validate = Ok (balance_block content)
  /\ Balance.from_text (balance_block content)
     = Section_.from_text Balance.Schema (SText content).
Proof.
  intros Hc Hfree. split.
  - unfold Balance.to_text. rewrite Hc. cbn [bind]. unfold balance_block.
    apply f_equal. apply eq_refl.
  - unfold Balance.from_text, Section_.extract_section_text, Balance.regex,
      balance_block.
    rewrite (@findall_between_framed _ _ _ balance_tag_open_nonempty
               balance_tag_close_nonempty balance_tag_close_no_nl Hfree).
    cbn [bind]. unfold Section_.from_text.
    apply from_text_loop_lines. intros k. apply findall_framed.
Qed.

Lemma balance_unwrapped_witness :
  no_sub Balance.tag_close
    (text_of (Section_.to_text Balance.Schema balance_full false))
  /\ Balance.to_text balance_full false
     = Ok (balance_block
             (text_of (Section_.to_text Balance.Schema balance_full false)))
  /\ Balance.from_text
       (balance_block
          (text_of (Section_.to_text Balance.Schema balance_full false)))
     = Section_.from_text Balance.Schema
         (SText (text_of (Section_.to_text Balance.Schema balance_full false))).
Proof.
  split; [vm_compute; reflexivity|].
  apply (@balance_unwrapped balance_full false
           (text_of (Section_.to_text Balance.Schema balance_full false)));
    vm_compute; reflexivity.
Defined.

(** ** The header of a statement, read back from its text *)

Lemma findall_before_marker (close h rest : str) :
  close <> [] -> ~ In c_nl close -> no_sub close h ->
  Section_.findall_before close (h ++ blank_line ++ close ++ rest)
  = [h ++ blank_line].
Proof.
  intros Hc Hnl Hh. unfold Section_.findall_before, blank_line. cbn [app].
  assert (Hq : no_sub close (h ++ [c_nl])).
  { apply no_sub_sep; [exact Hc | exact Hnl | exact Hh | apply no_sub_nil, Hc]. }
  change (h ++ c_nl :: c_nl :: close ++ rest)
    with (h ++ [c_nl] ++ c_nl :: close ++ rest).
  rewrite app_assoc.
  rewrite (@find_sub_skip _ _ (close ++ rest) _ Hc Hnl Hq).
  rewrite find_sub_prefix. rewrite <- app_assoc. reflexivity.
Qed.

Lemma findall_blank_line (k h : str) :
  Field.findall k (h ++ blank_line) = Field.findall k h.
Proof.
  unfold blank_line.
  change (h ++ [c_nl; c_nl]) with (h ++ c_nl :: [] ++ c_nl :: []).
  rewrite findall_app, findall_app, findall_nil, !app_nil_r. reflexivity.
Qed.

Lemma section_marker_nonempty : section_marker <> [].
Proof. intros E. vm_compute in E. discriminate E. Qed.

Lemma section_marker_no_nl : ~ In c_nl section_marker.
Proof. intros H. vm_compute in H. intuition discriminate. Qed.

Lemma balance_tag_open_marker :
  Balance.tag_open = section_marker ++ u "РасчСчет".
Proof. vm_compute. reflexivity. Qed.

Lemma header_regex_marker :
  Header.regex = Some (Section_.findall_before section_marker).
Proof. reflexivity. Qed.

Lemma join_two_or_more (sep a b : str) (l : list str) :
  join sep (a :: b :: l) = a ++ sep ++ join sep (b :: l).
Proof. reflexivity. Qed.

Lemma join_head_marker (sep b : str) (l : list str) :
  exists r, join sep (b :: l) = b ++ r.
Proof. apply join_head. Qed.

(** X18: the header of a bank statement.  In the text of a statement with a
    balance, [Header.from_text] reads what [Section.from_text] reads from
    the text of the header alone, provided that text is not empty and holds
    no [Секция]. *)
Theorem statement_header_read_back (st : Statement) (validate : bool)
  (bo : obj) (h text : str) :
  balance st = Some bo ->
  Header.to_text (header st) validate = Ok h ->
  h <> [] -> no_sub section_marker h ->
  Statement.to_text st validate = Ok text ->
  Header.from_text text = Section_.from_text Header.Schema (SText h).
Proof.
  intros Hb Hh Hne Hfree Ht. unfold Statement.to_text in Ht.
  rewrite Hh, Hb in Ht. cbn [bind] in Ht.
  apply bind_Ok_inv in Ht as (b & Hbt & Ht).
  apply bind_Ok_inv in Ht as (docs & _ & Ht).
  unfold Balance.to_text in Hbt.
  apply bind_Ok_inv in Hbt as (content & _ & Hbt).
  assert (Eb : b = Balance.tag_open ++ [c_nl] ++ content ++ [c_nl]
                   ++ Balance.tag_close)
    by (injection Hbt as <-; reflexivity).
  assert (Et : text = join blank_line
                        (filter nonempty ([h; b] ++ docs ++ [u "КонецФайла"])))
    by (injection Ht as <-; reflexivity).
  clear Hbt Ht.
  assert (Hnb : nonempty b = true).
  { rewrite Eb. destruct Balance.tag_open eqn:E;
      [destruct (balance_tag_open_nonempty E) | reflexivity]. }
  assert (Hnh : nonempty h = true) by (destruct h; [contradiction | reflexivity]).
  assert (Ef : filter nonempty ([h; b] ++ docs ++ [u "КонецФайла"])
               = h :: b :: filter nonempty (docs ++ [u "КонецФайла"])).
  { cbn [app filter]. rewrite Hnh, Hnb. reflexivity. }
  rewrite Ef in Et. rewrite join_two_or_more in Et.
  destruct (join_head_marker blank_line b
              (filter nonempty (docs ++ [u "КонецФайла"]))) as (r & Er).
  rewrite Er, Eb, balance_tag_open_marker in Et.
  rewrite <- !app_assoc in Et. subst text.
  unfold Header.from_text, Section_.extract_section_text.
  rewrite header_regex_marker.
  rewrite (@findall_before_marker _ _ _ section_marker_nonempty
             section_marker_no_nl Hfree).
  cbn [bind]. unfold Section_.from_text.
  apply from_text_loop_lines. intros k. apply findall_blank_line.
Qed.

Lemma statement_header_read_back_witness :
  no_sub section_marker (text_of (Header.to_text header_ab false))
  /\ Header.from_text (text_of (Statement.to_text statement_bank false))
     = Section_.from_text Header.Schema
         (SText (text_of (Header.to_text header_ab false))).
Proof.
  split; [vm_compute; reflexivity|].
  apply (@statement_header_read_back statement_bank false balance_full
           (text_of (Header.to_text header_ab false))
           (text_of (Statement.to_text statement_bank false))).
  - reflexivity.
  - vm_compute. reflexivity.
  - intros E. vm_compute in E. discriminate E.
  - vm_compute. reflexivity.
  - vm_compute. reflexivity.
Defined.
